(** * uart-terminal-c0: the register protocol client over a serial line

    A shallow embedding of [terminal.py] (the console client) and of
    [terminal-gui.py] (the Qt client): the command strings they build, the
    hexadecimal parsing of what the user types, and the calls they make on
    the serial port.

    Conventions.
    - Text typed by the user and text the program builds is a [string]: one
      [ascii] per code point, code points 0 to 255; a text field holding a
      character beyond them is outside the model.  Text decoded from the
      wire can hold any code point and is a list of code points ([pystr]).
    - Bytes on the wire are [byte]s.
    - Python integers are unbounded: [Z].
    - What the program does to the serial port and to the widgets is
      recorded, oldest first, in the state it threads. *)

From Stdlib Require Import ZArith NArith List Bool Lia.
From Stdlib.Strings Require Import String Ascii Byte.
From Stdlib.Numbers Require Import DecimalString.
Import ListNotations.

Local Open Scope string_scope.
Local Open Scope Z_scope.

(** ** The pieces of the Python runtime the program calls *)

Module Py.

(** Code points of decoded text. *)
Definition pystr := list N.

Definition codes (s : string) : pystr := map N_of_ascii (list_ascii_of_string s).

Definition CR : ascii := ascii_of_N 13.
Definition LF : ascii := ascii_of_N 10.
(** The two characters the source writes as the escapes backslash-r backslash-n. *)
Definition CRLF : string := String CR (String LF "").

(** *** [format(n, 'X')] *)

(** Digit [d] of "0123456789ABCDEF". *)
Definition hex_upper (d : N) : ascii :=
  if (d <? 10)%N then ascii_of_N (48 + d) else ascii_of_N (55 + d).

(** The digits of [n] in base 16, most significant first, pushed in front of
    [acc]; at least one digit is produced.  [fuel] bounds the digit count. *)
Fixpoint hex_digits (fuel : nat) (n : N) (acc : string) : string :=
  match fuel with
  | O => acc
  | S k =>
      let acc' := String (hex_upper (n mod 16)) acc in
      if (n / 16 =? 0)%N then acc' else hex_digits k (n / 16) acc'
  end.

(** [f"{v:X}"]: a minus sign for a negative integer, then the digits of its
    absolute value.  The bit length of the magnitude bounds the digits. *)
Definition format_X (v : Z) : string :=
  let m := Z.abs_N v in
  let body := hex_digits (S (N.to_nat (N.log2 m))) m "" in
  if v <? 0 then String "-" body else body.

(** *** [str.strip()] *)

(** [Py_UNICODE_ISSPACE] on code points below 256. *)
Definition Py_UNICODE_ISSPACE (c : N) : bool :=
  ((9 <=? c) && (c <=? 13) || (28 <=? c) && (c <=? 32)
   || (c =? 133) || (c =? 160))%N.

(** Whitespace of any code point: the table of the Unicode database. *)
Definition unicode_isspace (c : N) : bool :=
  (Py_UNICODE_ISSPACE c || (c =? 5760)
   || (8192 <=? c) && (c <=? 8202)
   || (c =? 8232) || (c =? 8233) || (c =? 8239) || (c =? 8287)
   || (c =? 12288))%N.

Section Strip.
Context {A : Type} (space : A -> bool).

Fixpoint lstrip (l : list A) : list A :=
  match l with
  | c :: l' => if space c then lstrip l' else l
  | [] => []
  end.

Definition rstrip (l : list A) : list A := rev (lstrip (rev l)).

Definition strip_list (l : list A) : list A := rstrip (lstrip l).
End Strip.

(** [s.strip()] on typed text. *)
Definition strip (s : string) : string :=
  string_of_list_ascii
    (strip_list (fun c => Py_UNICODE_ISSPACE (N_of_ascii c)) (list_ascii_of_string s)).

(** [s.strip()] on decoded text. *)
Definition ustrip (s : pystr) : pystr := strip_list unicode_isspace s.

(** *** [int(s, 16)] *)

(** [Py_ISSPACE]: white space of the C locale. *)
Definition Py_ISSPACE (c : ascii) : bool :=
  let n := N_of_ascii c in ((9 <=? n) && (n <=? 13) || (n =? 32))%N.

(** [_PyLong_DigitValue] below 16: the value of a hexadecimal digit. *)
Definition digit_value (c : ascii) : option Z :=
  let n := Z.of_N (N_of_ascii c) in
  if (48 <=? n) && (n <=? 57) then Some (n - 48)
  else if (65 <=? n) && (n <=? 70) then Some (n - 55)
  else if (97 <=? n) && (n <=? 102) then Some (n - 87)
  else None.

(** [PyUnicode_IS_ASCII]. *)
Fixpoint is_ascii_text (s : string) : bool :=
  match s with
  | String c s' => (N_of_ascii c <? 128)%N && is_ascii_text s'
  | "" => true
  end.

(** The loop of [_PyUnicode_TransformDecimalAndSpaceToASCII] on a text of
    code points below 256: white space becomes a blank; no code point from
    127 to 255 is a decimal digit, so any other one becomes a question mark
    and ends the text.  [transform_text_loop] below is the loop on a text of
    any code points. *)
Fixpoint transform_loop (s : string) : string :=
  match s with
  | String c s' =>
      if (N_of_ascii c <? 127)%N then String c (transform_loop s')
      else if Py_UNICODE_ISSPACE (N_of_ascii c) then String " " (transform_loop s')
      else "?"
  | "" => ""
  end.

Definition transform_decimal_and_space (s : string) : string :=
  if is_ascii_text s then s else transform_loop s.

Fixpoint skip_spaces (s : string) : string :=
  match s with
  | String c s' => if Py_ISSPACE c then skip_spaces s' else s
  | "" => ""
  end.

(** The scanning loop of [long_from_binary_base] fused with its conversion
    loop: [p] is how far the scan has advanced, [prev_us] whether the
    previous character was an underscore, [z] the value of the digits read.
    [None] is its syntax error (two underscores in a row, or one at the end). *)
Fixpoint long_from_binary_base (s : string) (prev_us : bool) (p : nat) (z : Z)
  : option (Z * nat * string) :=
  match s with
  | String c s' =>
      if Ascii.eqb c "_" then
        if prev_us then None else long_from_binary_base s' true (S p) z
      else
        match digit_value c with
        | Some d => long_from_binary_base s' false (S p) (16 * z + d)
        | None => if prev_us then None else Some (z, p, s)
        end
  | "" => if prev_us then None else Some (z, p, s)
  end.

(** The sign in front of the digits. *)
Definition take_sign (str : string) : Z * string :=
  match str with
  | String c r =>
      if Ascii.eqb c "+" then (1, r)
      else if Ascii.eqb c "-" then (-1, r)
      else (1, str)
  | "" => (1, str)
  end.

(** The prefix [0x] or [0X] of base 16, and the one underscore allowed
    after it. *)
Definition take_prefix (str : string) : string :=
  match str with
  | String c0 (String c1 r) =>
      if Ascii.eqb c0 "0" && (Ascii.eqb c1 "x" || Ascii.eqb c1 "X") then
        match r with
        | String c2 r' => if Ascii.eqb c2 "_" then r' else r
        | "" => r
        end
      else str
  | _ => str
  end.

(** The digits, which have to reach the end of the text but for white
    space; [None] is [ValueError]. *)
Definition digits_to_end (sign : Z) (str : string) : option Z :=
  match str with
  | String c _ =>
      if Ascii.eqb c "_" then None
      else
        match long_from_binary_base str false 0 0 with
        | Some (z, p, rest) =>
            if Nat.eqb p 0 then None
            else match skip_spaces rest with
                 | "" => Some (sign * z)
                 | String _ _ => None
                 end
        | None => None
        end
  | "" => None
  end.

(** [PyLong_FromString(str, &end, 16)] followed by the check that the whole
    text was consumed. *)
Definition PyLong_FromString (str : string) : option Z :=
  let '(sign, str) := take_sign (skip_spaces str) in
  digits_to_end sign (take_prefix str).

(** [int(s, 16)]. *)
Definition int16 (s : string) : option Z :=
  PyLong_FromString (transform_decimal_and_space s).

(** *** [int(s, 16)] on a text of any code points *)

(** The digit zero of each script: the code points of decimal value 0 in
    the Unicode database 14.0, the one of CPython 3.11.  The nine code
    points after each of them are its digits 1 to 9. *)
Definition decimal_zeros : list N :=
  [ 48; 1632; 1776; 1984; 2406; 2534; 2662; 2790; 2918; 3046;
    3174; 3302; 3430; 3558; 3664; 3792; 3872; 4160; 4240; 6112;
    6160; 6470; 6608; 6784; 6800; 6992; 7088; 7232; 7248; 42528;
    43216; 43264; 43472; 43504; 43600; 44016; 65296; 66720; 68912; 69734;
    69872; 69942; 70096; 70384; 70736; 70864; 71248; 71360; 71472; 71904;
    72016; 72784; 73040; 73120; 92768; 92864; 93008; 120782; 120792; 120802;
    120812; 120822; 123200; 123632; 125264; 130032 ]%N.

(** [Py_UNICODE_TODECIMAL]: the value of a decimal digit of any script. *)
Definition Py_UNICODE_TODECIMAL (c : N) : option N :=
  match find (fun z => (z <=? c) && (c <? z + 10))%N decimal_zeros with
  | Some z => Some (c - z)%N
  | None => None
  end.

(** The loop of [_PyUnicode_TransformDecimalAndSpaceToASCII]: a code point
    below 127 stays, white space becomes a blank, a decimal digit becomes
    its ASCII digit, and any other code point becomes a question mark and
    ends the text. *)
Fixpoint transform_text_loop (t : pystr) : string :=
  match t with
  | c :: t' =>
      if (c <? 127)%N then String (ascii_of_N c) (transform_text_loop t')
      else if unicode_isspace c then String " " (transform_text_loop t')
      else
        match Py_UNICODE_TODECIMAL c with
        | Some d => String (ascii_of_N (48 + d)) (transform_text_loop t')
        | None => "?"
        end
  | [] => ""
  end.

(** An ASCII text is handed on as it is. *)
Definition transform_text (t : pystr) : string :=
  if forallb (fun c => (c <? 128)%N) t
  then string_of_list_ascii (map ascii_of_N t)
  else transform_text_loop t.

(** [int(s, 16)] on a text of any code points. *)
Definition int16_text (t : pystr) : option Z :=
  PyLong_FromString (transform_text t).

(** *** [str.split()] and [str.startswith] *)

(** [s.split()]: the maximal runs of characters that are not white space.
    [cur] holds the run being read, last character first. *)
Fixpoint split_loop (l : list ascii) (cur : list ascii) : list string :=
  let flush rest :=
    match cur with
    | [] => rest
    | _ :: _ => string_of_list_ascii (rev cur) :: rest
    end in
  match l with
  | c :: l' =>
      if Py_UNICODE_ISSPACE (N_of_ascii c) then flush (split_loop l' [])
      else split_loop l' (c :: cur)
  | [] => flush []
  end.

Definition split (s : string) : list string := split_loop (list_ascii_of_string s) [].

Definition startswith (s p : string) : bool := String.prefix p s.

(** *** [str.encode()] and [bytes.decode()] (UTF-8) *)

Definition byte_of_N (n : N) : byte := byte_of_ascii (ascii_of_N n).

Definition encode_char (c : ascii) : list byte :=
  let n := N_of_ascii c in
  if (n <? 128)%N then [byte_of_ascii c]
  else [byte_of_N (192 + n / 64); byte_of_N (128 + n mod 64)].

Definition encode (s : string) : list byte :=
  flat_map encode_char (list_ascii_of_string s).

(** [IS_CONTINUATION_BYTE]. *)
Definition is_continuation (b : N) : bool := ((128 <=? b) && (b <? 192))%N.

(** The decoder's walk over the bytes: [Some c] for a decoded code point,
    [None] for a run of bytes it reports to the error handler (an invalid
    start byte, an invalid continuation byte, or an unexpected end of data,
    which takes all the bytes left).  After an error the walk resumes at
    the byte that broke the sequence. *)
Fixpoint utf8_scan (bs : list byte) : list (option N) :=
  match bs with
  | [] => []
  | b1 :: r1 =>
      let c1 := Byte.to_N b1 in
      if (c1 <? 128)%N then Some c1 :: utf8_scan r1
      else if (c1 <? 194)%N then None :: utf8_scan r1
      else if (c1 <? 224)%N then
        match r1 with
        | [] => [None]
        | b2 :: r2 =>
            let c2 := Byte.to_N b2 in
            if is_continuation c2
            then Some ((c1 - 192) * 64 + (c2 - 128))%N :: utf8_scan r2
            else None :: utf8_scan r1
        end
      else if (c1 <? 240)%N then
        match r1 with
        | [] => [None]
        | b2 :: r2 =>
            let c2 := Byte.to_N b2 in
            if negb (is_continuation c2)
               || (if (c2 <? 160)%N then (c1 =? 224)%N else (c1 =? 237)%N)
            then None :: utf8_scan r1
            else
              match r2 with
              | [] => [None]
              | b3 :: r3 =>
                  let c3 := Byte.to_N b3 in
                  if is_continuation c3
                  then Some ((c1 - 224) * 4096 + (c2 - 128) * 64 + (c3 - 128))%N
                         :: utf8_scan r3
                  else None :: utf8_scan r2
              end
        end
      else if (c1 <? 245)%N then
        match r1 with
        | [] => [None]
        | b2 :: r2 =>
            let c2 := Byte.to_N b2 in
            if negb (is_continuation c2)
               || (if (c2 <? 144)%N then (c1 =? 240)%N else (c1 =? 244)%N)
            then None :: utf8_scan r1
            else
              match r2 with
              | [] => [None]
              | b3 :: r3 =>
                  let c3 := Byte.to_N b3 in
                  if negb (is_continuation c3) then None :: utf8_scan r2
                  else
                    match r3 with
                    | [] => [None]
                    | b4 :: r4 =>
                        let c4 := Byte.to_N b4 in
                        if is_continuation c4
                        then Some ((c1 - 240) * 262144 + (c2 - 128) * 4096
                                   + (c3 - 128) * 64 + (c4 - 128))%N
                               :: utf8_scan r4
                        else None :: utf8_scan r3
                    end
              end
        end
      else None :: utf8_scan r1
  end.

(** [bs.decode(errors='ignore')]: the undecodable runs are dropped. *)
Definition decode_ignore (bs : list byte) : pystr :=
  flat_map (fun i => match i with Some c => [c] | None => [] end) (utf8_scan bs).

(** [bs.decode()]: strict; [None] is [UnicodeDecodeError]. *)
Definition decode_strict (bs : list byte) : option pystr :=
  fold_right (fun i acc =>
                match i, acc with
                | Some c, Some t => Some (c :: t)
                | _, _ => None
                end) (Some []) (utf8_scan bs).

End Py.


(** ** Exceptions, and the monad of the program's steps *)

Module Run.

(** The classes of the exceptions that occur; [PortNotOpenError] is a
    [SerialException], [UnicodeDecodeError] is a [ValueError]. *)
Inductive exn_class :=
| SerialException
| PortNotOpenError
| ValueError
| UnicodeDecodeError
| AttributeError
| OtherException.

(** An exception: its class and [str(e)]. *)
Record exn := Exn { exn_class_of : exn_class; exn_str : string }.

Definition is_SerialException (e : exn) : bool :=
  match exn_class_of e with
  | SerialException | PortNotOpenError => true
  | _ => false
  end.

Definition is_ValueError (e : exn) : bool :=
  match exn_class_of e with
  | ValueError | UnicodeDecodeError => true
  | _ => false
  end.

(** [except Exception]. *)
Definition is_Exception (e : exn) : bool := true.

Inductive result (A : Type) :=
| Returned (a : A)
| Raised (e : exn).
Arguments Returned {A} a.
Arguments Raised {A} e.

(** A step: from a state to what it returns or raises, and the state it
    leaves.  A raise keeps the effects made before it. *)
Definition M (S A : Type) : Type := S -> result A * S.

Definition ret {S A} (a : A) : M S A := fun s => (Returned a, s).

Definition raise {S A} (e : exn) : M S A := fun s => (Raised e, s).

Definition bind {S A B} (m : M S A) (k : A -> M S B) : M S B :=
  fun s =>
    match m s with
    | (Returned a, s') => k a s'
    | (Raised e, s') => (Raised e, s')
    end.

Definition get {S} : M S S := fun s => (Returned s, s).

Definition modify {S} (f : S -> S) : M S unit := fun s => (Returned tt, f s).

(** [try: body / except <class> as e: handler e]. *)
Definition try_except {S A} (body : M S A) (caught : exn -> bool) (handler : exn -> M S A)
  : M S A :=
  fun s =>
    match body s with
    | (Returned a, s') => (Returned a, s')
    | (Raised e, s') => if caught e then handler e s' else (Raised e, s')
    end.

Declare Scope py_scope.
Delimit Scope py_scope with py.
Notation "x <- m ;; k" := (bind m (fun x => k))
  (at level 61, m at next level, right associativity) : py_scope.
Notation "m ;; k" := (bind m (fun _ => k))
  (at level 61, right associativity) : py_scope.

End Run.

(** ** The serial port *)

Module Port.
Import Py Run.

(** The [serial.Serial] object: the one attribute the program reads. *)
Record Serial := { is_open : bool }.

(** A call that reaches an open port, or the clock. *)
Inductive wire_event :=
| PortWrite (data : list byte)  (** [ser.write(data)] *)
| ClockSleep (ms : Z)           (** [time.sleep(ms / 1000)] *)
| PortReadLine                 (** [ser.readline()] *)
| PortClose.                   (** [ser.close()] *)

(** What the user sees. *)
Inductive ui_event :=
| Critical (msg : string)      (** [QMessageBox.critical(self, "Error", msg)] *)
| LogAppend (line : pystr)     (** [self.log.append(line)] *)
| SetConnected (b : bool)      (** [set_connected_state(b)]: the buttons *)
| Printed (line : pystr)       (** [print(line)] *)
| Prompted (text : string).    (** [input(text)] shows [text] and waits *)

(** The world behind the port, of some state [D]: how the driver and the
    device answer each call, and the text of the exceptions the interpreter
    raises by itself. *)
Class Platform (D : Type) := {
  (** [serial.Serial(port, baud, timeout=1)]: the exception it raises, if any *)
  serial_open : D -> string -> Z -> D * option exn;
  (** [write] on an open port *)
  serial_write : D -> list byte -> D * option exn;
  (** [readline] on an open port: the bytes received before the line ended
      or the timeout ran out, or the exception raised *)
  serial_readline : D -> D * (exn + list byte);
  (** [close] on an open port *)
  serial_close : D -> D;
  (** [str(e)] of the [ValueError] of [int(s, 16)] *)
  int_error_text : string -> string;
  (** [str(e)] of the [UnicodeDecodeError] of [decode] *)
  decode_error_text : list byte -> string;
  (** [str(e)] of the [ValueError] of unpacking [n] values into [k] names *)
  unpack_error_text : nat -> nat -> string;
}.

(** The state both programs thread. *)
Record World (D : Type) := {
  ser : option Serial;      (** [self.ser], or [ser] of [main] *)
  dev : D;
  wire : list wire_event;   (** oldest first *)
  ui : list ui_event;       (** oldest first *)
}.
Arguments ser {D} w.
Arguments dev {D} w.
Arguments wire {D} w.
Arguments ui {D} w.

Section Steps.
Context {D : Type} {P : Platform D}.
Local Open Scope py_scope.

Definition set_ser (o : option Serial) (w : World D) : World D :=
  {| ser := o; dev := dev w; wire := wire w; ui := ui w |}.

Definition set_dev (d : D) (w : World D) : World D :=
  {| ser := ser w; dev := d; wire := wire w; ui := ui w |}.

Definition on_wire (e : wire_event) (w : World D) : World D :=
  {| ser := ser w; dev := dev w; wire := (wire w ++ [e])%list; ui := ui w |}.

Definition on_ui (e : ui_event) (w : World D) : World D :=
  {| ser := ser w; dev := dev w; wire := wire w; ui := (ui w ++ [e])%list |}.

(** [ser.write(data)].  On [None] the attribute does not exist; a closed
    port refuses before anything reaches the driver. *)
Definition ser_write (data : list byte) : M (World D) unit :=
  fun w =>
    match ser w with
    | None => (Raised (Exn AttributeError "'NoneType' object has no attribute 'write'"), w)
    | Some s =>
        if is_open s then
          let '(d, r) := serial_write (dev w) data in
          let w' := set_dev d (on_wire (PortWrite data) w) in
          match r with
          | Some e => (Raised e, w')
          | None => (Returned tt, w')
          end
        else (Raised (Exn PortNotOpenError "Attempting to use a port that is not open"), w)
    end.

(** [ser.readline()]. *)
Definition ser_readline : M (World D) (list byte) :=
  fun w =>
    match ser w with
    | None => (Raised (Exn AttributeError "'NoneType' object has no attribute 'readline'"), w)
    | Some s =>
        if is_open s then
          let '(d, r) := serial_readline (dev w) in
          let w' := set_dev d (on_wire PortReadLine w) in
          match r with
          | inl e => (Raised e, w')
          | inr bs => (Returned bs, w')
          end
        else (Raised (Exn PortNotOpenError "Attempting to use a port that is not open"), w)
    end.

(** [ser.close()]: nothing happens on a port that is not open. *)
Definition ser_close : M (World D) unit :=
  fun w =>
    match ser w with
    | None => (Raised (Exn AttributeError "'NoneType' object has no attribute 'close'"), w)
    | Some s =>
        if is_open s then
          (Returned tt,
           set_ser (Some {| is_open := false |})
             (set_dev (serial_close (dev w)) (on_wire PortClose w)))
        else (Returned tt, w)
    end.

(** [time.sleep(0.05)] is [sleep 50]. *)
Definition sleep (ms : Z) : M (World D) unit := modify (on_wire (ClockSleep ms)).

(** [int(s, 16)] as a step. *)
Definition int_base16 (s : string) : M (World D) Z :=
  match int16 s with
  | Some z => ret z
  | None => raise (Exn ValueError (int_error_text s))
  end.

(** [bs.decode()] as a step. *)
Definition decode (bs : list byte) : M (World D) pystr :=
  match decode_strict bs with
  | Some t => ret t
  | None => raise (Exn UnicodeDecodeError (decode_error_text bs))
  end.

End Steps.

End Port.

(** ** [terminal-gui.py] *)

Module Gui.
Import Py Run Port.

(** [SCB_REGISTERS], in the order of the source. *)
Definition SCB_REGISTERS : list (string * Z) :=
  [ ("CPUID", 0xE000ED00);
    ("ICSR",  0xE000ED04);
    ("VTOR",  0xE000ED08);
    ("AIRCR", 0xE000ED0C);
    ("SCR",   0xE000ED10);
    ("CCR",   0xE000ED14) ].

(** The two command texts, [f"read 0x{address:X}\r\n"] and
    [f"write 0x{addr:X} 0x{val:X}\r\n"]. *)
Definition read_cmd (address : Z) : string :=
  "read 0x" ++ format_X address ++ CRLF.

Definition write_cmd (addr val : Z) : string :=
  "write 0x" ++ format_X addr ++ " 0x" ++ format_X val ++ CRLF.

(** What the handlers of the custom reads and writes make of a text field:
    [int(text.strip(), 16)]; [None] when it raises [ValueError]. *)
Definition field_value (text : string) : option Z := int16 (strip text).

(** The same of a field that holds a text of any code points. *)
Definition field_value_text (text : pystr) : option Z := int16_text (ustrip text).

Section Gui.
Context {D : Type} {P : Platform D}.
Local Open Scope py_scope.

(** [STM32Terminal.__init__]: no port yet. *)
Definition init (d : D) : World D :=
  {| ser := None; dev := d; wire := []; ui := [] |}.

Definition log_append (line : pystr) : M (World D) unit :=
  modify (on_ui (LogAppend line)).

Definition show_error (msg : string) : M (World D) unit :=
  modify (on_ui (Critical msg)) ;;
  log_append (codes msg).

Definition set_connected_state (connected : bool) : M (World D) unit :=
  modify (on_ui (SetConnected connected)).

(** [self.ser and self.ser.is_open]. *)
Definition port_is_open (w : World D) : bool :=
  match ser w with
  | Some s => is_open s
  | None => false
  end.

(** [port_text] is the text of [self.port_input], [baud] the integer of
    the entry selected in [self.baud_select]. *)
Definition connect_serial (port_text : string) (baud : Z) : M (World D) unit :=
  let port := strip port_text in
  if String.eqb port "" then
    show_error "Please enter a COM port (e.g., COM5)."
  else
    try_except
      (fun w =>
         let '(d, r) := serial_open (dev w) port baud in
         match r with
         | Some e => (Raised e, set_dev d w)
         | None =>
             (log_append
                (codes ("Connected to " ++ port ++ " at "
                        ++ DecimalString.NilZero.string_of_int (Z.to_int baud)
                        ++ " baud.")) ;;
              set_connected_state true)
               (set_ser (Some {| is_open := true |}) (set_dev d w))
         end)
      is_SerialException
      (fun e => show_error ("Failed to open serial port: " ++ exn_str e)).

Definition disconnect_serial : M (World D) unit :=
  w <- get ;;
  (if port_is_open w then
     ser_close ;;
     log_append (codes "Disconnected.")
   else ret tt) ;;
  set_connected_state false.

Definition send_command (cmd : string) : M (World D) pystr :=
  w <- get ;;
  if negb (port_is_open w) then
    show_error "Serial port not open." ;;
    ret (codes "ERROR")
  else
    try_except
      (ser_write (encode cmd) ;;
       sleep 50 ;;
       bs <- ser_readline ;;
       let response := ustrip (decode_ignore bs) in
       log_append (codes (">> " ++ strip cmd ++ String LF "") ++ response)%list ;;
       ret response)
      is_Exception
      (fun e =>
         show_error ("Serial error: " ++ exn_str e) ;;
         ret (codes "ERROR")).

Definition read_scb_register (address : Z) (name : string) : M (World D) unit :=
  let cmd := read_cmd address in
  response <- send_command cmd ;;
  log_append (codes (name ++ ": ") ++ response)%list.

(** [text] is the text of [self.read_addr_input]. *)
Definition read_custom_register (text : string) : M (World D) unit :=
  let addr_str := strip text in
  try_except
    (addr <- int_base16 addr_str ;;
     let cmd := read_cmd addr in
     response <- send_command cmd ;;
     log_append (codes ("Read 0x" ++ format_X addr ++ ": ") ++ response)%list)
    is_ValueError
    (fun _ => show_error "Invalid address format. Use hex (e.g., 0x48000010).").

(** [addr_text] and [val_text] are the texts of [self.write_addr_input]
    and [self.write_value_input]. *)
Definition write_custom_register (addr_text val_text : string) : M (World D) unit :=
  let addr_str := strip addr_text in
  let val_str := strip val_text in
  try_except
    (addr <- int_base16 addr_str ;;
     val <- int_base16 val_str ;;
     let cmd := write_cmd addr val in
     response <- send_command cmd ;;
     log_append (codes ("Wrote 0x" ++ format_X val ++ " to 0x" ++ format_X addr ++ ": ")
                 ++ response)%list)
    is_ValueError
    (fun _ => show_error "Invalid address or value format. Use hex (e.g., 0x48000010).").

(** [event.accept()] touches nothing modelled here. *)
Definition closeEvent : M (World D) unit :=
  w <- get ;;
  if port_is_open w then ser_close else ret tt.

(** The handlers [init_ui] connects to the buttons of the SCB group: one
    per entry of [SCB_REGISTERS], with the entry's address and name bound. *)
Definition scb_buttons : list (string * M (World D) unit) :=
  map (fun '(name, addr) => ("Read " ++ name, read_scb_register addr name))
      SCB_REGISTERS.

End Gui.

End Gui.

(** ** [terminal.py] *)

Module Cli.
Import Py Run Port.

Section Cli.
Context {D : Type} {P : Platform D}.
Local Open Scope py_scope.

Definition print (line : pystr) : M (World D) unit :=
  modify (on_ui (Printed line)).

(** [open_serial]: [ser] of [main] is the port, or [None]. *)
Definition open_serial (port : string) (baudrate : Z) : M (World D) unit :=
  try_except
    (fun w =>
       let '(d, r) := serial_open (dev w) port baudrate in
       match r with
       | Some e => (Raised e, set_dev d w)
       | None =>
           print (codes ("Connected to " ++ port ++ " at "
                         ++ DecimalString.NilZero.string_of_int (Z.to_int baudrate)
                         ++ " baud."))
             (set_ser (Some {| is_open := true |}) (set_dev d w))
       end)
    is_SerialException
    (fun e =>
       print (codes ("Failed to open serial port: " ++ exn_str e)) ;;
       modify (set_ser None)).

(** The port [ser] that [read_register] takes is the one of the state. *)
Definition read_register (address : Z) : M (World D) pystr :=
  let cmd := "read 0x" ++ format_X address ++ CRLF in
  ser_write (encode cmd) ;;
  bs <- ser_readline ;;
  text <- decode bs ;;
  ret (ustrip text).

Definition write_register (address value : Z) : M (World D) pystr :=
  let cmd := "write 0x" ++ format_X address ++ " 0x" ++ format_X value ++ CRLF in
  ser_write (encode cmd) ;;
  bs <- ser_readline ;;
  text <- decode bs ;;
  ret (ustrip text).

(** What [input(">> ")] gives: a line, or Ctrl+C. *)
Inductive console_input :=
| Line (text : string)
| Interrupt.

(** One turn of the [while True] loop of [main]; [true] when the loop is
    left by [break]. *)
Definition main_turn (i : console_input) : M (World D) bool :=
  match i with
  | Interrupt =>
      print (codes (String LF "Ctrl+C detected. Exiting...")) ;;
      ret true
  | Line text =>
      try_except
        (let user_input := strip text in
         if String.eqb user_input "exit" then
           print (codes "Exiting...") ;;
           ret true
         else if startswith user_input "read " then
           match split user_input with
           | [_; addr_str] =>
               addr <- int_base16 addr_str ;;
               resp <- read_register addr ;;
               print resp ;;
               ret false
           | l => raise (Exn ValueError (unpack_error_text (List.length l) 2))
           end
         else if startswith user_input "write " then
           match split user_input with
           | [_; addr_str; val_str] =>
               addr <- int_base16 addr_str ;;
               val <- int_base16 val_str ;;
               resp <- write_register addr val ;;
               print resp ;;
               ret false
           | l => raise (Exn ValueError (unpack_error_text (List.length l) 3))
           end
         else
           print (codes "Invalid command. Use: read 0xADDR or write 0xADDR 0xVALUE") ;;
           ret false)
        is_Exception
        (fun e =>
           print (codes ("Error: " ++ exn_str e)) ;;
           ret false)
  end.

(** The loop over the inputs that arrive: [input] shows its prompt, then a
    turn runs on what arrived; when the inputs run out the program is
    waiting at the prompt. *)
Fixpoint main_loop (inputs : list console_input) : M (World D) bool :=
  match inputs with
  | [] =>
      modify (on_ui (Prompted ">> ")) ;;
      ret false
  | i :: rest =>
      modify (on_ui (Prompted ">> ")) ;;
      left <- main_turn i ;;
      if left : bool then ret true else main_loop rest
  end.

Definition SERIAL_PORT : string := "COM9".
Definition BAUD_RATE : Z := 115200.

Definition main (inputs : list console_input) : M (World D) unit :=
  open_serial SERIAL_PORT BAUD_RATE ;;
  w <- get ;;
  match ser w with
  | None => ret tt
  | Some _ =>
      left <- main_loop inputs ;;
      if left : bool then ser_close else ret tt
  end.

End Cli.

End Cli.

(** ** Reference notions the statements use *)

Module Ref.
Import Py.

(** One of 0-9, A-F. *)
Definition is_upper_hex (c : ascii) : bool :=
  let n := N_of_ascii c in
  ((48 <=? n) && (n <=? 57) || (65 <=? n) && (n <=? 70))%N.

(** One of 0-9, A-F, a-f. *)
Definition is_hex_digit (c : ascii) : bool :=
  match digit_value c with
  | Some _ => true
  | None => false
  end.

Fixpoint all_chars (p : ascii -> bool) (s : string) : bool :=
  match s with
  | String c s' => p c && all_chars p s'
  | "" => true
  end.

Fixpoint has_char (p : ascii -> bool) (s : string) : bool :=
  match s with
  | String c s' => p c || has_char p s'
  | "" => false
  end.

(** The base-16 reading of a run of hexadecimal digits, most significant
    first, continuing from [z]. *)
Fixpoint hex_value_from (z : Z) (s : string) : Z :=
  match s with
  | String c s' =>
      hex_value_from (16 * z + match digit_value c with Some d => d | None => 0 end) s'
  | "" => z
  end.

Definition hex_value (s : string) : Z := hex_value_from 0 s.

(** A hexadecimal numeral without a sign: digits, at least one. *)
Definition hex_numeral (s : string) : Prop :=
  s <> "" /\ all_chars is_hex_digit s = true.

(** [s] is the shortest upper-case hexadecimal writing of [n]. *)
Definition minimal_upper_hex (s : string) (n : Z) : Prop :=
  s <> ""
  /\ all_chars is_upper_hex s = true
  /\ hex_value s = n
  /\ (forall r, s = String "0" r -> r = "").

Definition is_underscore (c : ascii) : bool := Ascii.eqb c "_".
Definition is_sign (c : ascii) : bool := Ascii.eqb c "+" || Ascii.eqb c "-".
Definition is_x (c : ascii) : bool := Ascii.eqb c "x" || Ascii.eqb c "X".

(** Groups of digits with one underscore between two groups, and the same
    digits without the underscores. *)
Fixpoint underscored (g : string) (gs : list string) : string :=
  match gs with
  | [] => g
  | h :: gs' => g ++ String "_" (underscored h gs')
  end.

Fixpoint plain (g : string) (gs : list string) : string :=
  match gs with
  | [] => g
  | h :: gs' => g ++ plain h gs'
  end.

(** The factor a sign stands for. *)
Definition sign_value (sgn : string) : Z := if String.eqb sgn "-" then -1 else 1.

(** The core of a hexadecimal literal of value [v]: an optional sign, an
    optional prefix (which one underscore may follow), and digits in groups
    with single underscores between them. *)
Definition hex_core (s : string) (v : Z) : Prop :=
  exists sgn pre g gs,
    s = (sgn ++ pre ++ underscored g gs)%string
    /\ In sgn [""; "+"; "-"] /\ In pre [""; "0x"; "0X"; "0x_"; "0X_"]
    /\ hex_numeral g /\ Forall hex_numeral gs
    /\ v = sign_value sgn * hex_value (plain g gs).

(** A hexadecimal literal: a core between white space. *)
Definition hex_literal (space : ascii -> bool) (s : string) (v : Z) : Prop :=
  exists ws1 core ws2,
    s = (ws1 ++ core ++ ws2)%string
    /\ all_chars space ws1 = true /\ all_chars space ws2 = true
    /\ hex_core core v.

(** The characters of a core. *)
Definition core_char (c : ascii) : bool :=
  is_hex_digit c || is_underscore c || is_sign c || is_x c.



(** The white space [int] itself takes around a literal. *)
Definition int_space (c : ascii) : bool :=
  Py_ISSPACE c || (N_of_ascii c =? 133)%N || (N_of_ascii c =? 160)%N.

(** The white space [strip] removes. *)
Definition strip_space (c : ascii) : bool := Py_UNICODE_ISSPACE (N_of_ascii c).

(** A character of a literal as a text of any code points may write it:
    the ASCII character itself, or, for a decimal digit, the digit of that
    value in any script. *)
Definition writes (c : N) (a : ascii) : Prop :=
  c = N_of_ascii a
  \/ exists d, Py_UNICODE_TODECIMAL c = Some d /\ a = ascii_of_N (48 + d).

(** The core of a hexadecimal literal in a text of any code points. *)
Definition hex_core_text (t : pystr) (v : Z) : Prop :=
  exists s, Forall2 writes t (list_ascii_of_string s) /\ hex_core s v.

(** A hexadecimal literal in a text of any code points: a core between
    white space, of any kind. *)
Definition hex_literal_text (t : pystr) (v : Z) : Prop :=
  exists ws1 core ws2,
    t = (ws1 ++ core ++ ws2)%list
    /\ forallb unicode_isspace ws1 = true /\ forallb unicode_isspace ws2 = true
    /\ hex_core_text core v.

(** A code point that can occur in a text with a value: white space, a
    decimal digit of any script, or an ASCII character of a core. *)
Definition literal_code (c : N) : bool :=
  unicode_isspace c
  || match Py_UNICODE_TODECIMAL c with Some _ => true | None => false end
  || (c <? 127)%N && core_char (ascii_of_N c).

(** What the transformation in front of [int] made a character from: white
    space, or a character of a core as a text may write it. *)
Definition read_as (c : N) (a : ascii) : Prop :=
  (Py_ISSPACE a = true /\ unicode_isspace c = true)
  \/ (core_char a = true /\ writes c a).

(** [parse_hex] as the specification words it: an optional prefix 0x or
    0X, then hexadecimal digits of either case, at least one, of a value
    that fits in 32 bits; [None] is its InvalidFormat. *)
Definition parse_hex_spec (text : string) : option Z :=
  let digits :=
    match text with
    | String c0 (String c1 r) => if Ascii.eqb c0 "0" && is_x c1 then r else text
    | _ => text
    end in
  match digits with
  | "" => None
  | String _ _ =>
      if all_chars is_hex_digit digits && (hex_value digits <? 2 ^ 32)
      then Some (hex_value digits)
      else None
  end.

End Ref.

(** ** A scripted port, for concrete runs *)

Module Double.
Import Py Run Port.

(** The answers to the calls to come, in order; when a list runs out the
    port opens, takes the bytes, and stays silent until the timeout. *)
Record script := {
  open_answers : list (option exn);
  write_answers : list (option exn);
  lines : list (exn + list byte);
}.

Definition silent : script :=
  {| open_answers := []; write_answers := []; lines := [] |}.

Definition answering (l : list (exn + list byte)) : script :=
  {| open_answers := []; write_answers := []; lines := l |}.

#[global] Instance scripted : Platform script := {
  serial_open d _ _ :=
    match open_answers d with
    | a :: rest =>
        ({| open_answers := rest; write_answers := write_answers d; lines := lines d |}, a)
    | [] => (d, None)
    end;
  serial_write d _ :=
    match write_answers d with
    | a :: rest =>
        ({| open_answers := open_answers d; write_answers := rest; lines := lines d |}, a)
    | [] => (d, None)
    end;
  serial_readline d :=
    match lines d with
    | a :: rest =>
        ({| open_answers := open_answers d; write_answers := write_answers d; lines := rest |}, a)
    | [] => (d, inr [])
    end;
  serial_close d := d;
  int_error_text s := "invalid literal for int() with base 16: " ++ s;
  decode_error_text _ := "'utf-8' codec can't decode bytes";
  unpack_error_text _ _ := "wrong number of values to unpack";
}.

(** The exception of a broken line. *)
Definition io_fault : exn := Exn SerialException "device reports readiness to read but returned no data".

(** A port whose next write fails. *)
Definition unplugged : script :=
  {| open_answers := []; write_answers := [Some io_fault]; lines := [] |}.

(** A port that cannot be opened. *)
Definition busy : script :=
  {| open_answers := [Some io_fault]; write_answers := []; lines := [] |}.

(** The bytes of "OK" and a line end. *)
Definition ok_line : list byte := list_byte_of_string ("OK" ++ CRLF).


(** A world whose port is open. *)
Definition opened (d : script) : World script :=
  {| ser := Some {| is_open := true |}; dev := d; wire := []; ui := [] |}.

End Double.

(** ** The console exchange, spelled out *)

Module Shape.
Import Py Run Port.

(** The console client's [read_register] and [write_register] send [cmd]
    like this, on a port that is open. *)
Definition cli_exchange {D : Type} {P : Platform D} (cmd : string) (w : World D) : result pystr * World D :=
  match serial_write (dev w) (encode cmd) with
  | (d1, Some e) =>
      (Raised e,
       {| ser := ser w; dev := d1; wire := (wire w ++ [PortWrite (encode cmd)])%list;
          ui := ui w |})
  | (d1, None) =>
      let w2 d2 :=
        {| ser := ser w; dev := d2;
           wire := (wire w ++ [PortWrite (encode cmd); PortReadLine])%list;
           ui := ui w |} in
      match serial_readline d1 with
      | (d2, inl e) => (Raised e, w2 d2)
      | (d2, inr bs) =>
          match decode_strict bs with
          | Some t => (Returned (ustrip t), w2 d2)
          | None => (Raised (Exn UnicodeDecodeError (decode_error_text bs)), w2 d2)
          end
      end
  end.

(** The port, the world behind it and the wire are as they were. *)
Definition port_untouched {D : Type} (w w' : World D) : Prop :=
  ser w' = ser w /\ dev w' = dev w /\ wire w' = wire w.

End Shape.

(** ** The buttons of the GUI, and a user pressing them *)

Module Widgets.
Import Py Run Port.

(** Whether each button can be pressed: the SCB buttons in the order of the
    table, then the four others. *)
Record buttons := {
  scb_enabled : list bool;
  read_enabled : bool;
  write_enabled : bool;
  connect_enabled : bool;
  disconnect_enabled : bool;
}.

(** What [init_ui] leaves: a button is enabled when it is made, and
    [init_ui] disables the disconnect button, each SCB button, the read
    button and the write button. *)
Definition init_ui : buttons :=
  {| scb_enabled := map (fun _ => false) Gui.SCB_REGISTERS;
     read_enabled := false;
     write_enabled := false;
     connect_enabled := true;
     disconnect_enabled := false |}.

(** What [set_connected_state(connected)] leaves, whatever was there. *)
Definition set_connected_state (connected : bool) : buttons :=
  {| scb_enabled := map (fun _ => connected) Gui.SCB_REGISTERS;
     read_enabled := connected;
     write_enabled := connected;
     connect_enabled := negb connected;
     disconnect_enabled := connected |}.

(** The buttons after what happened to the widgets, oldest first. *)
Fixpoint buttons_after (b : buttons) (l : list ui_event) : buttons :=
  match l with
  | SetConnected connected :: l' => buttons_after (set_connected_state connected) l'
  | _ :: l' => buttons_after b l'
  | [] => b
  end.

(** The buttons of a window made by [__init__]. *)
Definition buttons_of {D : Type} (w : World D) : buttons :=
  buttons_after init_ui (ui w).

(** What the user does: a press on a button, with the texts the fields
    hold at that moment. *)
Inductive action :=
| PressConnect (port_text : string) (baud : Z)
| PressDisconnect
| PressScb (i : nat)
| PressRead (text : string)
| PressWrite (addr_text val_text : string).

Section Widgets.
Context {D : Type} {P : Platform D}.
Local Open Scope py_scope.

(** A press runs the handler [init_ui] connected to the button; a button
    that is not enabled gives no signal. *)
Definition press (a : action) : M (World D) unit :=
  fun w =>
    let b := buttons_of w in
    match a with
    | PressConnect port_text baud =>
        if connect_enabled b then Gui.connect_serial port_text baud w else (Returned tt, w)
    | PressDisconnect =>
        if disconnect_enabled b then Gui.disconnect_serial w else (Returned tt, w)
    | PressScb i =>
        match nth_error Gui.scb_buttons i, nth_error (scb_enabled b) i with
        | Some (_, handler), Some true => handler w
        | _, _ => (Returned tt, w)
        end
    | PressRead text =>
        if read_enabled b then Gui.read_custom_register text w else (Returned tt, w)
    | PressWrite addr_text val_text =>
        if write_enabled b then Gui.write_custom_register addr_text val_text w
        else (Returned tt, w)
    end.

(** The presses of a session, in order; an exception that leaves a handler
    ends it. *)
Fixpoint session (l : list action) : M (World D) unit :=
  match l with
  | [] => ret tt
  | a :: l' => press a ;; session l'
  end.

End Widgets.

End Widgets.

(** ** A turn of the console loop, spelled out *)

Module Console.
Import Py Run Port.

(** What a line, stripped, asks for: to leave, to send a command, or
    nothing that can be sent, which is answered by the usage line or by the
    text of an exception. *)
Inductive request :=
| Leave
| Send (cmd : string)
| Usage
| Refuse (e : exn).

Section Console.
Context {D : Type} {P : Platform D}.
Local Open Scope py_scope.

Definition request_of (user_input : string) : request :=
  if String.eqb user_input "exit" then Leave
  else if startswith user_input "read " then
    match split user_input with
    | [_; addr_str] =>
        match int16 addr_str with
        | Some addr => Send (Gui.read_cmd addr)
        | None => Refuse (Exn ValueError (int_error_text addr_str))
        end
    | l => Refuse (Exn ValueError (unpack_error_text (List.length l) 2))
    end
  else if startswith user_input "write " then
    match split user_input with
    | [_; addr_str; val_str] =>
        match int16 addr_str with
        | Some addr =>
            match int16 val_str with
            | Some val => Send (Gui.write_cmd addr val)
            | None => Refuse (Exn ValueError (int_error_text val_str))
            end
        | None => Refuse (Exn ValueError (int_error_text addr_str))
        end
    | l => Refuse (Exn ValueError (unpack_error_text (List.length l) 3))
    end
  else Usage.

(** The body [read_register] and [write_register] share, on any port. *)
Definition exchange (cmd : string) : M (World D) pystr :=
  ser_write (encode cmd) ;;
  bs <- ser_readline ;;
  text <- decode bs ;;
  ret (ustrip text).

(** [print(f"Error: {e}")], and the loop goes on. *)
Definition complain (e : exn) (w : World D) : result bool * World D :=
  (Returned false, on_ui (Printed (codes ("Error: " ++ exn_str e))) w).

(** The response is printed, or the exception is. *)
Definition report (r : result pystr * World D) : result bool * World D :=
  match r with
  | (Returned resp, w') => (Returned false, on_ui (Printed resp) w')
  | (Raised e, w') => complain e w'
  end.

Definition answer (q : request) (w : World D) : result bool * World D :=
  match q with
  | Leave => (Returned true, on_ui (Printed (codes "Exiting...")) w)
  | Send cmd => report (exchange cmd w)
  | Usage =>
      (Returned false,
       on_ui (Printed (codes "Invalid command. Use: read 0xADDR or write 0xADDR 0xVALUE")) w)
  | Refuse e => complain e w
  end.

End Console.

Definition is_send (q : request) : bool :=
  match q with
  | Send _ => true
  | _ => false
  end.

End Console.

(** ** Notions for what a run adds *)

Module Trace.
Import Py Run Port.

Definition is_close (e : wire_event) : bool :=
  match e with
  | PortClose => true
  | _ => false
  end.

Definition is_popup (e : ui_event) : bool :=
  match e with
  | Critical _ => true
  | _ => false
  end.

Definition is_set_connected (e : ui_event) : bool :=
  match e with
  | SetConnected _ => true
  | _ => false
  end.

(** From [w] to [w'] the port object is the same, the wire has grown by
    [calls] and the widgets have seen [shown]. *)
Definition grows {D : Type} (w w' : World D)
           (calls : list wire_event) (shown : list ui_event) : Prop :=
  ser w' = ser w
  /\ wire w' = (wire w ++ calls)%list
  /\ ui w' = (ui w ++ shown)%list.

(** An input that makes [main] leave its loop: Ctrl+C, or the line "exit". *)
Definition leaves (i : Cli.console_input) : bool :=
  match i with
  | Cli.Interrupt => true
  | Cli.Line text => String.eqb (strip text) "exit"
  end.

(** A character that is no white space for [strip] and [split]. *)
Definition is_solid (c : ascii) : bool := negb (Py_UNICODE_ISSPACE (N_of_ascii c)).

(** A word: at least one character, none of them white space. *)
Definition word (s : string) : Prop :=
  s <> "" /\ forallb is_solid (list_ascii_of_string s) = true.

(** The words of a line: one word, then white space and a word, as often
    as [more] says, then white space. *)
Fixpoint line_of (first : string) (more : list (string * string)) (tail : string)
  : list ascii :=
  match more with
  | [] => (list_ascii_of_string first ++ list_ascii_of_string tail)%list
  | (gap, next) :: more' =>
      (list_ascii_of_string first ++ list_ascii_of_string gap
       ++ line_of next more' tail)%list
  end.

(** The popup of a command tried with no port open. *)
Definition is_not_open_popup (e : ui_event) : bool :=
  match e with
  | Critical msg => String.eqb msg "Serial port not open."
  | _ => false
  end.

(** On an open port, the write of [cmd] or the read after it raises. *)
Definition exchange_fails {D : Type} {P : Platform D} (cmd : string) (w : World D) : bool :=
  match serial_write (dev w) (encode cmd) with
  | (_, Some _) => true
  | (d1, None) =>
      match serial_readline d1 with
      | (_, inl _) => true
      | (_, inr _) => false
      end
  end.

(** From [w] to [w'] the port object is kept, the wire has only grown, by
    calls that are no close, and the widgets have only seen more, none of it
    a change of the buttons; [popup] says whether a popup was shown and
    [not_open] whether the popup "Serial port not open." was. *)
Definition handled {D : Type} (w w' : World D) (popup not_open : bool) : Prop :=
  exists calls shown,
    grows w w' calls shown
    /\ forallb (fun e => negb (is_close e)) calls = true
    /\ forallb (fun e => negb (is_set_connected e)) shown = true
    /\ existsb is_popup shown = popup
    /\ existsb is_not_open_popup shown = not_open.

(** The buttons say what the port is: those that need a port are enabled
    exactly when one is open, and the connect button when none is. *)
Definition in_step {D : Type} (w : World D) : Prop :=
  Widgets.buttons_of w = Widgets.set_connected_state (Gui.port_is_open w).

(** The bytes of one of the two commands, of some address and value. *)
Definition is_command (data : list byte) : Prop :=
  (exists address, data = encode (Gui.read_cmd address))
  \/ (exists address value, data = encode (Gui.write_cmd address value)).

(** Calls made of whole exchanges and of closes: every write carries a
    command, and every read comes right after the write of a command and
    the calls of [pause]. *)
Inductive exchanges (pause : list wire_event) : list wire_event -> Prop :=
| exchanges_nil : exchanges pause []
| exchanges_write (data : list byte) (l : list wire_event) :
    is_command data -> exchanges pause l -> exchanges pause (PortWrite data :: l)
| exchanges_read (data : list byte) (l : list wire_event) :
    is_command data -> exchanges pause l ->
    exchanges pause (PortWrite data :: pause ++ PortReadLine :: l)
| exchanges_close (l : list wire_event) :
    exchanges pause l -> exchanges pause (PortClose :: l).

End Trace.

(** * Properties *)

Import Py Run Port Ref Shape Trace.

(** ** Characters and strings *)

Lemma ascii_eqb_code (c d : ascii) :
  Ascii.eqb c d = (N_of_ascii c =? N_of_ascii d)%N.
Proof.
  destruct (Ascii.eqb_spec c d) as [->|Hne].
  - symmetry. apply N.eqb_refl.
  - symmetry. apply N.eqb_neq. intros H. apply Hne.
    rewrite <- (ascii_N_embedding c), <- (ascii_N_embedding d). now rewrite H.
Qed.

Lemma code_of_N (n : N) : (n < 256)%N -> N_of_ascii (ascii_of_N n) = n.
Proof. apply N_ascii_embedding. Qed.

Lemma hex_upper_code (d : N) :
  (d < 16)%N ->
  N_of_ascii (hex_upper d) = if (d <? 10)%N then (48 + d)%N else (55 + d)%N.
Proof.
  intros H. unfold hex_upper.
  destruct (N.ltb_spec d 10); apply code_of_N; lia.
Qed.

Lemma hex_upper_is_upper (d : N) : (d < 16)%N -> is_upper_hex (hex_upper d) = true.
Proof.
  intros H. unfold is_upper_hex. rewrite (hex_upper_code d H).
  destruct (N.ltb_spec d 10).
  - apply orb_true_iff. left. apply andb_true_iff. split; apply N.leb_le; lia.
  - apply orb_true_iff. right. apply andb_true_iff. split; apply N.leb_le; lia.
Qed.

Lemma digit_value_hex_upper (d : N) :
  (d < 16)%N -> digit_value (hex_upper d) = Some (Z.of_N d).
Proof.
  intros H. unfold digit_value. rewrite (hex_upper_code d H).
  destruct (N.ltb_spec d 10).
  - replace ((48 <=? Z.of_N (48 + d)) && (Z.of_N (48 + d) <=? 57)) with true.
    + f_equal. lia.
    + symmetry. apply andb_true_iff. split; apply Z.leb_le; lia.
  - replace ((48 <=? Z.of_N (55 + d)) && (Z.of_N (55 + d) <=? 57)) with false.
    + replace ((65 <=? Z.of_N (55 + d)) && (Z.of_N (55 + d) <=? 70)) with true.
      * f_equal. lia.
      * symmetry. apply andb_true_iff. split; apply Z.leb_le; lia.
    + symmetry. apply andb_false_iff. right. apply Z.leb_gt. lia.
Qed.

Lemma upper_hex_is_hex_digit (c : ascii) : is_upper_hex c = true -> is_hex_digit c = true.
Proof.
  unfold is_upper_hex, is_hex_digit, digit_value. intros H.
  apply orb_true_iff in H. destruct H as [H|H]; apply andb_true_iff in H;
    destruct H as [H1 H2]; apply N.leb_le in H1; apply N.leb_le in H2.
  - replace ((48 <=? Z.of_N (N_of_ascii c)) && (Z.of_N (N_of_ascii c) <=? 57)) with true;
      [reflexivity|]. symmetry. apply andb_true_iff. split; apply Z.leb_le; lia.
  - replace ((48 <=? Z.of_N (N_of_ascii c)) && (Z.of_N (N_of_ascii c) <=? 57)) with false.
    + replace ((65 <=? Z.of_N (N_of_ascii c)) && (Z.of_N (N_of_ascii c) <=? 70)) with true;
        [reflexivity|]. symmetry. apply andb_true_iff. split; apply Z.leb_le; lia.
    + symmetry. apply andb_false_iff. right. apply Z.leb_gt. lia.
Qed.

Lemma append_assoc (a b c : string) : ((a ++ b) ++ c = a ++ (b ++ c))%string.
Proof. induction a as [|x a IH]; simpl; [reflexivity | now rewrite IH]. Qed.

Lemma append_nil_r (a : string) : (a ++ "")%string = a.
Proof. induction a as [|x a IH]; simpl; [reflexivity | now rewrite IH]. Qed.

Lemma length_app (a b : string) :
  String.length (a ++ b) = (String.length a + String.length b)%nat.
Proof. induction a as [|x a IH]; simpl; [reflexivity | now rewrite IH]. Qed.

Lemma all_chars_app (p : ascii -> bool) (a b : string) :
  all_chars p (a ++ b) = all_chars p a && all_chars p b.
Proof.
  induction a as [|x a IH]; simpl; [reflexivity|].
  rewrite IH. apply andb_assoc.
Qed.

Lemma all_chars_impl (p q : ascii -> bool) (s : string) :
  (forall c, p c = true -> q c = true) -> all_chars p s = true -> all_chars q s = true.
Proof.
  intros Hpq. induction s as [|x s IH]; simpl; [reflexivity|].
  intros H. apply andb_true_iff in H. destruct H as [Hx Hs].
  apply andb_true_iff. split; auto.
Qed.

Lemma hex_value_from_app (z : Z) (a b : string) :
  hex_value_from z (a ++ b) = hex_value_from (hex_value_from z a) b.
Proof.
  revert z. induction a as [|x a IH]; intros z; simpl; [reflexivity | apply IH].
Qed.

(** ** [format(n, 'X')] *)

Lemma hex_digits_acc (fuel : nat) (n : N) (acc : string) :
  hex_digits fuel n acc = (hex_digits fuel n "" ++ acc)%string.
Proof.
  revert n acc. induction fuel as [|k IH]; intros n acc; simpl; [reflexivity|].
  destruct (n / 16 =? 0)%N; [reflexivity|].
  rewrite (IH _ (String _ acc)), (IH _ (String _ "")).
  now rewrite append_assoc.
Qed.

Lemma hex_digits_step (k : nat) (n : N) :
  hex_digits (S k) n "" =
  if (n / 16 =? 0)%N then String (hex_upper (n mod 16)) ""
  else (hex_digits k (n / 16) "" ++ String (hex_upper (n mod 16)) "")%string.
Proof.
  simpl. destruct (n / 16 =? 0)%N; [reflexivity | apply hex_digits_acc].
Qed.

Lemma hex_digits_upper (fuel : nat) (n : N) :
  all_chars is_upper_hex (hex_digits fuel n "") = true.
Proof.
  revert n. induction fuel as [|k IH]; intros n; [reflexivity|].
  rewrite hex_digits_step.
  assert (Hd : is_upper_hex (hex_upper (n mod 16)) = true)
    by (apply hex_upper_is_upper, N.mod_lt; discriminate).
  destruct (n / 16 =? 0)%N.
  - simpl. now rewrite Hd.
  - rewrite all_chars_app, IH. simpl. now rewrite Hd.
Qed.

Lemma hex_digits_nonempty (k : nat) (n : N) : hex_digits (S k) n "" <> "".
Proof.
  rewrite hex_digits_step. destruct (n / 16 =? 0)%N; [discriminate|].
  destruct (hex_digits k (n / 16) ""); discriminate.
Qed.

Lemma hex_digits_value (fuel : nat) (n : N) :
  (n < 16 ^ N.of_nat fuel)%N ->
  hex_value (hex_digits fuel n "") = Z.of_N n.
Proof.
  revert n. induction fuel as [|k IH]; intros n Hn.
  - simpl in Hn. assert (n = 0%N) by lia. subst. reflexivity.
  - rewrite hex_digits_step.
    assert (Hm : (n mod 16 < 16)%N) by (apply N.mod_lt; discriminate).
    pose proof (N.div_mod n 16 ltac:(discriminate)) as Hdm.
    destruct (N.eqb_spec (n / 16) 0) as [Hz|Hnz].
    + unfold hex_value. cbn [hex_value_from]. rewrite (digit_value_hex_upper _ Hm). lia.
    + unfold hex_value. rewrite hex_value_from_app. fold (hex_value (hex_digits k (n / 16) "")).
      rewrite IH.
      * cbn [hex_value_from]. rewrite (digit_value_hex_upper _ Hm). lia.
      * apply N.Div0.div_lt_upper_bound.
        replace (N.of_nat (S k)) with (N.succ (N.of_nat k)) in Hn by lia.
        now rewrite N.pow_succ_r' in Hn.
Qed.

Lemma hex_digits_leading (fuel : nat) (n : N) (r : string) :
  (n < 16 ^ N.of_nat fuel)%N -> n <> 0%N ->
  hex_digits fuel n "" <> String "0" r.
Proof.
  revert n r. induction fuel as [|k IH]; intros n r Hn Hnz.
  - simpl in Hn. lia.
  - rewrite hex_digits_step.
    pose proof (N.div_mod n 16 ltac:(discriminate)) as Hdm.
    assert (Hm : (n mod 16 < 16)%N) by (apply N.mod_lt; discriminate).
    destruct (N.eqb_spec (n / 16) 0) as [Hz|Hq].
    + intros H. injection H as Hc _.
      apply (f_equal N_of_ascii) in Hc. rewrite (hex_upper_code _ Hm) in Hc.
      change (N_of_ascii "0") with 48%N in Hc.
      destruct (N.ltb_spec (n mod 16) 10); lia.
    + assert (Hlt : (n / 16 < 16 ^ N.of_nat k)%N).
      { apply N.Div0.div_lt_upper_bound.
        replace (N.of_nat (S k)) with (N.succ (N.of_nat k)) in Hn by lia.
        now rewrite N.pow_succ_r' in Hn. }
      destruct (hex_digits k (n / 16) "") as [|c t] eqn:E.
      * destruct k; [simpl in Hlt; lia | now apply hex_digits_nonempty in E].
      * simpl. intros H. injection H as Hc Ht. subst c.
        exact (IH _ t Hlt Hq E).
Qed.

Lemma hex_digits_length (fuel : nat) (n : N) (m : nat) :
  (n < 16 ^ N.of_nat m)%N -> (1 <= m)%nat ->
  (String.length (hex_digits fuel n "") <= m)%nat.
Proof.
  revert n m. induction fuel as [|k IH]; intros n m Hn Hm; [simpl; lia|].
  rewrite hex_digits_step.
  destruct (N.eqb_spec (n / 16) 0) as [Hz|Hq]; [simpl; lia|].
  destruct m as [|m]; [lia|].
  assert (Hlt : (n / 16 < 16 ^ N.of_nat m)%N).
  { apply N.Div0.div_lt_upper_bound.
    replace (N.of_nat (S m)) with (N.succ (N.of_nat m)) in Hn by lia.
    now rewrite N.pow_succ_r' in Hn. }
  assert (H : (1 <= m)%nat).
  { destruct m; [|lia]. change (16 ^ N.of_nat 0)%N with 1%N in Hlt.
    apply N.lt_1_r in Hlt. contradiction. }
  specialize (IH _ m Hlt H).
  rewrite length_app. simpl. lia.
Qed.

Lemma fuel_enough (n : N) : (n < 16 ^ N.of_nat (S (N.to_nat (N.log2 n))))%N.
Proof.
  replace (N.of_nat (S (N.to_nat (N.log2 n)))) with (N.succ (N.log2 n)) by lia.
  destruct (N.eq_dec n 0) as [->|Hn]; [reflexivity|].
  apply N.lt_le_trans with (2 ^ N.succ (N.log2 n))%N.
  - apply N.log2_spec. lia.
  - apply N.pow_le_mono_l. lia.
Qed.

Lemma format_X_nonneg (v : Z) :
  0 <= v -> format_X v = hex_digits (S (N.to_nat (N.log2 (Z.to_N v)))) (Z.to_N v) "".
Proof.
  intros H. unfold format_X.
  destruct (Z.ltb_spec v 0); [lia|].
  replace (Z.abs_N v) with (Z.to_N v); [reflexivity|].
  destruct v; simpl; try reflexivity. lia.
Qed.

Lemma format_X_neg (v : Z) :
  v < 0 -> format_X v = String "-" (format_X (- v)).
Proof.
  intros H. rewrite (format_X_nonneg (- v)) by lia. unfold format_X.
  destruct (Z.ltb_spec v 0); [|lia].
  replace (Z.abs_N v) with (Z.to_N (- v)); [reflexivity|].
  destruct v; simpl; try reflexivity; lia.
Qed.

(** For a non-negative integer, [f"{v:X}"] is its shortest upper-case
    hexadecimal writing. *)
Lemma format_X_minimal (v : Z) : 0 <= v -> minimal_upper_hex (format_X v) v.
Proof.
  intros H. rewrite (format_X_nonneg v H).
  set (n := Z.to_N v). pose proof (fuel_enough n) as Hf.
  repeat split.
  - apply hex_digits_nonempty.
  - apply hex_digits_upper.
  - rewrite (hex_digits_value _ _ Hf). unfold n. lia.
  - intros r Hr. destruct (N.eq_dec n 0) as [Hz|Hnz].
    + rewrite Hz in Hr. simpl in Hr. now injection Hr.
    + exfalso. exact (hex_digits_leading _ _ r Hf Hnz Hr).
Qed.

Lemma format_X_length (v : Z) (m : nat) :
  0 <= v < 16 ^ Z.of_nat m -> (1 <= m)%nat -> (String.length (format_X v) <= m)%nat.
Proof.
  intros [H0 H1] Hm. rewrite (format_X_nonneg v H0).
  apply hex_digits_length; [|exact Hm].
  apply N2Z.inj_lt. rewrite Z2N.id by exact H0.
  rewrite N2Z.inj_pow. simpl Z.of_N. now rewrite nat_N_Z.
Qed.

(** ** [int(s, 16)] on hexadecimal numerals *)

Lemma hex_digit_cases (c : ascii) :
  is_hex_digit c = true ->
  exists d, digit_value c = Some d /\ 0 <= d < 16
            /\ is_underscore c = false /\ is_sign c = false /\ is_x c = false
            /\ Py_ISSPACE c = false /\ (N_of_ascii c < 128)%N.
Proof.
  unfold is_hex_digit, digit_value, is_underscore, is_sign, is_x, Py_ISSPACE.
  rewrite !ascii_eqb_code.
  change (N_of_ascii "_") with 95%N. change (N_of_ascii "+") with 43%N.
  change (N_of_ascii "-") with 45%N. change (N_of_ascii "x") with 120%N.
  change (N_of_ascii "X") with 88%N.
  set (n := N_of_ascii c). cbv zeta.
  destruct (Z.leb_spec 48 (Z.of_N n)); destruct (Z.leb_spec (Z.of_N n) 57); simpl;
    [ intros _; eexists; split; [reflexivity|];
      repeat split; try lia;
      repeat (apply orb_false_iff; split); try (apply N.eqb_neq; lia);
      try (apply andb_false_iff; right; apply N.leb_gt; lia) | .. ].
  all: destruct (Z.leb_spec 65 (Z.of_N n)); destruct (Z.leb_spec (Z.of_N n) 70); simpl;
    [ intros _; eexists; split; [reflexivity|];
      repeat split; try lia;
      repeat (apply orb_false_iff; split); try (apply N.eqb_neq; lia);
      try (apply andb_false_iff; right; apply N.leb_gt; lia) | .. ].
  all: destruct (Z.leb_spec 97 (Z.of_N n)); destruct (Z.leb_spec (Z.of_N n) 102); simpl;
    [ intros _; eexists; split; [reflexivity|];
      repeat split; try lia;
      repeat (apply orb_false_iff; split); try (apply N.eqb_neq; lia);
      try (apply andb_false_iff; right; apply N.leb_gt; lia) | .. ].
  all: discriminate.
Qed.

Lemma space_cases (c : ascii) :
  Py_ISSPACE c = true ->
  digit_value c = None /\ is_underscore c = false /\ is_sign c = false
  /\ is_x c = false /\ (N_of_ascii c < 128)%N.
Proof.
  unfold digit_value, is_underscore, is_sign, is_x, Py_ISSPACE.
  rewrite !ascii_eqb_code.
  change (N_of_ascii "_") with 95%N. change (N_of_ascii "+") with 43%N.
  change (N_of_ascii "-") with 45%N. change (N_of_ascii "x") with 120%N.
  change (N_of_ascii "X") with 88%N.
  set (n := N_of_ascii c). cbv zeta. intros H.
  assert (Hn : (n <= 32)%N).
  { apply orb_true_iff in H. destruct H as [H|H].
    - apply andb_true_iff in H. destruct H as [_ H]. apply N.leb_le in H. lia.
    - apply N.eqb_eq in H. lia. }
  replace (48 <=? Z.of_N n) with false by (symmetry; apply Z.leb_gt; lia).
  replace (65 <=? Z.of_N n) with false by (symmetry; apply Z.leb_gt; lia).
  replace (97 <=? Z.of_N n) with false by (symmetry; apply Z.leb_gt; lia).
  simpl. repeat split; try lia;
    repeat (apply orb_false_iff; split); apply N.eqb_neq; lia.
Qed.

Lemma lfbb_run (ds rest : string) (u : bool) (p : nat) (z : Z) :
  ds <> "" \/ u = false ->
  all_chars is_hex_digit ds = true ->
  long_from_binary_base (ds ++ rest) u p z =
  long_from_binary_base rest false (p + String.length ds) (hex_value_from z ds).
Proof.
  revert u p z. induction ds as [|c ds IH]; intros u p z Hne Hall.
  - destruct Hne as [Hne| ->]; [congruence|]. simpl. now rewrite Nat.add_0_r.
  - simpl in Hall. apply andb_true_iff in Hall. destruct Hall as [Hc Hds].
    destruct (hex_digit_cases c Hc) as (d & Hd & _ & Hu & _).
    unfold is_underscore in Hu.
    cbn [append long_from_binary_base hex_value_from String.length]. rewrite Hu, Hd.
    rewrite IH by auto. now rewrite Nat.add_succ_r.
Qed.

Lemma lfbb_stop (rest : string) (p : nat) (z : Z) :
  all_chars Py_ISSPACE rest = true ->
  long_from_binary_base rest false p z = Some (z, p, rest).
Proof.
  destruct rest as [|c r]; [reflexivity|]. simpl. intros H.
  apply andb_true_iff in H. destruct H as [Hc _].
  destruct (space_cases c Hc) as (Hd & Hu & _). unfold is_underscore in Hu.
  now rewrite Hu, Hd.
Qed.

Lemma lfbb_groups (g : string) (gs : list string) (rest : string)
      (u : bool) (p : nat) (z : Z) :
  hex_numeral g -> Forall hex_numeral gs -> all_chars Py_ISSPACE rest = true ->
  exists p', long_from_binary_base (underscored g gs ++ rest) u p z
             = Some (hex_value_from z (plain g gs), p', rest)
             /\ p' <> O.
Proof.
  intros Hg Hgs Hrest. revert g u p z Hg.
  induction Hgs as [|h gs' Hh Hgs' IH]; intros g u p z [Hne Hall].
  - simpl. rewrite lfbb_run by auto. rewrite lfbb_stop by exact Hrest.
    eexists. split; [reflexivity|]. destruct g; [congruence | simpl; lia].
  - cbn [underscored plain]. rewrite append_assoc, lfbb_run by auto.
    cbn [append long_from_binary_base]. change (Ascii.eqb "_" "_") with true. cbv iota.
    destruct (IH h true (S (p + String.length g)) (hex_value_from z g) Hh)
      as (p' & Hp' & Hnz).
    exists p'. split; [|exact Hnz]. rewrite Hp'. now rewrite hex_value_from_app.
Qed.

Lemma skip_spaces_app (ws t : string) :
  all_chars Py_ISSPACE ws = true -> skip_spaces (ws ++ t) = skip_spaces t.
Proof.
  induction ws as [|c ws IH]; simpl; [reflexivity|]. intros H.
  apply andb_true_iff in H. destruct H as [Hc Hws]. now rewrite Hc, IH.
Qed.

Lemma skip_spaces_all (ws : string) :
  all_chars Py_ISSPACE ws = true -> skip_spaces ws = "".
Proof.
  intros H. rewrite <- (append_nil_r ws). now rewrite skip_spaces_app.
Qed.

Lemma skip_spaces_head (c : ascii) (t : string) :
  Py_ISSPACE c = false -> skip_spaces (String c t) = String c t.
Proof. intros H. simpl. now rewrite H. Qed.

Lemma underscored_chars (g : string) (gs : list string) :
  hex_numeral g -> Forall hex_numeral gs ->
  all_chars (fun c => is_hex_digit c || is_underscore c) (underscored g gs) = true.
Proof.
  intros Hg Hgs. revert g Hg.
  induction Hgs as [|h gs' Hh Hgs' IH]; intros g [_ Hall]; cbn [underscored].
  - eapply all_chars_impl; [|exact Hall]. intros c Hc. now rewrite Hc.
  - rewrite all_chars_app. apply andb_true_iff. split.
    + eapply all_chars_impl; [|exact Hall]. intros c Hc. now rewrite Hc.
    + cbn [all_chars]. rewrite (IH h Hh). reflexivity.
Qed.

Lemma underscored_head (g : string) (gs : list string) :
  hex_numeral g ->
  exists c t, underscored g gs = String c t /\ is_hex_digit c = true.
Proof.
  intros [Hne Hall]. destruct g as [|c g']; [congruence|].
  simpl in Hall. apply andb_true_iff in Hall. destruct Hall as [Hc _].
  destruct gs as [|h gs']; cbn [underscored append]; eauto.
Qed.

Lemma take_prefix_no_x (str : string) :
  all_chars (fun c => negb (is_x c)) str = true -> take_prefix str = str.
Proof.
  destruct str as [|c0 [|c1 r]]; try reflexivity.
  cbn [all_chars take_prefix]. intros H.
  apply andb_true_iff in H. destruct H as [_ H].
  apply andb_true_iff in H. destruct H as [H _].
  unfold is_x in H. apply negb_true_iff in H. rewrite H.
  now rewrite andb_false_r.
Qed.

Lemma take_sign_plus (t : string) : take_sign (String "+" t) = (1, t).
Proof. reflexivity. Qed.

Lemma take_sign_minus (t : string) : take_sign (String "-" t) = (-1, t).
Proof. reflexivity. Qed.

Lemma take_sign_zero (t : string) : take_sign (String "0" t) = (1, String "0" t).
Proof. reflexivity. Qed.

Section Numerals.
Variables (g : string) (gs : list string) (ws2 : string).
Hypothesis Hg : hex_numeral g.
Hypothesis Hgs : Forall hex_numeral gs.
Hypothesis Hws2 : all_chars Py_ISSPACE ws2 = true.

Let body : string := (underscored g gs ++ ws2)%string.

Lemma body_head : exists c t, body = String c t /\ is_hex_digit c = true.
Proof.
  destruct (underscored_head g gs Hg) as (c & t & E & Hc).
  exists c, (t ++ ws2)%string. unfold body. rewrite E. auto.
Qed.

Lemma body_no_x : all_chars (fun c => negb (is_x c)) body = true.
Proof.
  unfold body. rewrite all_chars_app. apply andb_true_iff. split.
  - eapply all_chars_impl; [|exact (underscored_chars g gs Hg Hgs)].
    intros c Hc. apply orb_true_iff in Hc. destruct Hc as [Hc|Hc].
    + destruct (hex_digit_cases c Hc) as (d & _ & _ & _ & _ & Hx & _). now rewrite Hx.
    + unfold is_underscore in Hc. apply Ascii.eqb_eq in Hc. now subst c.
  - eapply all_chars_impl; [|exact Hws2].
    intros c Hc. destruct (space_cases c Hc) as (_ & _ & _ & Hx & _). now rewrite Hx.
Qed.

Lemma digits_to_end_body (sign : Z) :
  digits_to_end sign body = Some (sign * hex_value (plain g gs)).
Proof.
  destruct body_head as (c & t & E & Hc).
  destruct (hex_digit_cases c Hc) as (d & _ & _ & Hu & _). unfold is_underscore in Hu.
  unfold digits_to_end. rewrite E, Hu, <- E. unfold body.
  destruct (lfbb_groups g gs ws2 false 0 0 Hg Hgs Hws2) as (p' & Hp' & Hnz).
  rewrite Hp'. apply Nat.eqb_neq in Hnz. rewrite Hnz.
  now rewrite (skip_spaces_all ws2 Hws2).
Qed.

Lemma take_prefix_body : take_prefix body = body.
Proof. apply take_prefix_no_x, body_no_x. Qed.

Lemma take_prefix_0x (x : ascii) :
  is_x x = true -> take_prefix (String "0" (String x body)) = body.
Proof.
  intros Hx. destruct body_head as (c & t & E & Hc).
  destruct (hex_digit_cases c Hc) as (d & _ & _ & Hu & _). unfold is_underscore in Hu.
  unfold is_x in Hx. cbn [take_prefix]. change (Ascii.eqb "0" "0") with true.
  rewrite Hx. cbn [andb]. rewrite E. now rewrite Hu.
Qed.

Lemma take_prefix_0x_us (x : ascii) :
  is_x x = true -> take_prefix (String "0" (String x (String "_" body))) = body.
Proof.
  intros Hx. unfold is_x in Hx. cbn [take_prefix]. change (Ascii.eqb "0" "0") with true.
  rewrite Hx. reflexivity.
Qed.

Lemma take_sign_body : take_sign body = (1, body).
Proof.
  destruct body_head as (c & t & E & Hc).
  destruct (hex_digit_cases c Hc) as (d & _ & _ & _ & Hs & _).
  unfold is_sign in Hs. apply orb_false_iff in Hs. destruct Hs as [Hp Hm].
  rewrite E. unfold take_sign. now rewrite Hp, Hm.
Qed.

Lemma skip_spaces_body : skip_spaces body = body.
Proof.
  destruct body_head as (c & t & E & Hc).
  destruct (hex_digit_cases c Hc) as (d & _ & _ & _ & _ & _ & Hsp & _).
  rewrite E. now apply skip_spaces_head.
Qed.

(** [PyLong_FromString] takes white space, a sign, the prefix, and groups
    of digits with single underscores between them. *)
Lemma PyLong_FromString_numeral (ws1 sgn pre : string) :
  all_chars Py_ISSPACE ws1 = true ->
  In sgn [""; "+"; "-"] -> In pre [""; "0x"; "0X"; "0x_"; "0X_"] ->
  PyLong_FromString (ws1 ++ sgn ++ pre ++ body)
  = Some (sign_value sgn * hex_value (plain g gs)).
Proof.
  intros Hws1 Hsgn Hpre. unfold PyLong_FromString.
  rewrite (skip_spaces_app ws1 _ Hws1).
  pose proof skip_spaces_body as Hsk. pose proof take_sign_body as Hts.
  pose proof take_prefix_body as Htp.
  pose proof (take_prefix_0x "x" eq_refl) as Hx.
  pose proof (take_prefix_0x "X" eq_refl) as HX.
  pose proof (take_prefix_0x_us "x" eq_refl) as Hxu.
  pose proof (take_prefix_0x_us "X" eq_refl) as HXu.
  simpl in Hsgn, Hpre.
  destruct Hsgn as [<-|[<-|[<-|[]]]]; destruct Hpre as [<-|[<-|[<-|[<-|[<-|[]]]]]];
    cbn [append];
    first [ rewrite Hsk | rewrite skip_spaces_head by reflexivity ];
    first [ rewrite Hts | rewrite take_sign_plus | rewrite take_sign_minus
          | rewrite take_sign_zero ];
    first [ rewrite Hxu | rewrite HXu | rewrite Hx | rewrite HX | rewrite Htp ];
    apply digits_to_end_body.
Qed.

End Numerals.

(** ** What [int(s, 16)] takes, and nothing else *)

Lemma underscored_cons (c : ascii) (g : string) (gs : list string) :
  underscored (String c g) gs = String c (underscored g gs).
Proof. destruct gs; reflexivity. Qed.

Lemma plain_cons (c : ascii) (g : string) (gs : list string) :
  plain (String c g) gs = String c (plain g gs).
Proof. destruct gs; reflexivity. Qed.

Lemma hex_numeral_cons (c : ascii) (g : string) :
  is_hex_digit c = true -> hex_numeral g -> hex_numeral (String c g).
Proof.
  intros Hc [_ Hg]. split; [discriminate|]. simpl. now rewrite Hc, Hg.
Qed.

Lemma hex_numeral_single (c : ascii) : is_hex_digit c = true -> hex_numeral (String c "").
Proof. intros Hc. split; [discriminate|]. simpl. now rewrite Hc. Qed.

(** The scan, read backwards: either it did not move, or it went over
    groups of digits, after one underscore when the text starts with one. *)
Lemma lfbb_inv (s : string) :
  forall (u : bool) (p : nat) (z z' : Z) (p' : nat) (rest : string),
  long_from_binary_base s u p z = Some (z', p', rest) ->
  (u = false /\ s = rest /\ z' = z /\ p' = p)
  \/ (exists lead g gs,
        (lead = "" \/ (lead = "_" /\ u = false))
        /\ hex_numeral g /\ Forall hex_numeral gs
        /\ s = (lead ++ underscored g gs ++ rest)%string
        /\ z' = hex_value_from z (plain g gs)
        /\ (p < p')%nat).
Proof.
  induction s as [|c s IH]; intros u p z z' p' rest H.
  - simpl in H. destruct u; [discriminate|]. injection H as <- <- <-. left. auto.
  - cbn [long_from_binary_base] in H.
    destruct (Ascii.eqb c "_") eqn:Ec.
    + destruct u; [discriminate|]. apply Ascii.eqb_eq in Ec. subst c.
      apply IH in H. destruct H as [(Hu & _)|(lead & g & gs & Hl & Hg & Hgs & Es & Ez & Hp)];
        [discriminate|].
      destruct Hl as [->|[_ Hu]]; [|discriminate].
      right. exists "_", g, gs.
      refine (conj _ (conj Hg (conj Hgs (conj _ (conj Ez _))))); [auto| |lia].
      simpl in Es. now rewrite Es.
    + destruct (digit_value c) as [d|] eqn:Ed.
      * assert (Hc : is_hex_digit c = true) by (unfold is_hex_digit; now rewrite Ed).
        apply IH in H.
        destruct H as [(_ & Es & Ez & Hp)|(lead & g & gs & Hl & Hg & Hgs & Es & Ez & Hp)].
        -- right. exists "", (String c ""), []. subst.
           refine (conj _ (conj (hex_numeral_single c Hc) (conj (Forall_nil _)
                    (conj eq_refl (conj _ _))))); [auto| |lia].
           simpl. now rewrite Ed.
        -- right. destruct Hl as [->|[-> _]].
           ++ exists "", (String c g), gs.
              refine (conj _ (conj (hex_numeral_cons c g Hc Hg) (conj Hgs
                       (conj _ (conj _ _))))); [auto| | |lia].
              ** rewrite underscored_cons. simpl in *. now rewrite Es.
              ** rewrite plain_cons. simpl. now rewrite Ed.
           ++ exists "", (String c ""), (g :: gs).
              refine (conj _ (conj (hex_numeral_single c Hc) (conj (Forall_cons _ Hg Hgs)
                       (conj _ (conj _ _))))); [auto| | |lia].
              ** simpl in *. now rewrite Es.
              ** simpl. now rewrite Ed.
      * destruct u; [discriminate|]. injection H as <- <- <-. left. auto.
Qed.

Lemma skip_spaces_split (s : string) :
  exists ws, s = (ws ++ skip_spaces s)%string /\ all_chars Py_ISSPACE ws = true.
Proof.
  induction s as [|c s (ws & E & Hws)]; [exists ""; auto|].
  simpl. destruct (Py_ISSPACE c) eqn:Ec.
  - exists (String c ws). simpl. rewrite <- E, Ec, Hws. auto.
  - exists "". auto.
Qed.

Lemma skip_spaces_nil (s : string) :
  skip_spaces s = "" -> all_chars Py_ISSPACE s = true.
Proof.
  intros H. destruct (skip_spaces_split s) as (ws & E & Hws).
  rewrite H, append_nil_r in E. now subst.
Qed.

Ltac pick := simpl; repeat first [left; reflexivity | right].

Lemma take_sign_inv (s t : string) (sign : Z) :
  take_sign s = (sign, t) ->
  exists sgn, In sgn [""; "+"; "-"] /\ s = (sgn ++ t)%string /\ sign = sign_value sgn.
Proof.
  unfold take_sign. destruct s as [|c r].
  - intros H. injection H as <- <-. exists "". split; [pick | auto].
  - destruct (Ascii.eqb c "+") eqn:Ep.
    + apply Ascii.eqb_eq in Ep. subst c. intros H. injection H as <- <-.
      exists "+". split; [pick | auto].
    + destruct (Ascii.eqb c "-") eqn:Em.
      * apply Ascii.eqb_eq in Em. subst c. intros H. injection H as <- <-.
        exists "-". split; [pick | auto].
      * intros H. injection H as <- <-. exists "". split; [pick | auto].
Qed.

Lemma take_prefix_inv (s : string) :
  exists pre, In pre [""; "0x"; "0X"; "0x_"; "0X_"] /\ s = (pre ++ take_prefix s)%string.
Proof.
  destruct s as [|c0 [|c1 r]]; try (exists ""; split; [pick | reflexivity]).
  cbn [take_prefix].
  destruct (Ascii.eqb c0 "0") eqn:E0; [|exists ""; split; [pick | reflexivity]].
  apply Ascii.eqb_eq in E0. subst c0.
  destruct (Ascii.eqb c1 "x") eqn:Ex.
  - apply Ascii.eqb_eq in Ex. subst c1. cbn [andb orb].
    destruct r as [|c2 r']; [exists "0x"; split; [pick | reflexivity]|].
    destruct (Ascii.eqb c2 "_") eqn:Eu.
    + apply Ascii.eqb_eq in Eu. subst c2. exists "0x_". split; [pick | reflexivity].
    + exists "0x". split; [pick | reflexivity].
  - destruct (Ascii.eqb c1 "X") eqn:EX; [|exists ""; split; [pick | reflexivity]].
    apply Ascii.eqb_eq in EX. subst c1. cbn [andb orb].
    destruct r as [|c2 r']; [exists "0X"; split; [pick | reflexivity]|].
    destruct (Ascii.eqb c2 "_") eqn:Eu.
    + apply Ascii.eqb_eq in Eu. subst c2. exists "0X_". split; [pick | reflexivity].
    + exists "0X". split; [pick | reflexivity].
Qed.

Lemma digits_to_end_inv (sign : Z) (s : string) (v : Z) :
  digits_to_end sign s = Some v ->
  exists g gs ws,
    hex_numeral g /\ Forall hex_numeral gs /\ all_chars Py_ISSPACE ws = true
    /\ s = (underscored g gs ++ ws)%string
    /\ v = sign * hex_value (plain g gs).
Proof.
  unfold digits_to_end. destruct s as [|c s']; [discriminate|].
  destruct (Ascii.eqb c "_") eqn:Ec; [discriminate|].
  destruct (long_from_binary_base (String c s') false 0 0) as [[[z p] rest]|] eqn:E;
    [|discriminate].
  destruct (Nat.eqb_spec p 0) as [|Hp]; [discriminate|].
  destruct (skip_spaces rest) eqn:Er; [|discriminate].
  intros H. injection H as <-.
  apply skip_spaces_nil in Er.
  apply lfbb_inv in E.
  destruct E as [(_ & _ & _ & Hp0)|(lead & g & gs & Hl & Hg & Hgs & Es & Ez & _)];
    [congruence|].
  destruct Hl as [->|[-> _]].
  - exists g, gs, rest. simpl in Es. subst z. auto.
  - simpl in Es. injection Es as Hc _. subst c. discriminate.
Qed.

(** [PyLong_FromString] succeeds on the hexadecimal literals, and on
    nothing else. *)
Lemma PyLong_FromString_iff (s : string) (v : Z) :
  PyLong_FromString s = Some v <-> hex_literal Py_ISSPACE s v.
Proof.
  split.
  - unfold PyLong_FromString. intros H.
    destruct (skip_spaces_split s) as (ws1 & Es & Hws1).
    destruct (take_sign (skip_spaces s)) as [sign t] eqn:Et.
    apply take_sign_inv in Et. destruct Et as (sgn & Hsgn & Et & Esign).
    destruct (take_prefix_inv t) as (pre & Hpre & Ep).
    apply digits_to_end_inv in H.
    destruct H as (g & gs & ws2 & Hg & Hgs & Hws2 & Eb & Ev).
    exists ws1, (sgn ++ pre ++ underscored g gs)%string, ws2.
    refine (conj _ (conj Hws1 (conj Hws2 _))).
    + rewrite Es at 1. rewrite Et, Ep at 1. rewrite Eb. now rewrite !append_assoc.
    + exists sgn, pre, g, gs. subst. auto 10.
  - intros (ws1 & core & ws2 & -> & Hws1 & Hws2
            & sgn & pre & g & gs & -> & Hsgn & Hpre & Hg & Hgs & ->).
    rewrite !append_assoc. now apply PyLong_FromString_numeral.
Qed.

(** ** From [PyLong_FromString] to [int(s, 16)] *)

Lemma core_char_cases (c : ascii) :
  core_char c = true ->
  (N_of_ascii c <? 127)%N = true /\ Py_ISSPACE c = false /\ int_space c = false
  /\ strip_space c = false /\ Ascii.eqb c "?" = false.
Proof.
  destruct c as [[] [] [] [] [] [] [] []]; vm_compute; intros H;
    first [discriminate H | repeat split].
Qed.

Lemma space_char_cases (c : ascii) :
  Py_ISSPACE c = true ->
  (N_of_ascii c <? 127)%N = true /\ int_space c = true /\ Ascii.eqb c "?" = false.
Proof.
  destruct c as [[] [] [] [] [] [] [] []]; vm_compute; intros H;
    first [discriminate H | repeat split].
Qed.

Lemma int_space_cases (c : ascii) :
  int_space c = true ->
  strip_space c = true
  /\ (if (N_of_ascii c <? 127)%N then Py_ISSPACE c else Py_UNICODE_ISSPACE (N_of_ascii c))
     = true.
Proof.
  destruct c as [[] [] [] [] [] [] [] []]; vm_compute; intros H;
    first [discriminate H | repeat split].
Qed.

Lemma high_space_cases (c : ascii) :
  (N_of_ascii c <? 127)%N = false -> Py_UNICODE_ISSPACE (N_of_ascii c) = true ->
  int_space c = true.
Proof.
  destruct c as [[] [] [] [] [] [] [] []]; vm_compute; intros H1 H2;
    first [discriminate H1 | discriminate H2 | reflexivity].
Qed.

Lemma below_127_ascii (c : ascii) :
  (N_of_ascii c <? 127)%N = true -> (N_of_ascii c <? 128)%N = true.
Proof. intros H. apply N.ltb_lt in H. apply N.ltb_lt. lia. Qed.

Lemma hex_core_chars (s : string) (v : Z) :
  hex_core s v -> s <> "" /\ all_chars core_char s = true.
Proof.
  intros (sgn & pre & g & gs & -> & Hsgn & Hpre & Hg & Hgs & _).
  split.
  - destruct (underscored_head g gs Hg) as (c & t & E & _). rewrite E.
    destruct sgn; [destruct pre|]; discriminate.
  - rewrite !all_chars_app.
    assert (Hu : all_chars core_char (underscored g gs) = true).
    { eapply all_chars_impl; [|exact (underscored_chars g gs Hg Hgs)].
      intros c Hc. unfold core_char. apply orb_true_iff in Hc.
      destruct Hc as [-> | ->]; [reflexivity | now rewrite orb_true_r]. }
    rewrite Hu. simpl in Hsgn, Hpre.
    destruct Hsgn as [<-|[<-|[<-|[]]]]; destruct Hpre as [<-|[<-|[<-|[<-|[<-|[]]]]]];
      reflexivity.
Qed.

Lemma hex_literal_mono (sp sp' : ascii -> bool) (s : string) (v : Z) :
  (forall c, sp c = true -> sp' c = true) ->
  hex_literal sp s v -> hex_literal sp' s v.
Proof.
  intros Hsp (ws1 & core & ws2 & E & H1 & H2 & Hc).
  exists ws1, core, ws2. repeat split; auto; eapply all_chars_impl; eauto.
Qed.

Lemma transform_loop_id (s : string) :
  all_chars (fun c => (N_of_ascii c <? 127)%N) s = true -> transform_loop s = s.
Proof.
  induction s as [|c s IH]; simpl; [reflexivity|]. intros H.
  apply andb_true_iff in H. destruct H as [Hc Hs]. now rewrite Hc, IH.
Qed.

Lemma transform_loop_app (a b : string) :
  all_chars (fun c => (N_of_ascii c <? 127)%N || Py_UNICODE_ISSPACE (N_of_ascii c)) a = true ->
  transform_loop (a ++ b) = (transform_loop a ++ transform_loop b)%string.
Proof.
  induction a as [|c a IH]; simpl; [reflexivity|]. intros H.
  apply andb_true_iff in H. destruct H as [Hc Ha]. rewrite (IH Ha).
  destruct (N_of_ascii c <? 127)%N; [reflexivity|].
  simpl in Hc. now rewrite Hc.
Qed.

Lemma transform_loop_spaces (ws : string) :
  all_chars int_space ws = true ->
  all_chars Py_ISSPACE (transform_loop ws) = true
  /\ all_chars (fun c => (N_of_ascii c <? 127)%N || Py_UNICODE_ISSPACE (N_of_ascii c)) ws
     = true.
Proof.
  induction ws as [|c ws IH]; simpl; [auto|]. intros H.
  apply andb_true_iff in H. destruct H as [Hc Hws].
  destruct (IH Hws) as [IH1 IH2]. rewrite IH2.
  destruct (int_space_cases c Hc) as [_ Hk].
  destruct (N_of_ascii c <? 127)%N.
  - simpl. now rewrite Hk, IH1.
  - rewrite Hk. simpl. now rewrite IH1.
Qed.

(** A text without the character 127 goes through the loop unchanged
    when it is ASCII: the shortcut of the transformation is then the loop. *)
Lemma transform_is_loop (s : string) :
  all_chars (fun c => negb (N_of_ascii c =? 127)%N) s = true ->
  transform_decimal_and_space s = transform_loop s.
Proof.
  intros H. unfold transform_decimal_and_space.
  destruct (is_ascii_text s) eqn:E; [|reflexivity].
  symmetry. apply transform_loop_id.
  induction s as [|c s IH]; [reflexivity|]. simpl in *.
  apply andb_true_iff in H. destruct H as [Hc Hs].
  apply andb_true_iff in E. destruct E as [Ec Es].
  rewrite (IH Hs Es), andb_true_r.
  apply negb_true_iff, N.eqb_neq in Hc. apply N.ltb_lt in Ec. apply N.ltb_lt. lia.
Qed.

Lemma int16_literal (s : string) (v : Z) :
  hex_literal int_space s v -> int16 s = Some v.
Proof.
  intros (ws1 & core & ws2 & -> & H1 & H2 & Hc).
  destruct (hex_core_chars core v Hc) as [_ Hcore].
  destruct (transform_loop_spaces ws1 H1) as [T1 K1].
  destruct (transform_loop_spaces ws2 H2) as [T2 K2].
  assert (Kc : all_chars (fun c => (N_of_ascii c <? 127)%N) core = true).
  { eapply all_chars_impl; [|exact Hcore]. intros c Hk. now apply core_char_cases. }
  unfold int16. rewrite transform_is_loop.
  - rewrite transform_loop_app by exact K1. rewrite transform_loop_app.
    + rewrite (transform_loop_id core Kc). apply PyLong_FromString_iff.
      exists (transform_loop ws1), core, (transform_loop ws2). auto.
    + eapply all_chars_impl; [|exact Kc]. intros c Hk. now rewrite Hk.
  - rewrite !all_chars_app. apply andb_true_iff. split; [|apply andb_true_iff; split].
    + eapply all_chars_impl; [|exact H1]. intros c Hk.
      destruct c as [[] [] [] [] [] [] [] []]; vm_compute in Hk |- *;
        first [discriminate Hk | reflexivity].
    + eapply all_chars_impl; [|exact Kc]. intros c Hk.
      apply N.ltb_lt in Hk. apply negb_true_iff, N.eqb_neq. lia.
    + eapply all_chars_impl; [|exact H2]. intros c Hk.
      destruct c as [[] [] [] [] [] [] [] []]; vm_compute in Hk |- *;
        first [discriminate Hk | reflexivity].
Qed.

Lemma transform_loop_split (a b : string) :
  forall s,
  transform_loop s = (a ++ b)%string ->
  all_chars (fun c => negb (Ascii.eqb c "?")) a = true ->
  exists s1 s2, s = (s1 ++ s2)%string /\ transform_loop s1 = a /\ transform_loop s2 = b.
Proof.
  induction a as [|x a IH]; intros s E Ha.
  - exists "", s. auto.
  - simpl in Ha. apply andb_true_iff in Ha. destruct Ha as [Hx Ha].
    destruct s as [|c s']; [discriminate|]. simpl in E.
    destruct (N_of_ascii c <? 127)%N eqn:E1.
    + injection E as <- E. destruct (IH s' E Ha) as (s1 & s2 & -> & T1 & T2).
      exists (String c s1), s2. simpl. now rewrite E1, T1.
    + destruct (Py_UNICODE_ISSPACE (N_of_ascii c)) eqn:E2.
      * injection E as <- E. destruct (IH s' E Ha) as (s1 & s2 & -> & T1 & T2).
        exists (String c s1), s2. simpl. now rewrite E1, E2, T1.
      * injection E as <- _. discriminate.
Qed.

Lemma transform_loop_spaces_inv (s ws : string) :
  transform_loop s = ws -> all_chars Py_ISSPACE ws = true -> all_chars int_space s = true.
Proof.
  revert ws. induction s as [|c s IH]; intros ws E H; [reflexivity|].
  simpl in E. simpl.
  destruct (N_of_ascii c <? 127)%N eqn:E1.
  - subst ws. simpl in H. apply andb_true_iff in H. destruct H as [Hc H].
    destruct (space_char_cases c Hc) as (_ & Hi & _). rewrite Hi. now apply (IH _ eq_refl).
  - destruct (Py_UNICODE_ISSPACE (N_of_ascii c)) eqn:E2.
    + subst ws. simpl in H. rewrite (high_space_cases c E1 E2). now apply (IH _ eq_refl).
    + subst ws. discriminate.
Qed.

Lemma transform_loop_core_inv (s core : string) :
  transform_loop s = core -> all_chars core_char core = true -> s = core.
Proof.
  revert core. induction s as [|c s IH]; intros core E H; [now subst|].
  simpl in E.
  destruct (N_of_ascii c <? 127)%N eqn:E1.
  - subst core. simpl in H. apply andb_true_iff in H. destruct H as [_ H].
    f_equal. now apply IH.
  - destruct (Py_UNICODE_ISSPACE (N_of_ascii c)) eqn:E2; subst core; discriminate.
Qed.

Lemma is_ascii_text_below (s : string) :
  is_ascii_text s = all_chars (fun c => (N_of_ascii c <? 128)%N) s.
Proof. induction s as [|c s IH]; simpl; [reflexivity | now rewrite IH]. Qed.

(** [int(s, 16)] succeeds on the hexadecimal literals, between the white
    space [int] takes, and on nothing else. *)
Lemma int16_iff (s : string) (v : Z) :
  int16 s = Some v <-> hex_literal int_space s v.
Proof.
  split; [|apply int16_literal].
  unfold int16, transform_decimal_and_space.
  destruct (is_ascii_text s).
  - intros H. apply PyLong_FromString_iff in H.
    eapply hex_literal_mono; [|exact H]. intros c Hc. now apply space_char_cases.
  - intros H. apply PyLong_FromString_iff in H.
    destruct H as (ws1 & core & ws2 & E & H1 & H2 & Hc).
    destruct (hex_core_chars core v Hc) as [_ Hcore].
    destruct (transform_loop_split ws1 _ s E) as (s1 & s' & -> & T1 & E').
    { eapply all_chars_impl; [|exact H1]. intros c Hk.
      destruct (space_char_cases c Hk) as (_ & _ & Hq). now rewrite Hq. }
    destruct (transform_loop_split core _ s' E') as (s2 & s3 & -> & T2 & T3).
    { eapply all_chars_impl; [|exact Hcore]. intros c Hk.
      destruct (core_char_cases c Hk) as (_ & _ & _ & _ & Hq). now rewrite Hq. }
    apply transform_loop_spaces_inv in T1; [|exact H1].
    apply transform_loop_spaces_inv in T3; [|exact H2].
    apply transform_loop_core_inv in T2; [|exact Hcore]. subst s2.
    exists s1, core, s3. auto.
Qed.

(** ** [str.strip()] *)

Section StripList.
Context {A : Type} (sp : A -> bool).

Lemma lstrip_split (l : list A) :
  exists a, l = (a ++ lstrip sp l)%list /\ forallb sp a = true.
Proof.
  induction l as [|x l (a & E & Ha)]; [exists []; auto|].
  simpl. destruct (sp x) eqn:Ex.
  - exists (x :: a). simpl. rewrite <- E, Ex, Ha. auto.
  - exists []. auto.
Qed.

Lemma lstrip_app (a l : list A) :
  forallb sp a = true -> lstrip sp (a ++ l)%list = lstrip sp l.
Proof.
  induction a as [|x a IH]; simpl; [reflexivity|]. intros H.
  apply andb_true_iff in H. destruct H as [Hx Ha]. now rewrite Hx, IH.
Qed.

Lemma lstrip_keeps (l r : list A) :
  l <> [] -> forallb (fun c => negb (sp c)) l = true ->
  lstrip sp (l ++ r)%list = (l ++ r)%list.
Proof.
  destruct l as [|x l]; [congruence|]. simpl. intros _ H.
  apply andb_true_iff in H. destruct H as [Hx _].
  apply negb_true_iff in Hx. now rewrite Hx.
Qed.

Lemma forallb_rev (p : A -> bool) (l : list A) :
  forallb p (rev l) = forallb p l.
Proof.
  induction l as [|x l IH]; [reflexivity|].
  simpl. rewrite forallb_app, IH. simpl. rewrite andb_true_r. apply andb_comm.
Qed.

Lemma rstrip_split (l : list A) :
  exists b, l = (rstrip sp l ++ b)%list /\ forallb sp b = true.
Proof.
  unfold rstrip. destruct (lstrip_split (rev l)) as (a & E & Ha).
  exists (rev a). split; [|now rewrite forallb_rev].
  rewrite <- rev_app_distr, <- E. now rewrite rev_involutive.
Qed.

Lemma strip_list_split (l : list A) :
  exists a b, l = (a ++ strip_list sp l ++ b)%list
              /\ forallb sp a = true /\ forallb sp b = true.
Proof.
  unfold strip_list. destruct (lstrip_split l) as (a & Ea & Ha).
  destruct (rstrip_split (lstrip sp l)) as (b & Eb & Hb).
  exists a, b. split; [|auto]. now rewrite <- Eb.
Qed.

Lemma strip_list_core (a m b : list A) :
  forallb sp a = true -> forallb sp b = true ->
  m <> [] -> forallb (fun c => negb (sp c)) m = true ->
  strip_list sp (a ++ m ++ b)%list = m.
Proof.
  intros Ha Hb Hne Hm. unfold strip_list, rstrip.
  rewrite (lstrip_app a _ Ha), (lstrip_keeps m b Hne Hm).
  rewrite rev_app_distr, lstrip_app by (now rewrite forallb_rev).
  rewrite <- (app_nil_r (rev m)), lstrip_keeps.
  - rewrite app_nil_r. apply rev_involutive.
  - intros E. apply (f_equal (@rev A)) in E. rewrite rev_involutive in E. auto.
  - now rewrite forallb_rev.
Qed.

End StripList.

Lemma list_of_append (a b : string) :
  list_ascii_of_string (a ++ b) = (list_ascii_of_string a ++ list_ascii_of_string b)%list.
Proof. induction a as [|c a IH]; simpl; [reflexivity | now rewrite IH]. Qed.

Lemma string_of_app (a b : list ascii) :
  string_of_list_ascii (a ++ b)%list
  = (string_of_list_ascii a ++ string_of_list_ascii b)%string.
Proof. induction a as [|c a IH]; simpl; [reflexivity | now rewrite IH]. Qed.

Lemma all_chars_forallb (p : ascii -> bool) (s : string) :
  all_chars p s = forallb p (list_ascii_of_string s).
Proof. induction s as [|c s IH]; simpl; [reflexivity | now rewrite IH]. Qed.

Lemma forallb_all_chars (p : ascii -> bool) (l : list ascii) :
  forallb p l = all_chars p (string_of_list_ascii l).
Proof. induction l as [|c l IH]; simpl; [reflexivity | now rewrite IH]. Qed.

(** A text is what [strip] keeps of it, between white space. *)
Lemma strip_split (text : string) :
  exists ws1 ws2,
    text = (ws1 ++ strip text ++ ws2)%string
    /\ all_chars strip_space ws1 = true /\ all_chars strip_space ws2 = true.
Proof.
  unfold strip.
  destruct (strip_list_split strip_space (list_ascii_of_string text)) as (a & b & E & Ha & Hb).
  exists (string_of_list_ascii a), (string_of_list_ascii b).
  rewrite <- !forallb_all_chars. split; [|auto].
  rewrite <- !string_of_app. change (fun c => Py_UNICODE_ISSPACE (N_of_ascii c)) with strip_space.
  rewrite <- E. symmetry. apply string_of_list_ascii_of_string.
Qed.

(** [strip] removes the white space around a text that has none at its
    ends. *)
Lemma strip_core (ws1 core ws2 : string) :
  all_chars strip_space ws1 = true -> all_chars strip_space ws2 = true ->
  core <> "" -> all_chars (fun c => negb (strip_space c)) core = true ->
  strip (ws1 ++ core ++ ws2) = core.
Proof.
  intros H1 H2 Hne Hc. unfold strip. rewrite !list_of_append.
  change (fun c => Py_UNICODE_ISSPACE (N_of_ascii c)) with strip_space.
  rewrite strip_list_core.
  - apply string_of_list_ascii_of_string.
  - now rewrite <- all_chars_forallb.
  - now rewrite <- all_chars_forallb.
  - destruct core; [congruence | discriminate].
  - now rewrite <- all_chars_forallb.
Qed.

Section StripMore.
Context {A : Type} (sp : A -> bool).

Lemma lstrip_all (l : list A) : forallb sp l = true -> lstrip sp l = [].
Proof.
  intros H. rewrite <- (app_nil_r l). now rewrite (lstrip_app sp l [] H).
Qed.

Lemma lstrip_before (l b : list A) :
  forallb sp b = true ->
  lstrip sp (l ++ b)%list = if forallb sp l then [] else (lstrip sp l ++ b)%list.
Proof.
  intros Hb. induction l as [|x l IH]; cbn [app forallb lstrip].
  - now apply lstrip_all.
  - destruct (sp x); [exact IH | reflexivity].
Qed.

(** White space after a text changes nothing of what [strip] keeps. *)
Lemma strip_list_before (l b : list A) :
  forallb sp b = true -> strip_list sp (l ++ b)%list = strip_list sp l.
Proof.
  intros Hb. unfold strip_list. rewrite (lstrip_before l b Hb).
  destruct (forallb sp l) eqn:Hl; [now rewrite (lstrip_all l Hl)|].
  unfold rstrip. rewrite rev_app_distr, lstrip_app; [reflexivity|].
  now rewrite forallb_rev.
Qed.

Lemma lstrip_ext (sp' : A -> bool) (l : list A) :
  (forall x, sp' x = sp x) -> lstrip sp' l = lstrip sp l.
Proof.
  intros H. induction l as [|x l IH]; [reflexivity|].
  cbn [lstrip]. now rewrite H, IH.
Qed.

Lemma lstrip_map {B : Type} (f : B -> A) (l : list B) :
  lstrip sp (map f l) = map f (lstrip (fun x => sp (f x)) l).
Proof.
  induction l as [|x l IH]; [reflexivity|].
  cbn [map lstrip]. destruct (sp (f x)); [exact IH | reflexivity].
Qed.

Lemma strip_list_map {B : Type} (f : B -> A) (l : list B) :
  strip_list sp (map f l) = map f (strip_list (fun x => sp (f x)) l).
Proof.
  unfold strip_list, rstrip. now rewrite lstrip_map, <- map_rev, lstrip_map, map_rev.
Qed.

End StripMore.

(** Below 256 the white space of decoded text is the white space of typed
    text. *)
Lemma unicode_isspace_ascii (c : ascii) :
  unicode_isspace (N_of_ascii c) = Py_UNICODE_ISSPACE (N_of_ascii c).
Proof.
  destruct c as [[] [] [] [] [] [] [] []]; vm_compute; reflexivity.
Qed.

(** Stripping decoded text that came from typed text is stripping the
    typed text. *)
Lemma ustrip_codes (s : string) : ustrip (codes s) = codes (strip s).
Proof.
  unfold ustrip, codes, strip. rewrite list_ascii_of_string_of_list_ascii, strip_list_map.
  f_equal. unfold strip_list, rstrip.
  rewrite !(lstrip_ext (fun c => Py_UNICODE_ISSPACE (N_of_ascii c))
                       (fun c => unicode_isspace (N_of_ascii c)));
    auto using unicode_isspace_ascii.
Qed.

(** ** The value of a text field *)

(** A text field has a value exactly when it holds a hexadecimal literal,
    between any white space; the value is the literal's. *)
Lemma field_value_iff (text : string) (v : Z) :
  Gui.field_value text = Some v <-> hex_literal strip_space text v.
Proof.
  unfold Gui.field_value. split.
  - intros H. apply int16_iff in H.
    destruct H as (w1 & core & w2 & E & H1 & H2 & Hc).
    destruct (strip_split text) as (ws1 & ws2 & Et & K1 & K2).
    exists (ws1 ++ w1)%string, core, (w2 ++ ws2)%string.
    assert (Hi : forall c, int_space c = true -> strip_space c = true)
      by (intros c Hk; now apply int_space_cases).
    split; [|split; [|split]]; auto.
    + rewrite Et at 1. rewrite E. now rewrite !append_assoc.
    + rewrite all_chars_app, K1. simpl. eapply all_chars_impl; eauto.
    + rewrite all_chars_app, K2, andb_true_r. eapply all_chars_impl; eauto.
  - intros (ws1 & core & ws2 & -> & H1 & H2 & Hc).
    destruct (hex_core_chars core v Hc) as [Hne Hcore].
    rewrite strip_core; auto.
    + apply int16_iff. exists "", core, "". rewrite append_nil_r. auto.
    + eapply all_chars_impl; [|exact Hcore]. intros c Hk.
      destruct (core_char_cases c Hk) as (_ & _ & _ & Hs & _). now rewrite Hs.
Qed.

(** ** The value of a text of any code points *)

Lemma todecimal_range (c d : N) :
  Py_UNICODE_TODECIMAL c = Some d ->
  exists z, In z decimal_zeros /\ (z <= c < z + 10)%N /\ d = (c - z)%N.
Proof.
  unfold Py_UNICODE_TODECIMAL.
  destruct (find _ decimal_zeros) as [z|] eqn:F; [|discriminate].
  intros [= <-]. apply find_some in F. destruct F as [Hin Hz].
  apply andb_true_iff in Hz. destruct Hz as [H1 H2].
  apply N.leb_le in H1. apply N.ltb_lt in H2. exists z. auto.
Qed.

Lemma todecimal_digit (c d : N) : Py_UNICODE_TODECIMAL c = Some d -> (d < 10)%N.
Proof. intros H. destruct (todecimal_range c d H) as (z & _ & Hz & ->). lia. Qed.

Lemma decimal_zeros_low (z : N) : In z decimal_zeros -> z = 48%N \/ (1632 <= z)%N.
Proof.
  assert (H : forallb (fun z => (z =? 48) || (1632 <=? z))%N decimal_zeros = true)
    by (vm_compute; reflexivity).
  intros Hin. apply (proj1 (forallb_forall _ _) H) in Hin.
  apply orb_true_iff in Hin. destruct Hin as [Hz|Hz].
  - left. now apply N.eqb_eq.
  - right. now apply N.leb_le.
Qed.

(** Below 1632 the decimal digits are the ASCII digits. *)
Lemma todecimal_low (c d : N) :
  Py_UNICODE_TODECIMAL c = Some d -> (c < 1632)%N -> c = (48 + d)%N /\ (c < 58)%N.
Proof.
  intros H Hc. destruct (todecimal_range c d H) as (z & Hin & Hz & ->).
  destruct (decimal_zeros_low z Hin) as [-> | Hbig]; lia.
Qed.

(** No decimal digit is white space. *)
Lemma todecimal_not_space (c d : N) :
  Py_UNICODE_TODECIMAL c = Some d -> unicode_isspace c = false.
Proof.
  intros H. destruct (todecimal_range c d H) as (z & Hin & Hz & _).
  assert (K : forallb (fun z => forallb (fun k => negb (unicode_isspace (z + k)))
                                        [0; 1; 2; 3; 4; 5; 6; 7; 8; 9]%N)
                      decimal_zeros = true) by (vm_compute; reflexivity).
  apply (proj1 (forallb_forall _ _) K) in Hin.
  assert (Hk : In (c - z)%N [0; 1; 2; 3; 4; 5; 6; 7; 8; 9]%N).
  { assert (E : (c - z = 0 \/ c - z = 1 \/ c - z = 2 \/ c - z = 3 \/ c - z = 4
                 \/ c - z = 5 \/ c - z = 6 \/ c - z = 7 \/ c - z = 8 \/ c - z = 9)%N)
      by lia.
    simpl. intuition auto. }
  apply (proj1 (forallb_forall _ _) Hin) in Hk. apply negb_true_iff in Hk.
  now replace (z + (c - z))%N with c in Hk by lia.
Qed.

Lemma todecimal_ascii (a : ascii) :
  (N_of_ascii a <? 127)%N = false -> Py_UNICODE_TODECIMAL (N_of_ascii a) = None.
Proof.
  destruct a as [[] [] [] [] [] [] [] []]; vm_compute; intros H;
    first [discriminate H | reflexivity].
Qed.

Lemma digit_core_char (d : N) : (d < 10)%N -> core_char (ascii_of_N (48 + d)) = true.
Proof.
  intros H.
  assert (E : (d = 0 \/ d = 1 \/ d = 2 \/ d = 3 \/ d = 4
               \/ d = 5 \/ d = 6 \/ d = 7 \/ d = 8 \/ d = 9)%N) by lia.
  repeat (destruct E as [-> | E]; [reflexivity|]). now subst.
Qed.

Lemma space_char_unicode (a : ascii) :
  Py_ISSPACE a = true -> unicode_isspace (N_of_ascii a) = true.
Proof.
  destruct a as [[] [] [] [] [] [] [] []]; vm_compute; intros H;
    first [discriminate H | reflexivity].
Qed.

Lemma core_not_space (a : ascii) : core_char a = true -> Py_ISSPACE a = false.
Proof. intros H. now destruct (core_char_cases a H) as (_ & E & _). Qed.

Lemma below_256 (c : N) : (c < 128)%N -> N_of_ascii (ascii_of_N c) = c.
Proof. intros H. apply N_ascii_embedding. lia. Qed.

(** How the transformation treats a character a core is written with. *)
Lemma writes_core (c : N) (a : ascii) :
  writes c a -> core_char a = true ->
  unicode_isspace c = false
  /\ ((c <? 128)%N = true -> ascii_of_N c = a)
  /\ (if (c <? 127)%N then ascii_of_N c = a
      else exists d, Py_UNICODE_TODECIMAL c = Some d /\ a = ascii_of_N (48 + d)).
Proof.
  intros [-> | (d & Hd & ->)] Hc.
  - destruct (core_char_cases a Hc) as (H127 & _ & _ & Hs & _).
    rewrite H127, ascii_N_embedding, unicode_isspace_ascii. auto.
  - split; [exact (todecimal_not_space c d Hd)|].
    destruct (N.lt_ge_cases c 1632) as [Hlow|Hhigh].
    + destruct (todecimal_low c d Hd Hlow) as [E Hlt].
      replace (c <? 127)%N with true by (symmetry; apply N.ltb_lt; lia).
      rewrite <- E. auto.
    + replace (c <? 127)%N with false by (symmetry; apply N.ltb_ge; lia).
      replace (c <? 128)%N with false by (symmetry; apply N.ltb_ge; lia).
      split; [discriminate | now exists d].
Qed.

Lemma written_loop (t : pystr) (l : list ascii) :
  Forall2 writes t l -> forallb core_char l = true ->
  transform_text_loop t = string_of_list_ascii l.
Proof.
  induction 1 as [|c a t l Hca _ IH]; [reflexivity|].
  cbn [forallb]. intros Hc. apply andb_true_iff in Hc. destruct Hc as [Ha Hl].
  destruct (writes_core c a Hca Ha) as (Hs & _ & Hk).
  cbn [transform_text_loop string_of_list_ascii]. rewrite (IH Hl).
  destruct (c <? 127)%N; [now rewrite Hk|].
  rewrite Hs. now destruct Hk as (d & -> & ->).
Qed.

Lemma written_ascii (t : pystr) (l : list ascii) :
  Forall2 writes t l -> forallb core_char l = true ->
  forallb (fun c => (c <? 128)%N) t = true -> map ascii_of_N t = l.
Proof.
  induction 1 as [|c a t l Hca _ IH]; [reflexivity|].
  cbn [forallb map]. intros Hc H.
  apply andb_true_iff in Hc. destruct Hc as [Ha Hl].
  apply andb_true_iff in H. destruct H as [H1 H2].
  destruct (writes_core c a Hca Ha) as (_ & Hk & _).
  now rewrite (Hk H1), (IH Hl H2).
Qed.

Lemma written_solid (t : pystr) (l : list ascii) :
  Forall2 writes t l -> forallb core_char l = true ->
  forallb (fun c => negb (unicode_isspace c)) t = true.
Proof.
  induction 1 as [|c a t l Hca _ IH]; [reflexivity|].
  cbn [forallb]. intros Hc. apply andb_true_iff in Hc. destruct Hc as [Ha Hl].
  destruct (writes_core c a Hca Ha) as (Hs & _).
  now rewrite Hs, (IH Hl).
Qed.

(** A core written in any script becomes the ASCII core. *)
Lemma written_transform (t : pystr) (l : list ascii) :
  Forall2 writes t l -> forallb core_char l = true ->
  transform_text t = string_of_list_ascii l.
Proof.
  intros Hw Hc. unfold transform_text.
  destruct (forallb (fun c => (c <? 128)%N) t) eqn:E.
  - now rewrite (written_ascii t l Hw Hc E).
  - now apply written_loop.
Qed.

Lemma read_as_low (c : N) :
  (c < 128)%N ->
  core_char (ascii_of_N c) || Py_ISSPACE (ascii_of_N c) = true ->
  read_as c (ascii_of_N c).
Proof.
  intros Hc H. apply orb_true_iff in H. destruct H as [H|H].
  - right. split; [exact H|]. left. symmetry. now apply below_256.
  - left. split; [exact H|]. apply space_char_unicode in H.
    now rewrite (below_256 c Hc) in H.
Qed.

Lemma read_as_loop (t : pystr) :
  all_chars (fun a => core_char a || Py_ISSPACE a) (transform_text_loop t) = true ->
  Forall2 read_as t (list_ascii_of_string (transform_text_loop t)).
Proof.
  induction t as [|c t IH]; [constructor|].
  cbn [transform_text_loop]. destruct (c <? 127)%N eqn:E127.
  - cbn [all_chars list_ascii_of_string]. intros H.
    apply andb_true_iff in H. destruct H as [Ha Ht]. apply N.ltb_lt in E127.
    constructor; [apply read_as_low; [lia | exact Ha] | now apply IH].
  - destruct (unicode_isspace c) eqn:Es.
    + cbn [all_chars list_ascii_of_string]. intros H.
      apply andb_true_iff in H. destruct H as [_ Ht].
      constructor; [left; split; [reflexivity | exact Es] | now apply IH].
    + destruct (Py_UNICODE_TODECIMAL c) as [d|] eqn:Ed; [|discriminate].
      cbn [all_chars list_ascii_of_string]. intros H.
      apply andb_true_iff in H. destruct H as [_ Ht].
      constructor; [|now apply IH].
      right. split; [exact (digit_core_char d (todecimal_digit c d Ed))|].
      right. now exists d.
Qed.

Lemma read_as_ascii (t : pystr) :
  forallb (fun c => (c <? 128)%N) t = true ->
  forallb (fun a => core_char a || Py_ISSPACE a) (map ascii_of_N t) = true ->
  Forall2 read_as t (map ascii_of_N t).
Proof.
  induction t as [|c t IH]; [constructor|].
  cbn [forallb map]. intros H K.
  apply andb_true_iff in H. destruct H as [Hc Ht].
  apply andb_true_iff in K. destruct K as [Ka Kt]. apply N.ltb_lt in Hc.
  constructor; [now apply read_as_low | now apply IH].
Qed.

(** Where the transformed text has only characters of a core and white
    space, every character of the text was read as one of them. *)
Lemma read_as_transform (t : pystr) :
  all_chars (fun a => core_char a || Py_ISSPACE a) (transform_text t) = true ->
  Forall2 read_as t (list_ascii_of_string (transform_text t)).
Proof.
  unfold transform_text.
  destruct (forallb (fun c => (c <? 128)%N) t) eqn:E; [|apply read_as_loop].
  rewrite all_chars_forallb, list_ascii_of_string_of_list_ascii.
  now apply read_as_ascii.
Qed.

Lemma read_as_spaces (t : pystr) (l : list ascii) :
  Forall2 read_as t l -> forallb Py_ISSPACE l = true ->
  forallb unicode_isspace t = true.
Proof.
  induction 1 as [|c a t l Hca _ IH]; [reflexivity|].
  cbn [forallb]. intros H. apply andb_true_iff in H. destruct H as [Ha Hl].
  destruct Hca as [[_ Hs] | [Hk _]].
  - now rewrite Hs, (IH Hl).
  - apply core_not_space in Hk. congruence.
Qed.

Lemma read_as_core (t : pystr) (l : list ascii) :
  Forall2 read_as t l -> forallb core_char l = true -> Forall2 writes t l.
Proof.
  induction 1 as [|c a t l Hca _ IH]; [constructor|].
  cbn [forallb]. intros H. apply andb_true_iff in H. destruct H as [Ha Hl].
  constructor; [|now apply IH].
  destruct Hca as [[Hs _] | [_ Hw]]; [|exact Hw].
  apply core_not_space in Ha. congruence.
Qed.

Lemma literal_chars (s : string) (v : Z) :
  hex_literal Py_ISSPACE s v ->
  all_chars (fun a => core_char a || Py_ISSPACE a) s = true.
Proof.
  intros (ws1 & core & ws2 & -> & H1 & H2 & Hc).
  destruct (hex_core_chars core v Hc) as [_ Hcore].
  rewrite !all_chars_app. apply andb_true_iff. split; [|apply andb_true_iff; split].
  - eapply all_chars_impl; [|exact H1]. intros c Hk. now rewrite Hk, orb_true_r.
  - eapply all_chars_impl; [|exact Hcore]. intros c Hk. now rewrite Hk.
  - eapply all_chars_impl; [|exact H2]. intros c Hk. now rewrite Hk, orb_true_r.
Qed.

(** [int(s, 16)] on a text of any code points succeeds on the cores
    written in any script, between the white space [int] takes, which all is
    white space of [strip]. *)
Lemma int16_text_core (t : pystr) (v : Z) : hex_core_text t v -> int16_text t = Some v.
Proof.
  intros (s & Hw & Hc). destruct (hex_core_chars s v Hc) as [_ Hcore].
  rewrite all_chars_forallb in Hcore. unfold int16_text.
  rewrite (written_transform t _ Hw Hcore), string_of_list_ascii_of_string.
  apply PyLong_FromString_iff. exists "", s, "". rewrite append_nil_r. auto.
Qed.

Lemma int16_text_inv (t : pystr) (v : Z) :
  int16_text t = Some v ->
  exists u1 core u2,
    t = (u1 ++ core ++ u2)%list
    /\ forallb unicode_isspace u1 = true /\ forallb unicode_isspace u2 = true
    /\ hex_core_text core v.
Proof.
  unfold int16_text. intros H. apply PyLong_FromString_iff in H.
  pose proof (read_as_transform t (literal_chars _ _ H)) as R.
  destruct H as (w1 & core & w2 & E & H1 & H2 & Hc).
  rewrite E, !list_of_append in R.
  apply Forall2_app_inv_r in R. destruct R as (u1 & r & R1 & R & ->).
  apply Forall2_app_inv_r in R. destruct R as (uc & u2 & Rc & R2 & ->).
  destruct (hex_core_chars core v Hc) as [_ Hcore].
  rewrite all_chars_forallb in H1, H2, Hcore.
  exists u1, uc, u2. split; [reflexivity|].
  split; [exact (read_as_spaces _ _ R1 H1)|].
  split; [exact (read_as_spaces _ _ R2 H2)|].
  exists core. split; [exact (read_as_core _ _ Rc Hcore) | exact Hc].
Qed.

(** A field that holds a text of any code points has a value exactly when
    the text is a hexadecimal literal, written in any script, between any
    white space; the value is the literal's. *)
Lemma field_value_text_iff (t : pystr) (v : Z) :
  Gui.field_value_text t = Some v <-> hex_literal_text t v.
Proof.
  unfold Gui.field_value_text. split.
  - intros H. destruct (int16_text_inv _ _ H) as (u1 & core & u2 & E & H1 & H2 & Hc).
    destruct (strip_list_split unicode_isspace t) as (a & b & Et & Ha & Hb).
    fold (ustrip t) in Et. exists (a ++ u1)%list, core, (u2 ++ b)%list.
    split; [|split; [|split; [|exact Hc]]].
    + rewrite Et at 1. rewrite E. now rewrite <- !app_assoc.
    + now rewrite forallb_app, Ha, H1.
    + now rewrite forallb_app, H2, Hb.
  - intros (ws1 & core & ws2 & -> & H1 & H2 & Hc).
    pose proof Hc as (s & Hw & Hs). destruct (hex_core_chars s v Hs) as [Hne Hcore].
    rewrite all_chars_forallb in Hcore.
    unfold ustrip. rewrite strip_list_core; auto.
    + now apply int16_text_core.
    + intros ->. inversion Hw as [E|]. destruct s; [congruence | discriminate].
    + exact (written_solid _ _ Hw Hcore).
Qed.

(** On a text of code points below 256 the value is the one of the text
    as the handlers hold it. *)
Lemma transform_text_codes (s : string) :
  transform_text (codes s) = transform_decimal_and_space s.
Proof.
  unfold transform_text, transform_decimal_and_space, codes.
  assert (E1 : forall u, forallb (fun c => (c <? 128)%N)
                                 (map N_of_ascii (list_ascii_of_string u))
                         = is_ascii_text u).
  { induction u as [|c u IH]; [reflexivity|]. cbn. now rewrite IH. }
  assert (E2 : forall u, string_of_list_ascii
                           (map ascii_of_N (map N_of_ascii (list_ascii_of_string u)))
                         = u).
  { induction u as [|c u IH]; [reflexivity|].
    cbn [list_ascii_of_string map string_of_list_ascii].
    now rewrite ascii_N_embedding, IH. }
  assert (E3 : forall u, transform_text_loop (map N_of_ascii (list_ascii_of_string u))
                         = transform_loop u).
  { induction u as [|c u IH]; [reflexivity|].
    cbn [list_ascii_of_string map transform_text_loop transform_loop].
    rewrite IH, ascii_N_embedding, unicode_isspace_ascii.
    destruct (N_of_ascii c <? 127)%N eqn:E; [reflexivity|].
    now rewrite (todecimal_ascii c E). }
  rewrite E1, E2, E3. reflexivity.
Qed.

Lemma field_value_text_codes (text : string) :
  Gui.field_value_text (codes text) = Gui.field_value text.
Proof.
  unfold Gui.field_value_text, Gui.field_value, int16_text, int16.
  now rewrite ustrip_codes, transform_text_codes.
Qed.

(** A text with a code point that is neither white space, nor a decimal
    digit of some script, nor an ASCII character of a core has no value. *)
Lemma field_value_text_foreign (t : pystr) :
  existsb (fun c => negb (literal_code c)) t = true -> Gui.field_value_text t = None.
Proof.
  intros H. destruct (Gui.field_value_text t) as [v|] eqn:E; [|reflexivity].
  apply field_value_text_iff in E.
  destruct E as (ws1 & core & ws2 & -> & H1 & H2 & s & Hw & Hs).
  destruct (hex_core_chars s v Hs) as [_ Hcore]. rewrite all_chars_forallb in Hcore.
  assert (K : forall l, forallb unicode_isspace l = true ->
                        existsb (fun c => negb (literal_code c)) l = false).
  { induction l as [|c l IH]; [reflexivity|]. cbn [forallb existsb]. intros Hl.
    apply andb_true_iff in Hl. destruct Hl as [Hc Hl].
    unfold literal_code at 1. now rewrite Hc, (IH Hl). }
  assert (Kc : existsb (fun c => negb (literal_code c)) core = false).
  { clear - Hw Hcore. induction Hw as [|c a t l Hca _ IH]; [reflexivity|].
    cbn [forallb] in Hcore. apply andb_true_iff in Hcore. destruct Hcore as [Ha Hl].
    cbn [existsb]. rewrite (IH Hl), orb_false_r. apply negb_false_iff.
    unfold literal_code. destruct Hca as [-> | (d & -> & _)].
    - destruct (core_char_cases a Ha) as (H127 & _).
      now rewrite H127, ascii_N_embedding, Ha, !orb_true_r.
    - now rewrite orb_true_r. }
  rewrite !existsb_app, (K ws1 H1), (K ws2 H2), Kc in H. discriminate.
Qed.

(** ** Running the handlers *)

Ltac run :=
  unfold Gui.show_error, Gui.log_append, Gui.set_connected_state, Cli.print, sleep,
    bind, ret, modify, get, raise, try_except, on_ui, on_wire, set_dev, set_ser;
  cbn [ser dev wire ui negb is_Exception].

Section Runs.
Context {D : Type} {P : Platform D}.

Lemma port_is_open_ser (w : World D) :
  Gui.port_is_open w = true -> ser w = Some {| is_open := true |}.
Proof.
  unfold Gui.port_is_open. destruct (ser w) as [[[]]|]; now try discriminate.
Qed.

(** [send_command] with no port open: the popup, its log line, and the
    sentinel; the port and the wire are as they were. *)
Lemma send_command_closed (cmd : string) (w : World D) :
  Gui.port_is_open w = false ->
  Gui.send_command cmd w =
  (Returned (codes "ERROR"),
   {| ser := ser w; dev := dev w; wire := wire w;
      ui := (ui w ++ [Critical "Serial port not open.";
                      LogAppend (codes "Serial port not open.")])%list |}).
Proof.
  intros H. unfold Gui.send_command. run. rewrite H. run.
  now rewrite <- app_assoc.
Qed.

(** [send_command] on an open port, step by step. *)
Lemma send_command_open (cmd : string) (w : World D) :
  Gui.port_is_open w = true ->
  Gui.send_command cmd w =
  match serial_write (dev w) (encode cmd) with
  | (d1, Some e) =>
      (Returned (codes "ERROR"),
       {| ser := ser w; dev := d1;
          wire := (wire w ++ [PortWrite (encode cmd)])%list;
          ui := (ui w ++ [Critical ("Serial error: " ++ exn_str e);
                          LogAppend (codes ("Serial error: " ++ exn_str e))])%list |})
  | (d1, None) =>
      match serial_readline d1 with
      | (d2, inl e) =>
          (Returned (codes "ERROR"),
           {| ser := ser w; dev := d2;
              wire := (wire w ++ [PortWrite (encode cmd); ClockSleep 50; PortReadLine])%list;
              ui := (ui w ++ [Critical ("Serial error: " ++ exn_str e);
                              LogAppend (codes ("Serial error: " ++ exn_str e))])%list |})
      | (d2, inr bs) =>
          (Returned (ustrip (decode_ignore bs)),
           {| ser := ser w; dev := d2;
              wire := (wire w ++ [PortWrite (encode cmd); ClockSleep 50; PortReadLine])%list;
              ui := (ui w ++ [LogAppend (codes (">> " ++ strip cmd ++ String LF "")
                                         ++ ustrip (decode_ignore bs))])%list |})
      end
  end.
Proof.
  intros H. pose proof (port_is_open_ser w H) as Hs.
  unfold Gui.send_command. run. rewrite H. run.
  unfold ser_write. rewrite Hs. cbn [is_open].
  destruct (serial_write (dev w) (encode cmd)) as [d1 [e|]]; run.
  - now rewrite ?Hs, <- ?app_assoc.
  - unfold ser_readline. run. rewrite Hs. cbn [is_open].
    destruct (serial_readline d1) as [d2 [e|bs]]; run; now rewrite ?Hs, <- ?app_assoc.
Qed.

Lemma send_command_returns (cmd : string) (w : World D) :
  exists r, fst (Gui.send_command cmd w) = Returned r.
Proof.
  destruct (Gui.port_is_open w) eqn:H.
  - rewrite (send_command_open cmd w H).
    destruct (serial_write (dev w) (encode cmd)) as [d1 [e|]]; [eexists; reflexivity|].
    destruct (serial_readline d1) as [d2 [e|bs]]; eexists; reflexivity.
  - rewrite (send_command_closed cmd w H). eexists; reflexivity.
Qed.

(** The wire after [send_command]: what was there, then the write, then
    the pause and the read when the write went through. *)
Lemma send_command_wire (cmd : string) (w : World D) :
  wire (snd (Gui.send_command cmd w)) =
  if Gui.port_is_open w then
    match snd (serial_write (dev w) (encode cmd)) with
    | Some _ => (wire w ++ [PortWrite (encode cmd)])%list
    | None => (wire w ++ [PortWrite (encode cmd); ClockSleep 50; PortReadLine])%list
    end
  else wire w.
Proof.
  destruct (Gui.port_is_open w) eqn:H.
  - rewrite (send_command_open cmd w H).
    destruct (serial_write (dev w) (encode cmd)) as [d1 [e|]]; [reflexivity|].
    destruct (serial_readline d1) as [d2 [e|bs]]; reflexivity.
  - now rewrite (send_command_closed cmd w H).
Qed.

Lemma read_scb_register_run (address : Z) (name : string) (w : World D) :
  Gui.read_scb_register address name w =
  match Gui.send_command (Gui.read_cmd address) w with
  | (Returned response, w') =>
      (Returned tt, on_ui (LogAppend (codes (name ++ ": ") ++ response)%list) w')
  | (Raised e, w') => (Raised e, w')
  end.
Proof. reflexivity. Qed.

Lemma read_custom_register_run (text : string) (w : World D) :
  Gui.read_custom_register text w =
  match Gui.field_value text with
  | Some addr =>
      match Gui.send_command (Gui.read_cmd addr) w with
      | (Returned response, w') =>
          (Returned tt,
           on_ui (LogAppend (codes ("Read 0x" ++ format_X addr ++ ": ") ++ response)%list) w')
      | (Raised e, w') =>
          if is_ValueError e
          then Gui.show_error "Invalid address format. Use hex (e.g., 0x48000010)." w'
          else (Raised e, w')
      end
  | None => Gui.show_error "Invalid address format. Use hex (e.g., 0x48000010)." w
  end.
Proof.
  unfold Gui.read_custom_register, Gui.field_value, int_base16, try_except, bind.
  destruct (int16 (strip text)) as [addr|]; [|reflexivity].
  unfold ret at 1.
  destruct (Gui.send_command (Gui.read_cmd addr) w) as [[response|e] w']; reflexivity.
Qed.

Lemma write_custom_register_run (addr_text val_text : string) (w : World D) :
  Gui.write_custom_register addr_text val_text w =
  match Gui.field_value addr_text, Gui.field_value val_text with
  | Some addr, Some val =>
      match Gui.send_command (Gui.write_cmd addr val) w with
      | (Returned response, w') =>
          (Returned tt,
           on_ui (LogAppend (codes ("Wrote 0x" ++ format_X val ++ " to 0x"
                                    ++ format_X addr ++ ": ") ++ response)%list) w')
      | (Raised e, w') =>
          if is_ValueError e
          then Gui.show_error
                 "Invalid address or value format. Use hex (e.g., 0x48000010)." w'
          else (Raised e, w')
      end
  | _, _ =>
      Gui.show_error "Invalid address or value format. Use hex (e.g., 0x48000010)." w
  end.
Proof.
  unfold Gui.write_custom_register, Gui.field_value, int_base16, try_except, bind.
  destruct (int16 (strip addr_text)) as [addr|]; [|reflexivity].
  unfold ret at 1.
  destruct (int16 (strip val_text)) as [val|]; [|reflexivity].
  unfold ret at 1.
  destruct (Gui.send_command (Gui.write_cmd addr val) w) as [[response|e] w']; reflexivity.
Qed.

Lemma show_error_run (msg : string) (w : World D) :
  Gui.show_error msg w =
  (Returned tt,
   {| ser := ser w; dev := dev w; wire := wire w;
      ui := (ui w ++ [Critical msg; LogAppend (codes msg)])%list |}).
Proof. run. now rewrite <- app_assoc. Qed.

Lemma cli_read_register_open (address : Z) (w : World D) :
  Gui.port_is_open w = true ->
  Cli.read_register address w = cli_exchange (Gui.read_cmd address) w.
Proof.
  intros H. pose proof (port_is_open_ser w H) as Hs.
  unfold Cli.read_register, cli_exchange, Gui.read_cmd. run.
  unfold ser_write. rewrite Hs. cbn [is_open].
  destruct (serial_write (dev w) _) as [d1 [e|]]; run; [now rewrite ?Hs|].
  unfold ser_readline. run. rewrite Hs. cbn [is_open].
  destruct (serial_readline d1) as [d2 [e|bs]]; run; [now rewrite ?Hs, <- ?app_assoc|].
  unfold decode. destruct (decode_strict bs); run; now rewrite ?Hs, <- ?app_assoc.
Qed.

Lemma cli_write_register_open (address value : Z) (w : World D) :
  Gui.port_is_open w = true ->
  Cli.write_register address value w = cli_exchange (Gui.write_cmd address value) w.
Proof.
  intros H. pose proof (port_is_open_ser w H) as Hs.
  unfold Cli.write_register, cli_exchange, Gui.write_cmd. run.
  unfold ser_write. rewrite Hs. cbn [is_open].
  destruct (serial_write (dev w) _) as [d1 [e|]]; run; [now rewrite ?Hs|].
  unfold ser_readline. run. rewrite Hs. cbn [is_open].
  destruct (serial_readline d1) as [d2 [e|bs]]; run; [now rewrite ?Hs, <- ?app_assoc|].
  unfold decode. destruct (decode_strict bs); run; now rewrite ?Hs, <- ?app_assoc.
Qed.

End Runs.

(** ** The bytes of a command *)

Lemma encode_ascii (s : string) :
  all_chars (fun c => (N_of_ascii c <? 128)%N) s = true ->
  encode s = list_byte_of_string s.
Proof.
  unfold encode, list_byte_of_string.
  induction s as [|c s IH]; [reflexivity|]. simpl. intros H.
  apply andb_true_iff in H. destruct H as [Hc Hs].
  unfold encode_char at 1. rewrite Hc. simpl. now rewrite IH.
Qed.

Lemma upper_hex_ascii (c : ascii) :
  is_upper_hex c = true -> (N_of_ascii c <? 128)%N = true.
Proof.
  intros H. apply upper_hex_is_hex_digit in H.
  destruct (hex_digit_cases c H) as (_ & _ & _ & _ & _ & _ & _ & Hlt).
  now apply N.ltb_lt.
Qed.

Lemma format_X_ascii (v : Z) :
  0 <= v -> all_chars (fun c => (N_of_ascii c <? 128)%N) (format_X v) = true.
Proof.
  intros H. destruct (format_X_minimal v H) as (_ & Hup & _).
  eapply all_chars_impl; [|exact Hup]. apply upper_hex_ascii.
Qed.

Lemma read_cmd_bytes (address : Z) :
  0 <= address ->
  encode (Gui.read_cmd address) = list_byte_of_string (Gui.read_cmd address).
Proof.
  intros H. apply encode_ascii. unfold Gui.read_cmd.
  rewrite !all_chars_app, (format_X_ascii address H). reflexivity.
Qed.

Lemma write_cmd_bytes (address value : Z) :
  0 <= address -> 0 <= value ->
  encode (Gui.write_cmd address value) = list_byte_of_string (Gui.write_cmd address value).
Proof.
  intros Ha Hv. apply encode_ascii. unfold Gui.write_cmd.
  rewrite !all_chars_app, (format_X_ascii address Ha), (format_X_ascii value Hv).
  reflexivity.
Qed.

Section HandlerWires.
Context {D : Type} {P : Platform D}.

Lemma read_scb_register_wire (address : Z) (name : string) (w : World D) :
  wire (snd (Gui.read_scb_register address name w))
  = wire (snd (Gui.send_command (Gui.read_cmd address) w)).
Proof.
  rewrite read_scb_register_run.
  destruct (Gui.send_command (Gui.read_cmd address) w) as [[r|e] w']; reflexivity.
Qed.

Lemma read_custom_register_wire (text : string) (w : World D) :
  wire (snd (Gui.read_custom_register text w))
  = match Gui.field_value text with
    | Some addr => wire (snd (Gui.send_command (Gui.read_cmd addr) w))
    | None => wire w
    end.
Proof.
  rewrite read_custom_register_run.
  destruct (Gui.field_value text) as [addr|]; [|now rewrite show_error_run].
  destruct (send_command_returns (Gui.read_cmd addr) w) as [r Hr].
  destruct (Gui.send_command (Gui.read_cmd addr) w) as [[r'|e] w']; [reflexivity|].
  discriminate.
Qed.

Lemma write_custom_register_wire (addr_text val_text : string) (w : World D) :
  wire (snd (Gui.write_custom_register addr_text val_text w))
  = match Gui.field_value addr_text, Gui.field_value val_text with
    | Some addr, Some val => wire (snd (Gui.send_command (Gui.write_cmd addr val) w))
    | _, _ => wire w
    end.
Proof.
  rewrite write_custom_register_run.
  destruct (Gui.field_value addr_text) as [addr|]; [|now rewrite show_error_run].
  destruct (Gui.field_value val_text) as [val|]; [|now rewrite show_error_run].
  destruct (send_command_returns (Gui.write_cmd addr val) w) as [r Hr].
  destruct (Gui.send_command (Gui.write_cmd addr val) w) as [[r'|e] w']; [reflexivity|].
  discriminate.
Qed.

Lemma send_command_first (cmd : string) (w : World D) :
  Gui.port_is_open w = true ->
  exists rest,
    wire (snd (Gui.send_command cmd w)) = (wire w ++ PortWrite (encode cmd) :: rest)%list.
Proof.
  intros H. rewrite send_command_wire, H.
  destruct (snd (serial_write (dev w) (encode cmd))); eexists; reflexivity.
Qed.

Lemma cli_exchange_first (cmd : string) (w : World D) :
  exists rest,
    wire (snd (cli_exchange cmd w)) = (wire w ++ PortWrite (encode cmd) :: rest)%list.
Proof.
  unfold cli_exchange.
  destruct (serial_write (dev w) (encode cmd)) as [d1 [e|]]; [eexists; reflexivity|].
  destruct (serial_readline d1) as [d2 [e|bs]]; [eexists; reflexivity|].
  destruct (decode_strict bs); eexists; reflexivity.
Qed.

End HandlerWires.

(** * The claims *)

(** C1.  For a 32-bit unsigned address and value the two command texts are
    "read 0x" or "write 0x", the address (and " 0x" and the value) as
    [format_X] writes them, and carriage return, line feed; what [format_X]
    writes is the shortest upper-case hexadecimal writing of the integer,
    at most eight digits long; the two examples of the specification come
    out as it gives them; and on an open port both clients put exactly the
    bytes of that text on the wire first. *)
Theorem C1_command_text (address value : Z) :
  0 <= address < 2 ^ 32 -> 0 <= value < 2 ^ 32 ->
  Gui.read_cmd address = ("read 0x" ++ format_X address ++ CRLF)%string
  /\ Gui.write_cmd address value
     = ("write 0x" ++ format_X address ++ " 0x" ++ format_X value ++ CRLF)%string
  /\ minimal_upper_hex (format_X address) address
  /\ minimal_upper_hex (format_X value) value
  /\ (String.length (format_X address) <= 8)%nat
  /\ (String.length (format_X value) <= 8)%nat
  /\ Gui.read_cmd 0x48000010 = ("read 0x48000010" ++ CRLF)%string
  /\ Gui.write_cmd 0xE000ED0C 0x5FA0004 = ("write 0xE000ED0C 0x5FA0004" ++ CRLF)%string
  /\ (forall (D : Type) (P : Platform D) (w : World D) (name : string),
        Gui.port_is_open w = true ->
        (exists rest,
           wire (snd (Gui.read_scb_register address name w))
           = (wire w ++ PortWrite (list_byte_of_string (Gui.read_cmd address)) :: rest)%list)
        /\ (exists rest,
              wire (snd (Cli.read_register address w))
              = (wire w ++ PortWrite (list_byte_of_string (Gui.read_cmd address)) :: rest)%list)
        /\ (exists rest,
              wire (snd (Cli.write_register address value w))
              = (wire w ++ PortWrite (list_byte_of_string (Gui.write_cmd address value))
                   :: rest)%list)).
Proof.
  intros [Ha0 Ha1] [Hv0 Hv1].
  split; [reflexivity|]. split; [reflexivity|].
  split; [now apply format_X_minimal|]. split; [now apply format_X_minimal|].
  split; [apply format_X_length; [split; [lia | exact Ha1] | lia]|].
  split; [apply format_X_length; [split; [lia | exact Hv1] | lia]|].
  split; [reflexivity|]. split; [reflexivity|].
  intros D P w name Hopen. split; [|split].
  - rewrite read_scb_register_wire, <- (read_cmd_bytes address Ha0).
    now apply send_command_first.
  - rewrite (cli_read_register_open address w Hopen), <- (read_cmd_bytes address Ha0).
    apply cli_exchange_first.
  - rewrite (cli_write_register_open address value w Hopen),
      <- (write_cmd_bytes address value Ha0 Hv0).
    apply cli_exchange_first.
Qed.

Lemma C1_command_text_witness :
  Gui.read_cmd 0x48000010 = ("read 0x" ++ format_X 0x48000010 ++ CRLF)%string
  /\ minimal_upper_hex (format_X 0x48000010) 0x48000010
  /\ minimal_upper_hex (format_X 0x5FA0004) 0x5FA0004.
Proof.
  destruct (C1_command_text 0x48000010 0x5FA0004) as (H1 & _ & H3 & H4 & _);
    [split; [discriminate | reflexivity] | split; [discriminate | reflexivity] |].
  exact (conj H1 (conj H3 H4)).
Defined.

Lemma has_char_all_chars (p : ascii -> bool) (s : string) :
  has_char p s = negb (all_chars (fun c => negb (p c)) s).
Proof.
  induction s as [|c s IH]; [reflexivity|]. simpl. rewrite IH.
  now destruct (p c).
Qed.

Lemma hex_literal_chars (s : string) (v : Z) :
  hex_literal strip_space s v ->
  all_chars (fun c => core_char c || strip_space c) s = true.
Proof.
  intros (ws1 & core & ws2 & -> & H1 & H2 & Hc).
  destruct (hex_core_chars core v Hc) as [_ Hcore].
  rewrite !all_chars_app. apply andb_true_iff. split; [|apply andb_true_iff; split].
  - eapply all_chars_impl; [|exact H1]. intros c Hk. now rewrite Hk, orb_true_r.
  - eapply all_chars_impl; [|exact Hcore]. intros c Hk. now rewrite Hk.
  - eapply all_chars_impl; [|exact H2]. intros c Hk. now rewrite Hk, orb_true_r.
Qed.

Lemma hex_numeral_upper (s : string) (n : Z) : minimal_upper_hex s n -> hex_numeral s.
Proof.
  intros (Hne & Hup & _). split; [exact Hne|].
  eapply all_chars_impl; [|exact Hup]. apply upper_hex_is_hex_digit.
Qed.

(** A plain numeral, with or without the prefix, has its base-16 reading
    as value, whatever its size. *)
Lemma field_value_numeral (pre ds : string) :
  In pre [""; "0x"; "0X"] -> hex_numeral ds ->
  Gui.field_value (pre ++ ds) = Some (hex_value ds).
Proof.
  intros Hpre Hds. apply field_value_iff.
  exists "", (pre ++ ds)%string, "". rewrite append_nil_r.
  repeat split; auto.
  exists "", pre, ds, []. repeat split; try apply Hds; auto.
  - now left.
  - simpl in Hpre |- *. tauto.
  - cbn [plain]. change (sign_value "") with 1. now rewrite Z.mul_1_l.
Qed.

(** Parsing what [format_X] wrote gives the integer back: every integer,
    negative or of any size, is the value of some text. *)
Lemma field_value_format_X (z : Z) : Gui.field_value (format_X z) = Some z.
Proof.
  apply field_value_iff. exists "", (format_X z), "". rewrite append_nil_r.
  repeat split; auto.
  destruct (Z.lt_ge_cases z 0) as [Hneg|Hpos].
  - rewrite (format_X_neg z Hneg).
    destruct (format_X_minimal (- z) ltac:(lia)) as (Hne & Hup & Hv & Hl).
    exists "-", "", (format_X (- z)), [].
    split; [reflexivity|]. split; [pick|]. split; [pick|].
    split; [now apply (hex_numeral_upper _ (- z))|]. split; [constructor|].
    cbn [plain]. rewrite Hv. change (sign_value "-") with (-1). lia.
  - destruct (format_X_minimal z Hpos) as (Hne & Hup & Hv & Hl).
    exists "", "", (format_X z), [].
    split; [reflexivity|]. split; [pick|]. split; [pick|].
    split; [now apply (hex_numeral_upper _ z)|]. split; [constructor|].
    cbn [plain]. rewrite Hv. change (sign_value "") with 1. lia.
Qed.

(** A text with a character that is neither of a literal nor white space
    has no value. *)
Lemma field_value_foreign (text : string) :
  has_char (fun c => negb (core_char c || strip_space c)) text = true ->
  Gui.field_value text = None.
Proof.
  intros H. destruct (Gui.field_value text) as [v|] eqn:E; [|reflexivity].
  apply field_value_iff, hex_literal_chars in E.
  rewrite has_char_all_chars in H. apply negb_true_iff in H.
  assert (X : all_chars (fun c => negb (negb (core_char c || strip_space c))) text
              = all_chars (fun c => core_char c || strip_space c) text).
  { clear. induction text as [|c s IH]; [reflexivity|]. simpl. rewrite IH.
    now rewrite negb_involutive. }
  rewrite X in H. congruence.
Qed.

(** C2, counterexample.  The text "100000000" has the value 2^32, which
    does not fit in 32 bits; "-1" and "1_0" have values though the minus
    sign and the underscore are no hexadecimal digits. *)
Lemma C2_counterexample :
  Gui.field_value "100000000" = Some (2 ^ 32)
  /\ 2 ^ 32 - 1 < 2 ^ 32
  /\ Gui.field_value "-1" = Some (-1)
  /\ is_hex_digit "-" = false
  /\ Gui.field_value "1_0" = Some 16
  /\ is_hex_digit "_" = false.
Proof. repeat split; vm_compute; reflexivity. Qed.

(** C2, as amended.  A text field, whatever code points it holds, has a
    value exactly when, between optional white space of any kind, it holds
    an optional sign, an optional prefix 0x or 0X (which one underscore may
    follow) and digits in groups with single underscores between them, a
    digit being a hexadecimal digit of either case or a decimal digit of any
    script; the value is the signed base-16 reading of the digits, of any
    size.  A text with a code point that is neither such a digit, a sign,
    an underscore, x, X nor white space has no value, and neither has the
    empty text.  On the texts of code points below 256, which the handlers
    are modelled on, this is the value the handlers compute: there every
    plain numeral, with or without prefix, has its base-16 reading as value,
    and a text without a value makes the handler report the format error. *)
Theorem C2_field_value :
  (forall text v, Gui.field_value text = Some v <-> hex_literal strip_space text v)
  /\ (forall pre ds,
        In pre [""; "0x"; "0X"] -> hex_numeral ds ->
        Gui.field_value (pre ++ ds) = Some (hex_value ds))
  /\ Gui.field_value "" = None
  /\ (forall text,
        has_char (fun c => negb (core_char c || strip_space c)) text = true ->
        Gui.field_value text = None)
  /\ (forall (D : Type) (P : Platform D) (w : World D) (text : string),
        Gui.field_value text = None ->
        Gui.read_custom_register text w
        = Gui.show_error "Invalid address format. Use hex (e.g., 0x48000010)." w)
  /\ (forall t v, Gui.field_value_text t = Some v <-> hex_literal_text t v)
  /\ (forall t,
        existsb (fun c => negb (literal_code c)) t = true ->
        Gui.field_value_text t = None)
  /\ Gui.field_value_text [] = None
  /\ (forall text, Gui.field_value_text (codes text) = Gui.field_value text).
Proof.
  split; [exact field_value_iff|]. split; [exact field_value_numeral|].
  split; [reflexivity|]. split; [exact field_value_foreign|].
  split; [intros D P w text H; now rewrite read_custom_register_run, H|].
  split; [exact field_value_text_iff|]. split; [exact field_value_text_foreign|].
  split; [reflexivity | exact field_value_text_codes].
Qed.

Lemma C2_field_value_witness :
  Gui.field_value ("0x" ++ "48000010") = Some (hex_value "48000010")
  /\ Gui.field_value "0xZZ" = None
  /\ Gui.field_value_text [65297; 65296]%N = Some 16
  /\ Gui.field_value_text [32; 1635; 102; 12288]%N = Some 63
  /\ Gui.field_value_text [178]%N = None.
Proof.
  destruct C2_field_value as (_ & Hnum & _ & Hforeign & _ & Htext & Hcode & _).
  split; [|split; [|split; [|split]]].
  - apply Hnum; [pick | split; [discriminate | reflexivity]].
  - apply Hforeign. reflexivity.
  - apply Htext. exists [], [65297; 65296]%N, [].
    split; [reflexivity|]. split; [reflexivity|]. split; [reflexivity|].
    exists "10". split.
    + constructor; [right; exists 1%N; split; reflexivity|].
      constructor; [right; exists 0%N; split; reflexivity | constructor].
    + exists "", "", "10", [].
      split; [reflexivity|]. split; [pick|]. split; [pick|].
      split; [split; [discriminate | reflexivity]|]. split; [constructor | reflexivity].
  - apply Htext. exists [32]%N, [1635; 102]%N, [12288]%N.
    split; [reflexivity|]. split; [reflexivity|]. split; [reflexivity|].
    exists "3f". split.
    + constructor; [right; exists 3%N; split; reflexivity|].
      constructor; [left; reflexivity | constructor].
    + exists "", "", "3f", [].
      split; [reflexivity|]. split; [pick|]. split; [pick|].
      split; [split; [discriminate | reflexivity]|]. split; [constructor | reflexivity].
  - apply Hcode. reflexivity.
Defined.

(** ** With no port open *)

Section NotConnected.
Context {D : Type} {P : Platform D}.
Variable w : World D.
Hypothesis Hclosed : Gui.port_is_open w = false.

Lemma closed_read_scb_register (address : Z) (name : string) :
  Gui.read_scb_register address name w =
  (Returned tt,
   {| ser := ser w; dev := dev w; wire := wire w;
      ui := (ui w ++ [Critical "Serial port not open.";
                      LogAppend (codes "Serial port not open.");
                      LogAppend (codes (name ++ ": ") ++ codes "ERROR")])%list |}).
Proof.
  rewrite read_scb_register_run, (send_command_closed _ w Hclosed). run.
  now rewrite <- app_assoc.
Qed.

Lemma closed_read_custom_register (text : string) :
  port_untouched w (snd (Gui.read_custom_register text w)).
Proof.
  rewrite read_custom_register_run.
  destruct (Gui.field_value text) as [addr|].
  - rewrite (send_command_closed _ w Hclosed). repeat split.
  - rewrite show_error_run. repeat split.
Qed.

Lemma closed_write_custom_register (addr_text val_text : string) :
  port_untouched w (snd (Gui.write_custom_register addr_text val_text w)).
Proof.
  rewrite write_custom_register_run.
  destruct (Gui.field_value addr_text) as [addr|];
    [destruct (Gui.field_value val_text) as [val|]|].
  - rewrite (send_command_closed _ w Hclosed). repeat split.
  - rewrite show_error_run. repeat split.
  - rewrite show_error_run. repeat split.
Qed.

End NotConnected.

(** C3, counterexample.  In the console client [read_register] with no
    port, as [open_serial] leaves [ser] when it failed, does not fail with a
    signal of a missing connection: it raises the [AttributeError] of
    calling [write] on [None], which is no [SerialException]. *)
Lemma C3_counterexample :
  Cli.read_register 0x48000010 (Gui.init Double.silent)
  = (Raised (Exn AttributeError "'NoneType' object has no attribute 'write'"),
     Gui.init Double.silent)
  /\ is_SerialException (Exn AttributeError "'NoneType' object has no attribute 'write'")
     = false.
Proof. split; reflexivity. Qed.

(** C3, as amended.  With no port open (none was ever opened, or it was
    closed), a command is not sent.  In the GUI [send_command] shows the
    error "Serial port not open.", gives the sentinel "ERROR" back, and
    leaves the port, the world behind it and the wire as they were, and so
    do the three handlers.  The console client has no check of its own:
    [read_register] and [write_register] raise what the call of [write]
    raises, [AttributeError] when [ser] is [None] and pyserial's
    [PortNotOpenError] when the port is closed, before anything reaches the
    port, and leave everything as it was; and [main] does not come to call
    them without a port, for it returns, with no call on any port and no
    input read, when the port could not be opened. *)
Theorem C3_not_connected {D : Type} {P : Platform D} (w : World D)
        (address value : Z) (name text addr_text val_text : string) :
  Gui.port_is_open w = false ->
  Gui.send_command (Gui.read_cmd address) w
  = (Returned (codes "ERROR"),
     {| ser := ser w; dev := dev w; wire := wire w;
        ui := (ui w ++ [Critical "Serial port not open.";
                        LogAppend (codes "Serial port not open.")])%list |})
  /\ Gui.send_command (Gui.write_cmd address value) w
     = (Returned (codes "ERROR"),
        {| ser := ser w; dev := dev w; wire := wire w;
           ui := (ui w ++ [Critical "Serial port not open.";
                           LogAppend (codes "Serial port not open.")])%list |})
  /\ port_untouched w (snd (Gui.read_scb_register address name w))
  /\ port_untouched w (snd (Gui.read_custom_register text w))
  /\ port_untouched w (snd (Gui.write_custom_register addr_text val_text w))
  /\ (ser w = None ->
      Cli.read_register address w
      = (Raised (Exn AttributeError "'NoneType' object has no attribute 'write'"), w)
      /\ Cli.write_register address value w
         = (Raised (Exn AttributeError "'NoneType' object has no attribute 'write'"), w))
  /\ (ser w <> None ->
      Cli.read_register address w
      = (Raised (Exn PortNotOpenError "Attempting to use a port that is not open"), w)
      /\ Cli.write_register address value w
         = (Raised (Exn PortNotOpenError "Attempting to use a port that is not open"), w))
  /\ (forall (w0 : World D) (d : D) (e : exn) (inputs : list Cli.console_input),
        serial_open (dev w0) Cli.SERIAL_PORT Cli.BAUD_RATE = (d, Some e) ->
        is_SerialException e = true ->
        fst (Cli.main inputs w0) = Returned tt
        /\ wire (snd (Cli.main inputs w0)) = wire w0
        /\ existsb (fun u => match u with Prompted _ => true | _ => false end)
                   (ui (snd (Cli.main inputs w0)))
           = existsb (fun u => match u with Prompted _ => true | _ => false end) (ui w0)).
Proof.
  intros H.
  split; [now apply send_command_closed|]. split; [now apply send_command_closed|].
  split; [rewrite (closed_read_scb_register w H); repeat split|].
  split; [now apply closed_read_custom_register|].
  split; [now apply closed_write_custom_register|].
  split; [|split].
  - intros Hs. unfold Cli.read_register, Cli.write_register, bind, ser_write.
    rewrite Hs. split; reflexivity.
  - intros Hs. unfold Cli.read_register, Cli.write_register, bind, ser_write.
    unfold Gui.port_is_open in H.
    destruct (ser w) as [[[]]|]; [discriminate | split; reflexivity | congruence].
  - intros w0 d e inputs Ho He.
    assert (E : Cli.main inputs w0
                = (Returned tt,
                   {| ser := None; dev := d; wire := wire w0;
                      ui := (ui w0 ++ [Printed (codes ("Failed to open serial port: "
                                                       ++ exn_str e))])%list |})).
    { unfold Cli.main, Cli.open_serial, bind at 1, try_except. rewrite Ho, He. run.
      reflexivity. }
    rewrite E. cbn [fst snd wire ui]. repeat split.
    rewrite existsb_app. cbn [existsb]. now rewrite !orb_false_r.
Qed.

Lemma C3_not_connected_witness :
  wire (snd (Gui.read_custom_register "0x48000010" (Gui.init Double.silent))) = []
  /\ fst (Gui.send_command (Gui.read_cmd 0x48000010) (Gui.init Double.silent))
     = Returned (codes "ERROR")
  /\ fst (Cli.write_register 0x20000000 0xDEADBEEF (Gui.init Double.silent))
     = Raised (Exn AttributeError "'NoneType' object has no attribute 'write'").
Proof.
  destruct (C3_not_connected (Gui.init Double.silent) 0x20000000 0xDEADBEEF ""
              "0x48000010" "" "" eq_refl) as (_ & _ & _ & (_ & _ & H4) & _ & H6 & _).
  destruct (C3_not_connected (Gui.init Double.silent) 0x48000010 0 "" "0x48000010" "" ""
              eq_refl) as (H1 & _).
  split; [exact H4|]. split; [now rewrite H1|].
  now rewrite (proj2 (H6 eq_refl)).
Defined.

(** ** Decoding what the port received *)

Lemma scan_strict_ignore (l : list (option N)) (t : pystr) :
  fold_right (fun i acc =>
                match i, acc with
                | Some c, Some t => Some (c :: t)
                | _, _ => None
                end) (Some []) l = Some t ->
  flat_map (fun i => match i with Some c => [c] | None => [] end) l = t.
Proof.
  revert t. induction l as [|[c|] l IH]; intros t H; simpl in *.
  - now injection H.
  - destruct (fold_right _ (Some []) l) as [t'|]; [|discriminate].
    injection H as <-. now rewrite (IH t' eq_refl).
  - discriminate.
Qed.

(** Where the strict decoder succeeds, ignoring errors changes nothing. *)
Lemma decode_strict_ignore (bs : list byte) (t : pystr) :
  decode_strict bs = Some t -> decode_ignore bs = t.
Proof. apply scan_strict_ignore. Qed.

Lemma utf8_scan_ascii (a r : list byte) :
  forallb (fun b => (Byte.to_N b <? 128)%N) a = true ->
  utf8_scan (a ++ r) = (map (fun b => Some (Byte.to_N b)) a ++ utf8_scan r)%list.
Proof.
  induction a as [|x a IH]; [reflexivity|]. simpl. intros H.
  apply andb_true_iff in H. destruct H as [Hx Ha]. now rewrite Hx, IH.
Qed.



Section Faults.
Context {D : Type} {P : Platform D}.

(** The handlers of the GUI never raise. *)
Lemma gui_handlers_return (w : World D) :
  (forall address name, fst (Gui.read_scb_register address name w) = Returned tt)
  /\ (forall text, fst (Gui.read_custom_register text w) = Returned tt)
  /\ (forall addr_text val_text,
        fst (Gui.write_custom_register addr_text val_text w) = Returned tt).
Proof.
  split; [|split].
  - intros address name. rewrite read_scb_register_run.
    destruct (send_command_returns (Gui.read_cmd address) w) as [r Hr].
    destruct (Gui.send_command (Gui.read_cmd address) w) as [[r'|e] w'];
      [reflexivity | discriminate].
  - intros text. rewrite read_custom_register_run.
    destruct (Gui.field_value text) as [addr|]; [|now rewrite show_error_run].
    destruct (send_command_returns (Gui.read_cmd addr) w) as [r Hr].
    destruct (Gui.send_command (Gui.read_cmd addr) w) as [[r'|e] w'];
      [reflexivity | discriminate].
  - intros addr_text val_text. rewrite write_custom_register_run.
    destruct (Gui.field_value addr_text) as [addr|]; [|now rewrite show_error_run].
    destruct (Gui.field_value val_text) as [val|]; [|now rewrite show_error_run].
    destruct (send_command_returns (Gui.write_cmd addr val) w) as [r Hr].
    destruct (Gui.send_command (Gui.write_cmd addr val) w) as [[r'|e] w'];
      [reflexivity | discriminate].
Qed.


End Faults.




(** C5.  On an open port, when the write or the read raises, whatever the
    exception, [send_command] does not raise: it gives the sentinel "ERROR"
    back, shows the popup "Serial error: ..." with the exception's text and
    logs it, and leaves the port open; and no handler of the GUI ever
    raises. *)
Theorem C5_transport_fault {D : Type} {P : Platform D} (w : World D) (cmd : string)
        (e : exn) :
  Gui.port_is_open w = true ->
  (exists d1, serial_write (dev w) (encode cmd) = (d1, Some e))
  \/ (exists d1 d2, serial_write (dev w) (encode cmd) = (d1, None)
                    /\ serial_readline d1 = (d2, inl e)) ->
  fst (Gui.send_command cmd w) = Returned (codes "ERROR")
  /\ ui (snd (Gui.send_command cmd w))
     = (ui w ++ [Critical ("Serial error: " ++ exn_str e);
                 LogAppend (codes ("Serial error: " ++ exn_str e))])%list
  /\ ser (snd (Gui.send_command cmd w)) = ser w
  /\ (forall address name, fst (Gui.read_scb_register address name w) = Returned tt)
  /\ (forall text, fst (Gui.read_custom_register text w) = Returned tt)
  /\ (forall addr_text val_text,
        fst (Gui.write_custom_register addr_text val_text w) = Returned tt).
Proof.
  intros Hopen Hfault.
  rewrite (send_command_open cmd w Hopen).
  split; [|split; [|split; [|exact (gui_handlers_return w)]]];
    destruct Hfault as [(d1 & Hw)|(d1 & d2 & Hw & Hr)];
    rewrite Hw; try rewrite Hr; reflexivity.
Qed.

Lemma C5_transport_fault_witness :
  fst (Gui.send_command (Gui.read_cmd 0x48000010) (Double.opened Double.unplugged))
  = Returned (codes "ERROR")
  /\ fst (Gui.send_command (Gui.read_cmd 0x48000010)
            (Double.opened (Double.answering [inl Double.io_fault])))
     = Returned (codes "ERROR").
Proof.
  split.
  - destruct (C5_transport_fault (Double.opened Double.unplugged)
                (Gui.read_cmd 0x48000010) Double.io_fault) as (H & _);
      [reflexivity | left; exists Double.silent; reflexivity | exact H].
  - destruct (C5_transport_fault
                (Double.opened (Double.answering [inl Double.io_fault]))
                (Gui.read_cmd 0x48000010) Double.io_fault) as (H & _);
      [reflexivity
      | right; exists (Double.answering [inl Double.io_fault]), Double.silent;
        split; reflexivity
      | exact H].
Defined.

(** C6, counterexample.  [read_register] of the console client, on an open
    port that takes the bytes and stays silent: the write, then the read,
    and no pause between them. *)
Lemma C6_counterexample :
  wire (snd (Cli.read_register 0x48000010 (Double.opened Double.silent)))
  = [PortWrite (list_byte_of_string (Gui.read_cmd 0x48000010)); PortReadLine].
Proof. vm_compute. reflexivity. Qed.

(** C6, as amended.  In the GUI client every command sent on an open port
    makes these calls and no other, in this order: the write of the encoded
    command, then, when the write did not raise, a pause of 50 ms and then
    the read; the three handlers send their command this way.  The console
    client's [read_register] and [write_register] write and then, when the
    write did not raise, read, with no pause. *)
Theorem C6_call_order {D : Type} {P : Platform D} (w : World D) (cmd : string) :
  Gui.port_is_open w = true ->
  wire (snd (Gui.send_command cmd w))
  = (wire w ++ match snd (serial_write (dev w) (encode cmd)) with
               | Some _ => [PortWrite (encode cmd)]
               | None => [PortWrite (encode cmd); ClockSleep 50; PortReadLine]
               end)%list
  /\ (forall address name,
        wire (snd (Gui.read_scb_register address name w))
        = wire (snd (Gui.send_command (Gui.read_cmd address) w)))
  /\ (forall text address,
        Gui.field_value text = Some address ->
        wire (snd (Gui.read_custom_register text w))
        = wire (snd (Gui.send_command (Gui.read_cmd address) w)))
  /\ (forall addr_text val_text address value,
        Gui.field_value addr_text = Some address ->
        Gui.field_value val_text = Some value ->
        wire (snd (Gui.write_custom_register addr_text val_text w))
        = wire (snd (Gui.send_command (Gui.write_cmd address value) w)))
  /\ (forall address,
        wire (snd (Cli.read_register address w))
        = (wire w ++ match snd (serial_write (dev w) (encode (Gui.read_cmd address))) with
                     | Some _ => [PortWrite (encode (Gui.read_cmd address))]
                     | None => [PortWrite (encode (Gui.read_cmd address)); PortReadLine]
                     end)%list)
  /\ (forall address value,
        wire (snd (Cli.write_register address value w))
        = (wire w
           ++ match snd (serial_write (dev w) (encode (Gui.write_cmd address value))) with
              | Some _ => [PortWrite (encode (Gui.write_cmd address value))]
              | None => [PortWrite (encode (Gui.write_cmd address value)); PortReadLine]
              end)%list).
Proof.
  intros Hopen.
  assert (Hcli : forall c, wire (snd (cli_exchange c w))
                           = (wire w ++ match snd (serial_write (dev w) (encode c)) with
                                        | Some _ => [PortWrite (encode c)]
                                        | None => [PortWrite (encode c); PortReadLine]
                                        end)%list).
  { intros c. unfold cli_exchange.
    destruct (serial_write (dev w) (encode c)) as [d1 [e|]]; [reflexivity|].
    destruct (serial_readline d1) as [d2 [e|bs]]; [reflexivity|].
    destruct (decode_strict bs); reflexivity. }
  split; [|split; [|split; [|split; [|split]]]].
  - rewrite send_command_wire, Hopen.
    destruct (snd (serial_write (dev w) (encode cmd))); reflexivity.
  - intros address name. apply read_scb_register_wire.
  - intros text address H. now rewrite read_custom_register_wire, H.
  - intros addr_text val_text address value Ha Hv.
    now rewrite write_custom_register_wire, Ha, Hv.
  - intros address. rewrite (cli_read_register_open address w Hopen). apply Hcli.
  - intros address value. rewrite (cli_write_register_open address value w Hopen).
    apply Hcli.
Qed.

Lemma C6_call_order_witness :
  wire (snd (Gui.send_command (Gui.read_cmd 0x48000010) (Double.opened Double.silent)))
  = [PortWrite (encode (Gui.read_cmd 0x48000010)); ClockSleep 50; PortReadLine].
Proof.
  destruct (C6_call_order (Double.opened Double.silent) (Gui.read_cmd 0x48000010))
    as (H & _); [reflexivity | exact H].
Defined.

(** ** The named registers *)

Lemma scb_address_range (name : string) (address : Z) :
  In (name, address) Gui.SCB_REGISTERS -> 0 <= address < 2 ^ 32.
Proof.
  unfold Gui.SCB_REGISTERS. simpl. intros H.
  repeat (destruct H as [H|H];
          [injection H as _ <-; split; [discriminate | reflexivity]|]).
  destruct H.
Qed.

(** The hexadecimal text of a non-negative address has this address as
    value, with or without the prefix. *)
Lemma field_value_of_address (address : Z) :
  0 <= address -> Gui.field_value ("0x" ++ format_X address) = Some address.
Proof.
  intros H. destruct (format_X_minimal address H) as (Hne & Hup & Hv & Hl).
  rewrite field_value_numeral; [now rewrite Hv | pick |].
  now apply (hex_numeral_upper _ address).
Qed.

(** C7, counterexample.  [read_scb_register] called with a name that is
    not in the table, on an open port: it returns, and the command of the
    address it was given has gone to the port. *)
Lemma C7_counterexample :
  existsb (String.eqb "BOGUS") (map fst Gui.SCB_REGISTERS) = false
  /\ fst (Gui.read_scb_register 0xE000ED00 "BOGUS" (Double.opened Double.silent))
     = Returned tt
  /\ wire (snd (Gui.read_scb_register 0xE000ED00 "BOGUS" (Double.opened Double.silent)))
     = [PortWrite (list_byte_of_string (Gui.read_cmd 0xE000ED00));
        ClockSleep 50; PortReadLine].
Proof. repeat split; vm_compute; reflexivity. Qed.

(** C7, as amended.  The table holds the six names with the addresses of
    the specification.  For every entry there is a button "Read NAME" whose
    handler is [read_scb_register] with the entry's address and name; this
    handler sends exactly the command of the address, the same calls on the
    port as a custom read of the address written in hexadecimal; so the
    button of CPUID sends what reading 0xE000ED00 sends.  No name is looked
    up when a button is pressed: the handler's name only labels the log
    line, and with any other name it sends the same. *)
Theorem C7_named_registers :
  Gui.SCB_REGISTERS
  = [ ("CPUID", 0xE000ED00); ("ICSR", 0xE000ED04); ("VTOR", 0xE000ED08);
      ("AIRCR", 0xE000ED0C); ("SCR", 0xE000ED10); ("CCR", 0xE000ED14) ]
  /\ (forall (D : Type) (P : Platform D) (w : World D) (name : string) (address : Z),
        In (name, address) Gui.SCB_REGISTERS ->
        In (("Read " ++ name)%string, Gui.read_scb_register address name) Gui.scb_buttons
        /\ wire (snd (Gui.read_scb_register address name w))
           = wire (snd (Gui.send_command (Gui.read_cmd address) w))
        /\ wire (snd (Gui.read_scb_register address name w))
           = wire (snd (Gui.read_custom_register ("0x" ++ format_X address) w)))
  /\ (forall (D : Type) (P : Platform D) (w : World D),
        wire (snd (Gui.read_scb_register 0xE000ED00 "CPUID" w))
        = wire (snd (Gui.read_custom_register "0xE000ED00" w)))
  /\ (forall (D : Type) (P : Platform D) (w : World D) (address : Z) (name name' : string),
        wire (snd (Gui.read_scb_register address name w))
        = wire (snd (Gui.read_scb_register address name' w))
        /\ dev (snd (Gui.read_scb_register address name w))
           = dev (snd (Gui.read_scb_register address name' w))).
Proof.
  split; [reflexivity|]. split; [|split].
  - intros D P w name address Hin. split; [|split].
    + unfold Gui.scb_buttons.
      exact (in_map (fun '(name, addr) =>
                       (("Read " ++ name)%string, Gui.read_scb_register addr name))
               _ _ Hin).
    + apply read_scb_register_wire.
    + rewrite read_scb_register_wire, read_custom_register_wire.
      now rewrite (field_value_of_address address (proj1 (scb_address_range _ _ Hin))).
  - intros D P w. rewrite read_scb_register_wire, read_custom_register_wire.
    reflexivity.
  - intros D P w address name name'. rewrite !read_scb_register_run.
    destruct (Gui.send_command (Gui.read_cmd address) w) as [[r|e] w']; split; reflexivity.
Qed.

Lemma C7_named_registers_witness :
  In ("Read CPUID", Gui.read_scb_register 0xE000ED00 "CPUID")
     (Gui.scb_buttons (D := Double.script))
  /\ wire (snd (Gui.read_scb_register 0xE000ED00 "CPUID" (Double.opened Double.silent)))
     = wire (snd (Gui.send_command (Gui.read_cmd 0xE000ED00)
                    (Double.opened Double.silent))).
Proof.
  destruct C7_named_registers as (_ & H & _).
  destruct (H Double.script _ (Double.opened Double.silent) "CPUID" 0xE000ED00)
    as (H1 & H2 & _); [pick | exact (conj H1 H2)].
Defined.

(** ** Closing the port *)

Section Closing.
Context {D : Type} {P : Platform D}.

Lemma disconnect_serial_run (w : World D) :
  Gui.disconnect_serial w =
  if Gui.port_is_open w then
    (Returned tt,
     {| ser := Some {| is_open := false |}; dev := serial_close (dev w);
        wire := (wire w ++ [PortClose])%list;
        ui := (ui w ++ [LogAppend (codes "Disconnected."); SetConnected false])%list |})
  else
    (Returned tt,
     {| ser := ser w; dev := dev w; wire := wire w;
        ui := (ui w ++ [SetConnected false])%list |}).
Proof.
  unfold Gui.disconnect_serial. run.
  destruct (Gui.port_is_open w) eqn:H; run; [|reflexivity].
  unfold ser_close. rewrite (port_is_open_ser w H). cbn [is_open]. run.
  now rewrite <- app_assoc.
Qed.

Lemma closeEvent_run (w : World D) :
  Gui.closeEvent w =
  if Gui.port_is_open w then
    (Returned tt,
     {| ser := Some {| is_open := false |}; dev := serial_close (dev w);
        wire := (wire w ++ [PortClose])%list; ui := ui w |})
  else (Returned tt, w).
Proof.
  unfold Gui.closeEvent. run.
  destruct (Gui.port_is_open w) eqn:H; run; [|reflexivity].
  unfold ser_close. now rewrite (port_is_open_ser w H).
Qed.

End Closing.

(** C8.  Closing never fails and leaves the port closed, whatever the
    state: [disconnect_serial] and [closeEvent] return, and after them no
    port is open.  On a port that is open they make one call, the close.
    When no port is open, because none was ever opened or because it was
    closed before, they make no call and leave the port, the world behind
    it and the wire as they were; so a second close in a row is such a
    no-op. *)
Theorem C8_close_idempotent {D : Type} {P : Platform D} (w : World D) :
  fst (Gui.disconnect_serial w) = Returned tt
  /\ Gui.port_is_open (snd (Gui.disconnect_serial w)) = false
  /\ wire (snd (Gui.disconnect_serial w))
     = (if Gui.port_is_open w then wire w ++ [PortClose] else wire w)%list
  /\ fst (Gui.disconnect_serial (snd (Gui.disconnect_serial w))) = Returned tt
  /\ port_untouched (snd (Gui.disconnect_serial w))
       (snd (Gui.disconnect_serial (snd (Gui.disconnect_serial w))))
  /\ (Gui.port_is_open w = false -> port_untouched w (snd (Gui.disconnect_serial w)))
  /\ (forall d, port_untouched (Gui.init d) (snd (Gui.disconnect_serial (Gui.init d))))
  /\ fst (Gui.closeEvent w) = Returned tt
  /\ Gui.port_is_open (snd (Gui.closeEvent w)) = false
  /\ Gui.closeEvent (snd (Gui.closeEvent w)) = (Returned tt, snd (Gui.closeEvent w))
  /\ Gui.closeEvent (snd (Gui.disconnect_serial w))
     = (Returned tt, snd (Gui.disconnect_serial w))
  /\ (Gui.port_is_open w = false -> Gui.closeEvent w = (Returned tt, w)).
Proof.
  assert (Hd : forall v : World D,
             fst (Gui.disconnect_serial v) = Returned tt
             /\ Gui.port_is_open (snd (Gui.disconnect_serial v)) = false
             /\ (Gui.port_is_open v = false ->
                 port_untouched v (snd (Gui.disconnect_serial v)))).
  { intros v. rewrite disconnect_serial_run.
    destruct (Gui.port_is_open v) eqn:H; repeat split; auto; discriminate. }
  assert (Hc : forall v : World D,
             fst (Gui.closeEvent v) = Returned tt
             /\ Gui.port_is_open (snd (Gui.closeEvent v)) = false
             /\ (Gui.port_is_open v = false -> Gui.closeEvent v = (Returned tt, v))).
  { intros v. rewrite closeEvent_run.
    destruct (Gui.port_is_open v) eqn:H; repeat split; auto; discriminate. }
  destruct (Hd w) as (H1 & H2 & H3).
  destruct (Hd (snd (Gui.disconnect_serial w))) as (H4 & _ & H5).
  destruct (Hc w) as (H6 & H7 & H8).
  destruct (Hc (snd (Gui.closeEvent w))) as (_ & _ & H9).
  destruct (Hc (snd (Gui.disconnect_serial w))) as (_ & _ & H10).
  repeat match goal with |- _ /\ _ => split end; auto.
  - rewrite disconnect_serial_run. now destruct (Gui.port_is_open w).
  - intros d. now apply (Hd (Gui.init d)).
Qed.

Lemma C8_close_idempotent_witness :
  wire (snd (Gui.disconnect_serial (Double.opened Double.silent))) = [PortClose]
  /\ wire (snd (Gui.disconnect_serial
                  (snd (Gui.disconnect_serial (Double.opened Double.silent)))))
     = [PortClose]
  /\ wire (snd (Gui.disconnect_serial (Gui.init Double.silent))) = [].
Proof.
  destruct (C8_close_idempotent (Double.opened Double.silent))
    as (_ & _ & H3 & _ & (_ & _ & H5) & _).
  destruct (C8_close_idempotent (Gui.init Double.silent))
    as (_ & _ & _ & _ & _ & H6 & _).
  split; [exact H3|]. split; [now rewrite H5, H3|].
  exact (proj2 (proj2 (H6 eq_refl))).
Defined.

(** What the specification's [parse_hex] takes, [int] takes, with the
    same value. *)
Lemma parse_hex_spec_field_value (text : string) (v : Z) :
  parse_hex_spec text = Some v -> Gui.field_value text = Some v.
Proof.
  unfold parse_hex_spec.
  assert (K : forall pre ds,
             In pre [""; "0x"; "0X"] ->
             match ds with
             | "" => None
             | String _ _ =>
                 if all_chars is_hex_digit ds && (hex_value ds <? 2 ^ 32)
                 then Some (hex_value ds) else None
             end = Some v ->
             Gui.field_value (pre ++ ds) = Some v).
  { intros pre ds Hpre Hv. destruct ds as [|c ds]; [discriminate|].
    destruct (all_chars is_hex_digit (String c ds)) eqn:Hd; [|discriminate].
    destruct (hex_value (String c ds) <? 2 ^ 32); [|discriminate].
    cbn [andb] in Hv. injection Hv as <-.
    apply field_value_numeral; [exact Hpre | split; [discriminate | exact Hd]]. }
  destruct text as [|c0 [|c1 r]].
  - apply (K "" ""). pick.
  - apply (K "" (String c0 "")). pick.
  - destruct (Ascii.eqb c0 "0" && is_x c1) eqn:Hp;
      [|apply (K "" (String c0 (String c1 r))); pick].
    apply andb_true_iff in Hp. destruct Hp as [H0 Hx].
    apply Ascii.eqb_eq in H0. subst c0. unfold is_x in Hx. apply orb_true_iff in Hx.
    destruct Hx as [Hx|Hx]; apply Ascii.eqb_eq in Hx; subst c1.
    + apply (K "0x" r). pick.
    + apply (K "0X" r). pick.
Qed.

(** C9, counterexample.  The texts "-1" and "100000000" fail the
    validation of the specification, which takes hexadecimal digits after an
    optional prefix and no value beyond 32 bits; yet on an open port the
    handlers send them. *)
Lemma C9_counterexample :
  parse_hex_spec "-1" = None
  /\ wire (snd (Gui.read_custom_register "-1" (Double.opened Double.silent)))
     = [PortWrite (list_byte_of_string ("read 0x-1" ++ CRLF)); ClockSleep 50; PortReadLine]
  /\ parse_hex_spec "100000000" = None
  /\ wire (snd (Gui.write_custom_register "0x20000000" "100000000"
                  (Double.opened Double.silent)))
     = [PortWrite (list_byte_of_string ("write 0x20000000 0x100000000" ++ CRLF));
        ClockSleep 50; PortReadLine].
Proof. repeat split; vm_compute; reflexivity. Qed.

(** C9, as amended.  The validation is that of [int]: on an open port a
    text is held back exactly when [int(text.strip(), 16)] raises.  When the
    address
    text of a custom read has no value, the handler shows "Invalid address
    format. Use hex (e.g., 0x48000010)." and returns, and the port, the
    world behind it and the wire are as they were; when the address text or
    the value text of a custom write has no value, the handler shows
    "Invalid address or value format. Use hex (e.g., 0x48000010)." and
    likewise touches nothing.  Such a text fails the validation of the
    specification too, for what that takes has a value.  But a text that
    has a value is sent on an open port, whether the specification takes it
    or not: the first call on the port is the write of its command. *)
Theorem C9_invalid_text_not_sent {D : Type} {P : Platform D} (w : World D)
        (text other : string) :
  Gui.field_value text = None ->
  Gui.read_custom_register text w
  = (Returned tt,
     {| ser := ser w; dev := dev w; wire := wire w;
        ui := (ui w ++ [Critical "Invalid address format. Use hex (e.g., 0x48000010).";
                        LogAppend
                          (codes "Invalid address format. Use hex (e.g., 0x48000010).")])%list
     |})
  /\ Gui.write_custom_register text other w
     = (Returned tt,
        {| ser := ser w; dev := dev w; wire := wire w;
           ui := (ui w
                  ++ [Critical "Invalid address or value format. Use hex (e.g., 0x48000010).";
                      LogAppend (codes
                        "Invalid address or value format. Use hex (e.g., 0x48000010).")])%list
        |})
  /\ Gui.write_custom_register other text w
     = Gui.write_custom_register text other w
  /\ port_untouched w (snd (Gui.read_custom_register text w))
  /\ port_untouched w (snd (Gui.write_custom_register text other w))
  /\ port_untouched w (snd (Gui.write_custom_register other text w))
  /\ parse_hex_spec text = None
  /\ (forall t v, parse_hex_spec t = Some v -> Gui.field_value t = Some v)
  /\ (forall t address,
        Gui.field_value t = Some address -> Gui.port_is_open w = true ->
        exists rest,
          wire (snd (Gui.read_custom_register t w))
          = (wire w ++ PortWrite (encode (Gui.read_cmd address)) :: rest)%list)
  /\ (forall t1 t2 address value,
        Gui.field_value t1 = Some address -> Gui.field_value t2 = Some value ->
        Gui.port_is_open w = true ->
        exists rest,
          wire (snd (Gui.write_custom_register t1 t2 w))
          = (wire w ++ PortWrite (encode (Gui.write_cmd address value)) :: rest)%list).
Proof.
  intros H.
  assert (E1 : Gui.read_custom_register text w
               = Gui.show_error "Invalid address format. Use hex (e.g., 0x48000010)." w)
    by now rewrite read_custom_register_run, H.
  assert (E2 : Gui.write_custom_register text other w
               = Gui.show_error
                   "Invalid address or value format. Use hex (e.g., 0x48000010)." w)
    by now rewrite write_custom_register_run, H.
  assert (E3 : Gui.write_custom_register other text w
               = Gui.show_error
                   "Invalid address or value format. Use hex (e.g., 0x48000010)." w).
  { rewrite write_custom_register_run, H. now destruct (Gui.field_value other). }
  rewrite E3, E2, E1, !show_error_run.
  do 3 (split; [reflexivity|]). do 3 (split; [repeat split|]).
  split; [|split; [exact parse_hex_spec_field_value|split]].
  - destruct (parse_hex_spec text) as [v|] eqn:Hp; [|reflexivity].
    apply parse_hex_spec_field_value in Hp. congruence.
  - intros t address Ht Ho. rewrite read_custom_register_wire, Ht.
    now apply send_command_first.
  - intros t1 t2 address value H1 H2 Ho. rewrite write_custom_register_wire, H1, H2.
    now apply send_command_first.
Qed.

Lemma C9_invalid_text_not_sent_witness :
  wire (snd (Gui.read_custom_register "0x4800001G" (Double.opened Double.silent))) = []
  /\ wire (snd (Gui.write_custom_register "0x20000000" "" (Double.opened Double.silent)))
     = []
  /\ parse_hex_spec "0x4800001G" = None.
Proof.
  destruct (C9_invalid_text_not_sent (Double.opened Double.silent) "0x4800001G" "")
    as (_ & _ & _ & (_ & _ & H1) & _ & _ & H7 & _); [reflexivity|].
  destruct (C9_invalid_text_not_sent (Double.opened Double.silent) "" "0x20000000")
    as (_ & _ & _ & _ & _ & (_ & _ & H2) & _); [reflexivity|].
  exact (conj H1 (conj H2 H7)).
Defined.

(** ** What the parsing lets through *)

Lemma digit_value_range (c : ascii) :
  0 <= match digit_value c with Some d => d | None => 0 end < 16.
Proof.
  destruct (digit_value c) as [d|] eqn:E; [|lia].
  assert (H : is_hex_digit c = true) by (unfold is_hex_digit; now rewrite E).
  destruct (hex_digit_cases c H) as (d' & Hd & Hr & _). congruence.
Qed.

Lemma hex_value_from_bound (s : string) :
  forall z, 0 <= z ->
  0 <= hex_value_from z s < (z + 1) * 16 ^ Z.of_nat (String.length s).
Proof.
  induction s as [|c s IH]; intros z Hz.
  - simpl. lia.
  - cbn [hex_value_from String.length].
    pose proof (digit_value_range c) as Hd.
    set (d := match digit_value c with Some d => d | None => 0 end) in *.
    destruct (IH (16 * z + d) ltac:(lia)) as [H0 H1].
    rewrite Nat2Z.inj_succ, Z.pow_succ_r by lia.
    assert (Hk : 0 < 16 ^ Z.of_nat (String.length s)) by (apply Z.pow_pos_nonneg; lia).
    split; [exact H0|]. nia.
Qed.

(** An integer of 2^32 or more takes more than eight digits. *)
Lemma format_X_wide (z : Z) : 2 ^ 32 <= z -> (8 < String.length (format_X z))%nat.
Proof.
  intros H. destruct (format_X_minimal z ltac:(lia)) as (_ & _ & Hv & _).
  destruct (hex_value_from_bound (format_X z) 0 ltac:(lia)) as [_ Hb].
  fold (hex_value (format_X z)) in Hb. rewrite Hv in Hb.
  destruct (Nat.lt_ge_cases 8 (String.length (format_X z))) as [|Hle]; [assumption|].
  exfalso.
  assert (16 ^ Z.of_nat (String.length (format_X z)) <= 16 ^ 8)
    by (apply Z.pow_le_mono_r; lia).
  change (16 ^ 8) with (2 ^ 32) in *. lia.
Qed.

(** A literal with a sign, underscores between groups of digits and white
    space around it, in a text field. *)
Lemma field_value_lenient (ws1 sgn g : string) (gs : list string) (ws2 : string) :
  all_chars strip_space ws1 = true -> all_chars strip_space ws2 = true ->
  In sgn [""; "+"; "-"] -> hex_numeral g -> Forall hex_numeral gs ->
  Gui.field_value (ws1 ++ (sgn ++ underscored g gs) ++ ws2)
  = Some (sign_value sgn * hex_value (plain g gs)).
Proof.
  intros H1 H2 Hsgn Hg Hgs. apply field_value_iff.
  exists ws1, (sgn ++ underscored g gs)%string, ws2. repeat split; auto.
  exists sgn, "", g, gs. repeat split; try apply Hg; auto. now left.
Qed.

(** C10.  The parsing of a text field lets through more than hexadecimal
    numerals: a sign in front, white space around, single underscores
    between groups of digits; and no size is refused, every integer being
    the value of the text [format_X] writes for it.  What was parsed goes
    into the command as it is: for a negative value the command reads
    "read 0x-...", whose digits part is no upper-case hexadecimal numeral,
    and for a value of 2^32 or more it has more than eight digits.  So the
    text "-1" in the GUI, or the line "read -1" in the console client, puts
    "read 0x-1" and the line end on the wire, and "100000000" puts
    "read 0x100000000". *)
Theorem C10_lenient_parsing (ws1 sgn g : string) (gs : list string) (ws2 : string) :
  all_chars strip_space ws1 = true -> all_chars strip_space ws2 = true ->
  In sgn [""; "+"; "-"] -> hex_numeral g -> Forall hex_numeral gs ->
  Gui.field_value (ws1 ++ (sgn ++ underscored g gs) ++ ws2)
  = Some (sign_value sgn * hex_value (plain g gs))
  /\ (forall z, Gui.field_value (format_X z) = Some z)
  /\ (forall bound, exists text z, Gui.field_value text = Some z /\ bound < z)
  /\ (forall (D : Type) (P : Platform D) (w : World D) (z : Z),
        Gui.port_is_open w = true ->
        exists rest,
          wire (snd (Gui.read_custom_register (format_X z) w))
          = (wire w ++ PortWrite (encode (Gui.read_cmd z)) :: rest)%list)
  /\ (forall z, z < 0 ->
        Gui.read_cmd z = ("read 0x-" ++ format_X (- z) ++ CRLF)%string
        /\ all_chars is_upper_hex (format_X z) = false)
  /\ (forall z, 2 ^ 32 <= z -> (8 < String.length (format_X z))%nat)
  /\ Gui.field_value "-1" = Some (-1)
  /\ wire (snd (Gui.read_custom_register "-1" (Double.opened Double.silent)))
     = [PortWrite (list_byte_of_string ("read 0x-1" ++ CRLF));
        ClockSleep 50; PortReadLine]
  /\ wire (snd (Cli.main_turn (Cli.Line "read -1") (Double.opened Double.silent)))
     = [PortWrite (list_byte_of_string ("read 0x-1" ++ CRLF)); PortReadLine]
  /\ wire (snd (Gui.read_custom_register "100000000" (Double.opened Double.silent)))
     = [PortWrite (list_byte_of_string ("read 0x100000000" ++ CRLF));
        ClockSleep 50; PortReadLine].
Proof.
  intros H1 H2 Hsgn Hg Hgs.
  split; [now apply field_value_lenient|]. split; [exact field_value_format_X|].
  split; [|split; [|split; [|split; [exact format_X_wide|]]]].
  - intros bound. exists (format_X (bound + 1)), (bound + 1).
    split; [apply field_value_format_X | lia].
  - intros D P w z Hopen.
    rewrite read_custom_register_wire, field_value_format_X.
    now apply send_command_first.
  - intros z Hz. unfold Gui.read_cmd. rewrite (format_X_neg z Hz). split; reflexivity.
  - repeat split; vm_compute; reflexivity.
Qed.

Lemma C10_lenient_parsing_witness :
  Gui.field_value " -1_0 " = Some (-16).
Proof.
  destruct (C10_lenient_parsing " " "-" "1" ["0"] " ") as (H & _);
    [reflexivity | reflexivity | pick | split; [discriminate | reflexivity]
    | repeat constructor; discriminate | exact H].
Defined.

(** * Further properties *)

(** X1.  Opening the port in the GUI.  With no port name typed nothing is
    opened and the user is asked for one; when the driver refuses with a
    [SerialException] the error is shown and [self.ser] stays what it was,
    so a client that had no port still has none; when the driver accepts,
    [self.ser] is an open port, the connection is logged and the buttons
    are enabled.  No byte is written in any of the three cases. *)
Theorem X1_connect_serial {D : Type} {P : Platform D} (w : World D)
        (port_text : string) (baud : Z) :
  (strip port_text = "" ->
   Gui.connect_serial port_text baud w
   = Gui.show_error "Please enter a COM port (e.g., COM5)." w)
  /\ (forall d e,
        strip port_text <> "" ->
        serial_open (dev w) (strip port_text) baud = (d, Some e) ->
        is_SerialException e = true ->
        Gui.connect_serial port_text baud w
        = (Returned tt,
           {| ser := ser w; dev := d; wire := wire w;
              ui := (ui w ++ [Critical ("Failed to open serial port: " ++ exn_str e);
                              LogAppend (codes ("Failed to open serial port: "
                                                ++ exn_str e))])%list |}))
  /\ (forall d,
        strip port_text <> "" ->
        serial_open (dev w) (strip port_text) baud = (d, None) ->
        fst (Gui.connect_serial port_text baud w) = Returned tt
        /\ Gui.port_is_open (snd (Gui.connect_serial port_text baud w)) = true
        /\ wire (snd (Gui.connect_serial port_text baud w)) = wire w).
Proof.
  split; [|split].
  - intros H. unfold Gui.connect_serial. now rewrite H.
  - intros d e Hne Ho He. unfold Gui.connect_serial.
    destruct (String.eqb_spec (strip port_text) ""); [contradiction|].
    unfold try_except. rewrite Ho, He. run. now rewrite <- app_assoc.
  - intros d Hne Ho. unfold Gui.connect_serial.
    destruct (String.eqb_spec (strip port_text) ""); [contradiction|].
    unfold try_except. rewrite Ho. run. repeat split.
Qed.

Lemma X1_connect_serial_witness :
  Gui.port_is_open (snd (Gui.connect_serial " COM5 " 115200 (Gui.init Double.silent)))
  = true
  /\ Gui.port_is_open (snd (Gui.connect_serial "COM5" 115200 (Gui.init Double.busy)))
     = false.
Proof.
  destruct (X1_connect_serial (Gui.init Double.silent) " COM5 " 115200) as (_ & _ & H).
  destruct (H Double.silent) as (_ & H1 & _); [discriminate | reflexivity |].
  destruct (X1_connect_serial (Gui.init Double.busy) "COM5" 115200) as (_ & H2 & _).
  split; [exact H1|].
  rewrite (H2 Double.silent Double.io_fault); [reflexivity | discriminate | reflexivity
                                              | reflexivity].
Defined.

(** X2.  The scenario of the specification, in both clients: the port is
    open, a write of 0xDEADBEEF to 0x20000000 is asked for, the device
    answers "OK" and a line end.  The bytes of
    "write 0x20000000 0xDEADBEEF" and the line end go to the port, and the
    response is "OK". *)
Theorem X2_write_then_ok :
  Cli.write_register 0x20000000 0xDEADBEEF
    (Double.opened (Double.answering [inr Double.ok_line]))
  = (Returned (codes "OK"),
     {| ser := Some {| is_open := true |}; dev := Double.silent;
        wire := [PortWrite (list_byte_of_string ("write 0x20000000 0xDEADBEEF" ++ CRLF));
                 PortReadLine];
        ui := [] |})
  /\ Gui.write_custom_register "0x20000000" "0xDEADBEEF"
       (Double.opened (Double.answering [inr Double.ok_line]))
     = (Returned tt,
        {| ser := Some {| is_open := true |}; dev := Double.silent;
           wire := [PortWrite (list_byte_of_string ("write 0x20000000 0xDEADBEEF" ++ CRLF));
                    ClockSleep 50; PortReadLine];
           ui := [LogAppend (codes (">> write 0x20000000 0xDEADBEEF" ++ String LF "OK"));
                  LogAppend (codes "Wrote 0xDEADBEEF to 0x20000000: OK")] |}).
Proof. split; vm_compute; reflexivity. Qed.

(** X3.  The console client and its port.  When the port cannot be opened
    [main] prints the failure and ends without a call on any port.  When it
    opens and the user types "exit", [main] leaves the loop and closes the
    port: the close is the only call. *)
Theorem X3_main_port {D : Type} {P : Platform D} (w : World D) (d : D) :
  (forall e inputs,
     serial_open (dev w) Cli.SERIAL_PORT Cli.BAUD_RATE = (d, Some e) ->
     is_SerialException e = true ->
     Cli.main inputs w
     = (Returned tt,
        {| ser := None; dev := d; wire := wire w;
           ui := (ui w ++ [Printed (codes ("Failed to open serial port: " ++ exn_str e))])%list
        |}))
  /\ (forall rest,
        serial_open (dev w) Cli.SERIAL_PORT Cli.BAUD_RATE = (d, None) ->
        fst (Cli.main (Cli.Line "exit" :: rest) w) = Returned tt
        /\ wire (snd (Cli.main (Cli.Line "exit" :: rest) w)) = (wire w ++ [PortClose])%list
        /\ ser (snd (Cli.main (Cli.Line "exit" :: rest) w)) = Some {| is_open := false |}).
Proof.
  split.
  - intros e inputs Ho He. unfold Cli.main, Cli.open_serial, bind at 1, try_except.
    rewrite Ho, He. run. reflexivity.
  - intros rest Ho.
    assert (E : Cli.main (Cli.Line "exit" :: rest) w
                = (Returned tt,
                   {| ser := Some {| is_open := false |}; dev := serial_close d;
                      wire := (wire w ++ [PortClose])%list;
                      ui := (ui w
                             ++ [Printed
                                   (codes ("Connected to " ++ Cli.SERIAL_PORT ++ " at "
                                           ++ NilZero.string_of_int (Z.to_int Cli.BAUD_RATE)
                                           ++ " baud."));
                                 Prompted ">> ";
                                 Printed (codes "Exiting...")])%list |})).
    { unfold Cli.main, Cli.open_serial, bind at 1, try_except.
      rewrite Ho. run. cbn [Cli.main_loop]. run.
      unfold Cli.main_turn. run.
      change (strip "exit") with "exit". cbn [String.eqb Ascii.eqb Bool.eqb]. run.
      unfold ser_close. run. now rewrite <- !app_assoc. }
    rewrite E. repeat split.
Qed.

Lemma X3_main_port_witness :
  wire (snd (Cli.main [Cli.Line "exit"] (Gui.init Double.silent))) = [PortClose]
  /\ wire (snd (Cli.main [Cli.Line "read 0x0"] (Gui.init Double.busy))) = [].
Proof.
  destruct (X3_main_port (Gui.init Double.silent) Double.silent) as (_ & H1).
  destruct (H1 [] eq_refl) as (_ & H2 & _).
  destruct (X3_main_port (Gui.init Double.busy) Double.silent) as (H3 & _).
  split; [exact H2|].
  now rewrite (H3 Double.io_fault [Cli.Line "read 0x0"] eq_refl eq_refl).
Defined.

(** ** What a handler adds, and what it leaves alone *)

Section Frames.
Context {D : Type} {P : Platform D}.

Lemma handled_log (w w' : World D) (popup not_open : bool) (line : pystr) :
  handled w w' popup not_open ->
  handled w (on_ui (LogAppend line) w') popup not_open.
Proof.
  intros (calls & shown & (Hs & Hw & Hu) & Hc & Hq & Hp & Hn).
  exists calls, (shown ++ [LogAppend line])%list.
  split; [repeat split; cbn [on_ui ser wire ui]; auto; now rewrite Hu, app_assoc|].
  rewrite forallb_app, !existsb_app, Hq, Hp, Hn. cbn. now rewrite !orb_false_r.
Qed.

Lemma handled_show_error (w : World D) (msg : string) :
  handled w (snd (Gui.show_error msg w)) true (String.eqb msg "Serial port not open.").
Proof.
  rewrite show_error_run. exists [], [Critical msg; LogAppend (codes msg)].
  split; [repeat split; cbn [snd ser wire ui]; now rewrite ?app_nil_r|].
  cbn. now rewrite orb_false_r.
Qed.

Lemma send_command_handled (cmd : string) (w : World D) :
  handled w (snd (Gui.send_command cmd w))
    (negb (Gui.port_is_open w) || exchange_fails cmd w)
    (negb (Gui.port_is_open w)).
Proof.
  destruct (Gui.port_is_open w) eqn:Ho.
  - rewrite (send_command_open cmd w Ho). unfold exchange_fails. cbn [negb orb].
    destruct (serial_write (dev w) (encode cmd)) as [d1 [e|]].
    + eexists _, _. split; [repeat split|]. repeat split.
    + destruct (serial_readline d1) as [d2 [e|bs]];
        (eexists _, _; split; [repeat split|]; repeat split).
  - rewrite (send_command_closed cmd w Ho). cbn [negb orb].
    exists [], [Critical "Serial port not open."; LogAppend (codes "Serial port not open.")].
    split; [repeat split; cbn [snd ser wire ui]; now rewrite ?app_nil_r|].
    repeat split.
Qed.

Lemma read_scb_register_handled (address : Z) (name : string) (w : World D) :
  handled w (snd (Gui.read_scb_register address name w))
    (negb (Gui.port_is_open w) || exchange_fails (Gui.read_cmd address) w)
    (negb (Gui.port_is_open w)).
Proof.
  rewrite read_scb_register_run.
  pose proof (send_command_handled (Gui.read_cmd address) w) as H.
  destruct (Gui.send_command (Gui.read_cmd address) w) as [[r|e] w']; [|exact H].
  now apply handled_log.
Qed.

Lemma read_custom_register_handled (text : string) (w : World D) :
  handled w (snd (Gui.read_custom_register text w))
    match Gui.field_value text with
    | Some address => negb (Gui.port_is_open w) || exchange_fails (Gui.read_cmd address) w
    | None => true
    end
    match Gui.field_value text with
    | Some _ => negb (Gui.port_is_open w)
    | None => false
    end.
Proof.
  rewrite read_custom_register_run.
  destruct (Gui.field_value text) as [address|]; [|apply handled_show_error].
  pose proof (send_command_handled (Gui.read_cmd address) w) as H.
  destruct (send_command_returns (Gui.read_cmd address) w) as [r Hr].
  destruct (Gui.send_command (Gui.read_cmd address) w) as [[r'|e] w']; [|discriminate].
  now apply handled_log.
Qed.

Lemma write_custom_register_handled (addr_text val_text : string) (w : World D) :
  handled w (snd (Gui.write_custom_register addr_text val_text w))
    match Gui.field_value addr_text, Gui.field_value val_text with
    | Some address, Some value =>
        negb (Gui.port_is_open w) || exchange_fails (Gui.write_cmd address value) w
    | _, _ => true
    end
    match Gui.field_value addr_text, Gui.field_value val_text with
    | Some _, Some _ => negb (Gui.port_is_open w)
    | _, _ => false
    end.
Proof.
  rewrite write_custom_register_run.
  destruct (Gui.field_value addr_text) as [address|]; [|apply handled_show_error].
  destruct (Gui.field_value val_text) as [value|]; [|apply handled_show_error].
  pose proof (send_command_handled (Gui.write_cmd address value) w) as H.
  destruct (send_command_returns (Gui.write_cmd address value) w) as [r Hr].
  destruct (Gui.send_command (Gui.write_cmd address value) w) as [[r'|e] w'];
    [|discriminate].
  now apply handled_log.
Qed.

End Frames.

(** X4.  The handlers of the register buttons never open or close the
    port and never touch the buttons: after [send_command],
    [read_scb_register], [read_custom_register] or [write_custom_register]
    the port object is the one it was, also when the exchange failed, the
    wire has only grown, by no close, and the widgets have only seen added
    popups and log lines.  A popup is added exactly when the text has no
    value, or no port is open, or the write or the read raised; it is the
    popup "Serial port not open." exactly when the text has a value and no
    port is open. *)
Theorem X4_handlers_frame {D : Type} {P : Platform D} (w : World D) :
  (forall cmd,
     handled w (snd (Gui.send_command cmd w))
       (negb (Gui.port_is_open w) || exchange_fails cmd w)
       (negb (Gui.port_is_open w)))
  /\ (forall address name,
        handled w (snd (Gui.read_scb_register address name w))
          (negb (Gui.port_is_open w) || exchange_fails (Gui.read_cmd address) w)
          (negb (Gui.port_is_open w)))
  /\ (forall text,
        handled w (snd (Gui.read_custom_register text w))
          match Gui.field_value text with
          | Some address =>
              negb (Gui.port_is_open w) || exchange_fails (Gui.read_cmd address) w
          | None => true
          end
          match Gui.field_value text with
          | Some _ => negb (Gui.port_is_open w)
          | None => false
          end)
  /\ (forall addr_text val_text,
        handled w (snd (Gui.write_custom_register addr_text val_text w))
          match Gui.field_value addr_text, Gui.field_value val_text with
          | Some address, Some value =>
              negb (Gui.port_is_open w) || exchange_fails (Gui.write_cmd address value) w
          | _, _ => true
          end
          match Gui.field_value addr_text, Gui.field_value val_text with
          | Some _, Some _ => negb (Gui.port_is_open w)
          | _, _ => false
          end).
Proof.
  split; [|split; [|split]].
  - intros cmd. apply send_command_handled.
  - intros address name. apply read_scb_register_handled.
  - intros text. apply read_custom_register_handled.
  - intros addr_text val_text. apply write_custom_register_handled.
Qed.

(** ** A session at the window *)

Lemma buttons_after_app (b : Widgets.buttons) (l1 l2 : list ui_event) :
  Widgets.buttons_after b (l1 ++ l2)
  = Widgets.buttons_after (Widgets.buttons_after b l1) l2.
Proof.
  revert b. induction l1 as [|e l1 IH]; intros b; [reflexivity|].
  destruct e; cbn [app Widgets.buttons_after]; apply IH.
Qed.

Lemma buttons_after_quiet (b : Widgets.buttons) (l : list ui_event) :
  forallb (fun e => negb (is_set_connected e)) l = true ->
  Widgets.buttons_after b l = b.
Proof.
  induction l as [|e l IH]; [reflexivity|]. cbn [forallb]. intros H.
  apply andb_true_iff in H. destruct H as [He Hl].
  destruct e; cbn [Widgets.buttons_after]; auto; discriminate.
Qed.

Section Sessions.
Context {D : Type} {P : Platform D}.

(** The buttons say what the port is, and no command was ever refused for
    want of a port. *)
Let sound (w : World D) : Prop :=
  in_step w /\ existsb is_not_open_popup (ui w) = false.

Lemma handled_sound (w w' : World D) (popup : bool) :
  handled w w' popup false -> sound w -> sound w'.
Proof.
  intros (calls & shown & (Hs & Hw & Hu) & Hc & Hq & Hp & Hn) [Hi Hr].
  unfold sound, in_step, Widgets.buttons_of, Gui.port_is_open in *.
  rewrite Hs, Hu, buttons_after_app, Hi, existsb_app, Hr, Hn.
  split; [now apply buttons_after_quiet | reflexivity].
Qed.

Lemma connect_serial_cases (port_text : string) (baud : Z) (w : World D) :
  Gui.connect_serial port_text baud w =
  if String.eqb (strip port_text) "" then
    Gui.show_error "Please enter a COM port (e.g., COM5)." w
  else
    match serial_open (dev w) (strip port_text) baud with
    | (d, None) =>
        (Returned tt,
         {| ser := Some {| is_open := true |}; dev := d; wire := wire w;
            ui := (ui w
                   ++ [LogAppend
                         (codes ("Connected to " ++ strip port_text ++ " at "
                                 ++ NilZero.string_of_int (Z.to_int baud) ++ " baud."));
                       SetConnected true])%list |})
    | (d, Some e) =>
        if is_SerialException e
        then Gui.show_error ("Failed to open serial port: " ++ exn_str e) (set_dev d w)
        else (Raised e, set_dev d w)
    end.
Proof.
  unfold Gui.connect_serial.
  destruct (String.eqb (strip port_text) ""); [reflexivity|].
  unfold try_except.
  destruct (serial_open (dev w) (strip port_text) baud) as [d [e|]]; [reflexivity|].
  run. now rewrite <- app_assoc.
Qed.

Lemma connect_serial_sound (port_text : string) (baud : Z) (w : World D) :
  sound w -> sound (snd (Gui.connect_serial port_text baud w)).
Proof.
  intros Hw. rewrite connect_serial_cases.
  destruct (String.eqb (strip port_text) "").
  - exact (handled_sound _ _ _
             (handled_show_error w "Please enter a COM port (e.g., COM5).") Hw).
  - destruct (serial_open (dev w) (strip port_text) baud) as [d [e|]].
    + assert (Hd : sound (set_dev d w)) by exact Hw.
      destruct (is_SerialException e); [|exact Hd].
      exact (handled_sound _ _ _
               (handled_show_error (set_dev d w)
                  ("Failed to open serial port: " ++ exn_str e)) Hd).
    + destruct Hw as [Hi Hr].
      unfold sound, in_step, Widgets.buttons_of in *. cbn [snd ui ser Gui.port_is_open is_open].
      rewrite buttons_after_app, existsb_app, Hr. split; reflexivity.
Qed.

Lemma disconnect_serial_sound (w : World D) :
  sound w -> sound (snd (Gui.disconnect_serial w)).
Proof.
  intros [Hi Hr]. rewrite disconnect_serial_run.
  unfold sound, in_step, Widgets.buttons_of.
  destruct (Gui.port_is_open w) eqn:Ho;
    cbn [snd ui]; rewrite buttons_after_app, existsb_app, Hr.
  - split; reflexivity.
  - split; [|reflexivity]. cbn [Widgets.buttons_after].
    apply (f_equal Widgets.set_connected_state). symmetry. exact Ho.
Qed.

Lemma sound_enabled (w : World D) :
  sound w ->
  Widgets.read_enabled (Widgets.buttons_of w) = Gui.port_is_open w
  /\ Widgets.write_enabled (Widgets.buttons_of w) = Gui.port_is_open w
  /\ Widgets.disconnect_enabled (Widgets.buttons_of w) = Gui.port_is_open w
  /\ Widgets.connect_enabled (Widgets.buttons_of w) = negb (Gui.port_is_open w)
  /\ Widgets.scb_enabled (Widgets.buttons_of w)
     = map (fun _ => Gui.port_is_open w) Gui.SCB_REGISTERS.
Proof. intros [Hi _]. unfold in_step in Hi. rewrite Hi. repeat split. Qed.

Lemma press_sound (a : Widgets.action) (w : World D) :
  sound w -> sound (snd (Widgets.press a w)).
Proof.
  intros Hw. destruct (sound_enabled w Hw) as (Hr & Hwr & Hd & Hc & Hscb).
  unfold Widgets.press. destruct a as [port_text baud| |i|text|addr_text val_text].
  - rewrite Hc. destruct (Gui.port_is_open w); [exact Hw|].
    now apply connect_serial_sound.
  - rewrite Hd. destruct (Gui.port_is_open w); [|exact Hw].
    now apply disconnect_serial_sound.
  - rewrite Hscb. unfold Gui.scb_buttons. rewrite !nth_error_map.
    destruct (nth_error Gui.SCB_REGISTERS i) as [[name address]|]; [|exact Hw].
    cbn [option_map]. destruct (Gui.port_is_open w) eqn:Ho; [|exact Hw].
    pose proof (read_scb_register_handled address name w) as H.
    rewrite Ho in H. exact (handled_sound _ _ _ H Hw).
  - rewrite Hr. destruct (Gui.port_is_open w) eqn:Ho; [|exact Hw].
    pose proof (read_custom_register_handled text w) as H. rewrite Ho in H.
    destruct (Gui.field_value text); exact (handled_sound _ _ _ H Hw).
  - rewrite Hwr. destruct (Gui.port_is_open w) eqn:Ho; [|exact Hw].
    pose proof (write_custom_register_handled addr_text val_text w) as H. rewrite Ho in H.
    destruct (Gui.field_value addr_text); [destruct (Gui.field_value val_text)|];
      exact (handled_sound _ _ _ H Hw).
Qed.

Lemma session_sound (l : list Widgets.action) (w : World D) :
  sound w -> sound (snd (Widgets.session l w)).
Proof.
  revert w. induction l as [|a l IH]; intros w Hw; [exact Hw|].
  cbn [Widgets.session]. unfold bind.
  pose proof (press_sound a w Hw) as Ha.
  destruct (Widgets.press a w) as [[[]|e] w']; [now apply IH | exact Ha].
Qed.

Lemma init_sound (d : D) : sound (Gui.init d).
Proof. split; reflexivity. Qed.

(** After any presses on a window made by [__init__], the buttons say what
    the port is and no command was refused for want of a port. *)
Lemma session_from_init (l : list Widgets.action) (d : D) :
  in_step (snd (Widgets.session l (Gui.init d)))
  /\ existsb is_not_open_popup (ui (snd (Widgets.session l (Gui.init d)))) = false.
Proof. exact (session_sound l (Gui.init d) (init_sound d)). Qed.

End Sessions.

(** X5.  A user at the window can only press the buttons that are enabled;
    [init_ui] and [set_connected_state] keep them in step with the port.
    From a window made by [__init__], after any presses of any buttons with
    any texts in the fields, whatever the port and the device answered: the
    read, write, SCB and disconnect buttons are enabled exactly when a port
    is open, the connect button exactly when none is, and the popup "Serial
    port not open." has never been shown, so no command was ever tried
    without a port. *)
Theorem X5_session_in_step {D : Type} {P : Platform D} (l : list Widgets.action)
        (d : D) :
  Widgets.buttons_of (snd (Widgets.session l (Gui.init d)))
  = Widgets.set_connected_state (Gui.port_is_open (snd (Widgets.session l (Gui.init d))))
  /\ existsb is_not_open_popup (ui (snd (Widgets.session l (Gui.init d)))) = false.
Proof. exact (session_from_init l d). Qed.

(** ** The console loop *)

Lemma grows_refl {D : Type} (w : World D) : grows w w [] [].
Proof. repeat split; now rewrite app_nil_r. Qed.

Lemma grows_trans {D : Type} (w w1 w2 : World D) (c1 c2 : list wire_event)
      (s1 s2 : list ui_event) :
  grows w w1 c1 s1 -> grows w1 w2 c2 s2 -> grows w w2 (c1 ++ c2) (s1 ++ s2).
Proof.
  intros (H1 & H2 & H3) (K1 & K2 & K3). repeat split.
  - congruence.
  - now rewrite K2, H2, app_assoc.
  - now rewrite K3, H3, app_assoc.
Qed.

Lemma grows_on_ui {D : Type} (w : World D) (e : ui_event) : grows w (on_ui e w) [] [e].
Proof. repeat split. cbn [on_ui wire]. now rewrite app_nil_r. Qed.

Section ConsoleTurns.
Context {D : Type} {P : Platform D}.

(** [read_register] and [write_register] are the exchange of their command. *)
Lemma cli_registers_exchange (address value : Z) :
  Cli.read_register address = Console.exchange (Gui.read_cmd address)
  /\ Cli.write_register address value = Console.exchange (Gui.write_cmd address value).
Proof. split; reflexivity. Qed.

(** A turn on a line does what the stripped line asks for. *)
Lemma main_turn_answer (text : string) (w : World D) :
  Cli.main_turn (Cli.Line text) w = Console.answer (Console.request_of (strip text)) w.
Proof.
  unfold Cli.main_turn, Console.request_of, Console.answer, Console.report,
    Console.complain, try_except.
  destruct (String.eqb (strip text) "exit"); [reflexivity|].
  destruct (startswith (strip text) "read ").
  - destruct (split (strip text)) as [|a [|b [|c l]]]; try reflexivity.
    unfold int_base16, bind at 1. destruct (int16 b) as [addr|]; [|reflexivity].
    unfold ret at 1, bind.
    change (Cli.read_register addr) with (Console.exchange (Gui.read_cmd addr)).
    destruct (Console.exchange (Gui.read_cmd addr) w) as [[r|e] w']; reflexivity.
  - destruct (startswith (strip text) "write "); [|reflexivity].
    destruct (split (strip text)) as [|a [|b [|c [|c' l]]]]; try reflexivity.
    unfold int_base16, bind at 1. destruct (int16 b) as [addr|]; [|reflexivity].
    unfold ret at 1, bind at 1. destruct (int16 c) as [val|]; [|reflexivity].
    unfold ret at 1, bind.
    change (Cli.write_register addr val) with (Console.exchange (Gui.write_cmd addr val)).
    destruct (Console.exchange (Gui.write_cmd addr val) w) as [[r|e] w']; reflexivity.
Qed.

(** The exchange keeps the port object and the widgets, and adds to the
    wire at most a write and a read. *)
Lemma exchange_grows (cmd : string) (w : World D) :
  exists calls,
    grows w (snd (Console.exchange cmd w)) calls []
    /\ forallb (fun e => negb (is_close e)) calls = true
    /\ (Gui.port_is_open w = false -> calls = []).
Proof.
  unfold Console.exchange, bind, ser_write, ser_readline, decode, grows.
  destruct (ser w) as [[[]]|] eqn:Hs; cbn [is_open].
  - destruct (serial_write (dev w) (encode cmd)) as [d1 [e|]].
    + exists [PortWrite (encode cmd)]. cbn. rewrite Hs, app_nil_r.
      unfold Gui.port_is_open. rewrite Hs. repeat split; discriminate.
    + cbn [set_dev on_wire ser dev wire ui]. rewrite Hs. cbn [is_open].
      exists [PortWrite (encode cmd); PortReadLine].
      unfold Gui.port_is_open. rewrite Hs.
      destruct (serial_readline d1) as [d2 [e|bs]];
        [|destruct (decode_strict bs)];
        cbn; rewrite ?Hs, ?app_nil_r, <- ?app_assoc; repeat split; discriminate.
  - exists []. cbn. rewrite Hs, !app_nil_r. repeat split.
  - exists []. cbn. rewrite Hs, !app_nil_r. repeat split.
Qed.

(** What answering a request does: it returns whether to leave, prints
    one line, keeps the port object, and calls the port only to send. *)
Lemma answer_grows (q : Console.request) (w : World D) :
  exists calls line,
    fst (Console.answer q w)
    = Returned match q with Console.Leave => true | _ => false end
    /\ grows w (snd (Console.answer q w)) calls [Printed line]
    /\ forallb (fun e => negb (is_close e)) calls = true
    /\ (Console.is_send q && Gui.port_is_open w = false -> calls = []).
Proof.
  destruct q as [|cmd| |e]; cbn [Console.answer Console.is_send andb].
  - eexists [], _. repeat split. cbn. now rewrite app_nil_r.
  - destruct (exchange_grows cmd w) as (calls & Hg & Hc & Hz).
    unfold Console.report, Console.complain.
    destruct (Console.exchange cmd w) as [[r|e] w']; cbn [fst snd] in *.
    + exists calls, r. split; [reflexivity|]. split; [|split; [exact Hc | exact Hz]].
      pose proof (grows_trans _ _ _ _ _ _ _ Hg (grows_on_ui w' (Printed r))) as G.
      rewrite app_nil_r in G. exact G.
    + exists calls, (codes ("Error: " ++ exn_str e)).
      split; [reflexivity|]. split; [|split; [exact Hc | exact Hz]].
      pose proof (grows_trans _ _ _ _ _ _ _ Hg
                    (grows_on_ui w' (Printed (codes ("Error: " ++ exn_str e))))) as G.
      rewrite app_nil_r in G. exact G.
  - eexists [], _. repeat split. cbn. now rewrite app_nil_r.
  - eexists [], _. repeat split. cbn. now rewrite app_nil_r.
Qed.

Lemma request_leaves (text : string) :
  match Console.request_of (strip text) with Console.Leave => true | _ => false end
  = leaves (Cli.Line text).
Proof.
  unfold Console.request_of, leaves.
  destruct (String.eqb (strip text) "exit"); [reflexivity|].
  destruct (startswith (strip text) "read ").
  - destruct (split (strip text)) as [|a [|b [|c l]]]; try reflexivity.
    destruct (int16 b); reflexivity.
  - destruct (startswith (strip text) "write "); [|reflexivity].
    destruct (split (strip text)) as [|a [|b [|c [|c' l]]]]; try reflexivity.
    destruct (int16 b); [destruct (int16 c)|]; reflexivity.
Qed.

(** A turn never raises: it says whether to leave, keeps the port object,
    never closes the port, and prints one line. *)
Lemma main_turn_grows (i : Cli.console_input) (w : World D) :
  exists calls line,
    fst (Cli.main_turn i w) = Returned (leaves i)
    /\ grows w (snd (Cli.main_turn i w)) calls [Printed line]
    /\ forallb (fun e => negb (is_close e)) calls = true.
Proof.
  destruct i as [text|].
  - rewrite main_turn_answer, <- request_leaves.
    destruct (answer_grows (Console.request_of (strip text)) w)
      as (calls & line & H1 & H2 & H3 & _).
    exists calls, line. auto.
  - eexists [], _. repeat split. cbn. now rewrite app_nil_r.
Qed.

Lemma main_loop_cons (i : Cli.console_input) (rest : list Cli.console_input)
      (w : World D) :
  Cli.main_loop (i :: rest) w =
  match Cli.main_turn i (on_ui (Prompted ">> ") w) with
  | (Returned true, w') => (Returned true, w')
  | (Returned false, w') => Cli.main_loop rest w'
  | (Raised e, w') => (Raised e, w')
  end.
Proof.
  cbn [Cli.main_loop]. unfold bind, modify.
  destruct (Cli.main_turn i (on_ui (Prompted ">> ") w)) as [[[]|e] w']; reflexivity.
Qed.

(** The loop returns whether some input made it leave; it keeps the port
    object and never closes the port. *)
Lemma main_loop_grows (inputs : list Cli.console_input) (w : World D) :
  exists calls shown,
    fst (Cli.main_loop inputs w) = Returned (existsb leaves inputs)
    /\ grows w (snd (Cli.main_loop inputs w)) calls shown
    /\ forallb (fun e => negb (is_close e)) calls = true.
Proof.
  revert w. induction inputs as [|i rest IH]; intros w.
  - eexists [], _. repeat split. cbn. now rewrite app_nil_r.
  - rewrite main_loop_cons. cbn [existsb].
    destruct (main_turn_grows i (on_ui (Prompted ">> ") w)) as (c1 & line & Hr & Hg & Hc).
    destruct (Cli.main_turn i (on_ui (Prompted ">> ") w)) as [[b|e] w2];
      cbn [fst snd] in *; [|discriminate].
    injection Hr as ->.
    pose proof (grows_trans _ _ _ _ _ _ _ (grows_on_ui w (Prompted ">> ")) Hg) as Hg1.
    destruct (leaves i); cbn [orb].
    + eexists _, _. split; [reflexivity|]. split; [exact Hg1 | exact Hc].
    + destruct (IH w2) as (c2 & s2 & Hr2 & Hg2 & Hc2).
      eexists _, _. split; [exact Hr2|].
      split; [exact (grows_trans _ _ _ _ _ _ _ Hg1 Hg2)|].
      cbn [app]. now rewrite forallb_app, Hc, Hc2.
Qed.

(** The inputs after the one that makes the loop leave are never read. *)
Lemma main_loop_cut (l1 : list Cli.console_input) (i : Cli.console_input)
      (l2 : list Cli.console_input) (w : World D) :
  leaves i = true ->
  Cli.main_loop (l1 ++ i :: l2) w = Cli.main_loop (l1 ++ [i]) w.
Proof.
  intros Hi. revert w. induction l1 as [|j l1 IH]; intros w; cbn [app];
    rewrite !main_loop_cons.
  - destruct (main_turn_grows i (on_ui (Prompted ">> ") w)) as (c & line & Hr & _).
    destruct (Cli.main_turn i (on_ui (Prompted ">> ") w)) as [[b|e] w2]; [|reflexivity].
    cbn [fst] in Hr. injection Hr as ->. now rewrite Hi.
  - destruct (Cli.main_turn j (on_ui (Prompted ">> ") w)) as [[[]|e] w2];
      [reflexivity | apply IH | reflexivity].
Qed.

End ConsoleTurns.

(** X6.  The console client from the opened port to its end.  When the
    port opens, [main] never raises, whatever is typed and whatever the
    port and the device answer: every exception of a turn is printed and the
    loop goes on.  The port object stays open through the loop and no turn
    closes it; when an input makes the loop leave (the line "exit" or
    Ctrl+C), [main] closes the port, as its last call, and the inputs after
    that one are never read; while no such input has come, the port is
    still open. *)
Theorem X6_main_lifecycle {D : Type} {P : Platform D} (w : World D) (d : D)
        (inputs : list Cli.console_input) :
  serial_open (dev w) Cli.SERIAL_PORT Cli.BAUD_RATE = (d, None) ->
  fst (Cli.main inputs w) = Returned tt
  /\ (exists calls,
        wire (snd (Cli.main inputs w))
        = (wire w ++ calls ++ (if existsb leaves inputs then [PortClose] else []))%list
        /\ forallb (fun e => negb (is_close e)) calls = true)
  /\ Gui.port_is_open (snd (Cli.main inputs w)) = negb (existsb leaves inputs)
  /\ (forall l1 i l2,
        inputs = (l1 ++ i :: l2)%list -> leaves i = true ->
        Cli.main inputs w = Cli.main (l1 ++ [i]) w).
Proof.
  intros Ho.
  assert (E : forall l, Cli.main l w =
              let w0 := {| ser := Some {| is_open := true |}; dev := d; wire := wire w;
                           ui := (ui w ++ [Printed
                                   (codes ("Connected to " ++ Cli.SERIAL_PORT ++ " at "
                                           ++ NilZero.string_of_int (Z.to_int Cli.BAUD_RATE)
                                           ++ " baud."))])%list |} in
              match Cli.main_loop l w0 with
              | (Returned true, w') => ser_close w'
              | (Returned false, w') => (Returned tt, w')
              | (Raised e, w') => (Raised e, w')
              end).
  { intros l. unfold Cli.main, Cli.open_serial, bind at 1, try_except. rewrite Ho.
    unfold Cli.print, modify, bind, get. cbn [on_ui set_ser set_dev ser dev wire ui].
    destruct (Cli.main_loop l _) as [[[]|e] w']; reflexivity. }
  split; [|split; [|split]].
  - rewrite E. cbv zeta.
    match goal with |- context [Cli.main_loop inputs ?w0] =>
      destruct (main_loop_grows inputs w0) as (calls & shown & Hr & (Hs & _) & _);
      destruct (Cli.main_loop inputs w0) as [[b|e] w'] end;
      cbn [fst snd] in *; [|discriminate].
    destruct b; [|reflexivity]. unfold ser_close. rewrite Hs. reflexivity.
  - rewrite E. cbv zeta.
    match goal with |- context [Cli.main_loop inputs ?w0] =>
      destruct (main_loop_grows inputs w0) as (calls & shown & Hr & (Hs & Hw & _) & Hc);
      destruct (Cli.main_loop inputs w0) as [[b|e] w'] end;
      cbn [fst snd ser wire] in *; [|discriminate].
    injection Hr as ->. exists calls. split; [|exact Hc].
    destruct (existsb leaves inputs).
    + unfold ser_close. rewrite Hs. cbn. now rewrite Hw, app_assoc.
    + cbn. now rewrite Hw, app_nil_r.
  - rewrite E. cbv zeta.
    match goal with |- context [Cli.main_loop inputs ?w0] =>
      destruct (main_loop_grows inputs w0) as (calls & shown & Hr & (Hs & _) & _);
      destruct (Cli.main_loop inputs w0) as [[b|e] w'] end;
      cbn [fst snd ser] in *; [|discriminate].
    injection Hr as ->.
    destruct (existsb leaves inputs).
    + unfold ser_close. rewrite Hs. reflexivity.
    + unfold Gui.port_is_open. cbn [snd]. now rewrite Hs.
  - intros l1 i l2 -> Hi. rewrite !E. cbv zeta. now rewrite (main_loop_cut l1 i l2 _ Hi).
Qed.

Lemma X6_main_lifecycle_witness :
  wire (snd (Cli.main [Cli.Line "read 0x48000010"; Cli.Line "bogus"; Cli.Interrupt;
                       Cli.Line "read 0x0"]
               (Gui.init Double.silent)))
  = [PortWrite (list_byte_of_string (Gui.read_cmd 0x48000010)); PortReadLine; PortClose].
Proof.
  destruct (X6_main_lifecycle (Gui.init Double.silent) Double.silent
              [Cli.Line "read 0x48000010"; Cli.Line "bogus"; Cli.Interrupt;
               Cli.Line "read 0x0"]) as (_ & _ & _ & H); [reflexivity|].
  rewrite (H [Cli.Line "read 0x48000010"; Cli.Line "bogus"] Cli.Interrupt
             [Cli.Line "read 0x0"]); [vm_compute; reflexivity | reflexivity | reflexivity].
Defined.

(** ** Lines and their words *)

Section Words.

Let sp (c : ascii) : bool := Py_UNICODE_ISSPACE (N_of_ascii c).

Lemma split_loop_end (cur : list ascii) :
  cur <> [] -> split_loop [] cur = [string_of_list_ascii (rev cur)].
Proof. destruct cur; [congruence | reflexivity]. Qed.

Lemma split_loop_spaces (ws l : list ascii) :
  forallb sp ws = true -> split_loop (ws ++ l) [] = split_loop l [].
Proof.
  induction ws as [|c ws IH]; [reflexivity|]. cbn [forallb]. intros H.
  apply andb_true_iff in H. destruct H as [Hc Hws].
  cbn [app split_loop]. fold (sp c). rewrite Hc. now apply IH.
Qed.

Lemma split_loop_solid (t l cur : list ascii) :
  forallb is_solid t = true ->
  split_loop (t ++ l) cur = split_loop l (rev t ++ cur).
Proof.
  revert cur. induction t as [|c t IH]; intros cur; [reflexivity|].
  cbn [forallb]. intros H. apply andb_true_iff in H. destruct H as [Hc Ht].
  cbn [app split_loop]. unfold is_solid in Hc. apply negb_true_iff in Hc. rewrite Hc.
  rewrite (IH _ Ht). cbn [rev]. now rewrite <- app_assoc.
Qed.

(** A word in front of the end of the line or of white space is the next
    piece [split] gives. *)
Lemma split_loop_word (t : string) (rest : list ascii) :
  word t ->
  match rest with [] => True | c :: _ => sp c = true end ->
  split_loop (list_ascii_of_string t ++ rest) [] = t :: split_loop rest [].
Proof.
  intros [Hne Ht] Hrest. rewrite (split_loop_solid _ _ _ Ht), app_nil_r.
  assert (Hcur : rev (list_ascii_of_string t) <> []).
  { destruct t; [congruence|]. cbn [list_ascii_of_string rev].
    intros E. now apply app_eq_nil in E. }
  assert (Hback : string_of_list_ascii (rev (rev (list_ascii_of_string t))) = t)
    by (rewrite rev_involutive; apply string_of_list_ascii_of_string).
  destruct rest as [|c rest].
  - rewrite (split_loop_end _ Hcur), Hback. reflexivity.
  - cbn [split_loop]. fold (sp c). rewrite Hrest.
    destruct (rev (list_ascii_of_string t)) as [|x r] eqn:E; [congruence|].
    now rewrite Hback.
Qed.

Lemma split_loop_blank (ws : list ascii) : forallb sp ws = true -> split_loop ws [] = [].
Proof.
  intros H. rewrite <- (app_nil_r ws). now rewrite (split_loop_spaces ws [] H).
Qed.

Lemma blank_rest (ws rest : list ascii) :
  forallb sp ws = true ->
  match rest with [] => True | c :: _ => sp c = true end ->
  match (ws ++ rest)%list with [] => True | c :: _ => sp c = true end.
Proof.
  destruct ws as [|c ws]; [auto|]. cbn [forallb app]. intros H _.
  now apply andb_true_iff in H.
Qed.

Lemma line_of_head (first : string) (more : list (string * string)) (tail : string) :
  word first -> exists c r, line_of first more tail = c :: r /\ is_solid c = true.
Proof.
  intros [Hne Hf]. destruct first as [|c f]; [congruence|].
  cbn [list_ascii_of_string forallb] in Hf. apply andb_true_iff in Hf.
  destruct Hf as [Hc _].
  destruct more as [|[gap next] more]; cbn [line_of list_ascii_of_string app];
    exists c; eexists; (split; [reflexivity | exact Hc]).
Qed.

Lemma split_line_of (first : string) (more : list (string * string)) (tail : string) :
  word first ->
  Forall (fun gn => fst gn <> "" /\ all_chars strip_space (fst gn) = true /\ word (snd gn))
         more ->
  all_chars strip_space tail = true ->
  split_loop (line_of first more tail) [] = first :: map snd more.
Proof.
  intros Hf Hm Ht. revert first Hf.
  induction Hm as [|[gap next] more (Hg & Hgs & Hn) Hm IH]; intros first Hf.
  - cbn [line_of map]. rewrite split_loop_word; [|exact Hf|].
    + rewrite split_loop_blank; [reflexivity|]. now rewrite <- all_chars_forallb.
    + rewrite all_chars_forallb in Ht.
      destruct (list_ascii_of_string tail) as [|c r]; [exact I|].
      cbn [forallb] in Ht. now apply andb_true_iff in Ht.
  - cbn [line_of map fst snd] in *. rewrite all_chars_forallb in Hgs.
    rewrite split_loop_word; [|exact Hf|].
    + rewrite (split_loop_spaces _ _ Hgs). now rewrite (IH next Hn).
    + destruct (list_ascii_of_string gap) as [|c r] eqn:E.
      * destruct gap; [congruence | discriminate].
      * cbn [app forallb] in *. now apply andb_true_iff in Hgs.
Qed.

Lemma line_of_last (first : string) (more : list (string * string)) :
  word first -> Forall (fun gn => word (snd gn)) more ->
  exists r c, line_of first more "" = (r ++ [c])%list /\ is_solid c = true.
Proof.
  intros Hf Hm. revert first Hf.
  induction Hm as [|[gap next] more Hn Hm IH]; intros first [Hne Hf].
  - cbn [line_of list_ascii_of_string]. rewrite app_nil_r.
    destruct (exists_last (l := list_ascii_of_string first)) as (r & c & E).
    { destruct first; [congruence | discriminate]. }
    exists r, c. split; [exact E|]. rewrite E, forallb_app in Hf.
    apply andb_true_iff in Hf. destruct Hf as [_ Hc]. cbn in Hc.
    now rewrite andb_true_r in Hc.
  - cbn [line_of]. destruct (IH next Hn) as (r & c & E & Hc). rewrite E.
    exists (list_ascii_of_string first ++ list_ascii_of_string gap ++ r)%list, c.
    split; [now rewrite <- !app_assoc | exact Hc].
Qed.

Lemma line_of_tail (first : string) (more : list (string * string)) (tail : string) :
  line_of first more tail = (line_of first more "" ++ list_ascii_of_string tail)%list.
Proof.
  revert first. induction more as [|[gap next] more IH]; intros first; cbn [line_of].
  - cbn [list_ascii_of_string]. now rewrite app_nil_r.
  - now rewrite IH, !app_assoc.
Qed.

(** [strip] takes the white space off both ends of such a line. *)
Lemma strip_line_of (lead first : string) (more : list (string * string)) (tail : string) :
  all_chars strip_space lead = true ->
  word first -> Forall (fun gn => word (snd gn)) more ->
  all_chars strip_space tail = true ->
  strip (lead ++ string_of_list_ascii (line_of first more tail))
  = string_of_list_ascii (line_of first more "").
Proof.
  intros Hl Hf Hm Ht. unfold strip, strip_list, rstrip.
  rewrite list_of_append, list_ascii_of_string_of_list_ascii.
  rewrite all_chars_forallb in Hl, Ht.
  change (fun c => Py_UNICODE_ISSPACE (N_of_ascii c)) with sp.
  change strip_space with sp in Hl, Ht.
  rewrite (lstrip_app sp _ _ Hl).
  destruct (line_of_head first more tail Hf) as (c & r & E & Hc).
  rewrite E. cbn [lstrip]. unfold is_solid in Hc. apply negb_true_iff in Hc.
  fold (sp c) in Hc. rewrite Hc, <- E, line_of_tail, rev_app_distr.
  rewrite lstrip_app by (now rewrite forallb_rev).
  destruct (line_of_last first more Hf Hm) as (r' & c' & E' & Hc').
  rewrite E', rev_app_distr. cbn [rev app lstrip].
  unfold is_solid in Hc'. apply negb_true_iff in Hc'. fold (sp c') in Hc'. rewrite Hc'.
  change (c' :: rev r') with (rev [c'] ++ rev r')%list.
  now rewrite <- rev_app_distr, rev_involutive.
Qed.

End Words.

Lemma strip_word (tok : string) : word tok -> strip tok = tok.
Proof.
  intros [Hne Ht].
  rewrite <- (append_nil_r tok) at 1. change (tok ++ "")%string with ("" ++ tok ++ "")%string.
  apply strip_core; auto. now rewrite all_chars_forallb.
Qed.

Lemma prefix_empty (s : string) : String.prefix "" s = true.
Proof. destruct s; reflexivity. Qed.

Section ConsoleLines.
Context {D : Type} {P : Platform D}.
Variables (lead gap tok tail : string).
Hypothesis Hlead : all_chars strip_space lead = true.
Hypothesis Hgap : all_chars strip_space gap = true.
Hypothesis Htail : all_chars strip_space tail = true.
Hypothesis Htok : word tok.

Lemma keyword_word (k : string) : k = "read" \/ k = "write" -> word k.
Proof. intros [-> | ->]; split; (discriminate || reflexivity). Qed.

Lemma blank_gap : all_chars strip_space (" " ++ gap) = true.
Proof. cbn [append all_chars]. now rewrite Hgap. Qed.

Lemma read_line_request :
  Console.request_of (strip (lead ++ "read " ++ gap ++ tok ++ tail))
  = match int16 tok with
    | Some addr => Console.Send (Gui.read_cmd addr)
    | None => Console.Refuse (Exn ValueError (int_error_text tok))
    end.
Proof.
  assert (E : (lead ++ "read " ++ gap ++ tok ++ tail)%string
              = (lead ++ string_of_list_ascii (line_of "read" [((" " ++ gap)%string, tok)] tail))%string).
  { cbn [line_of]. rewrite !string_of_app, !string_of_list_ascii_of_string. reflexivity. }
  rewrite E, strip_line_of; auto using keyword_word.
  unfold Console.request_of.
  assert (Hs : split (string_of_list_ascii (line_of "read" [((" " ++ gap)%string, tok)] ""))
               = ["read"; tok]).
  { unfold split. rewrite list_ascii_of_string_of_list_ascii.
    apply (split_line_of "read" [((" " ++ gap)%string, tok)] "");
      auto using keyword_word.
    constructor; [|constructor]. cbn [fst snd]. split; [discriminate|].
    split; [exact blank_gap | exact Htok]. }
  rewrite Hs. cbn [append list_ascii_of_string line_of string_of_list_ascii app].
  cbn [String.eqb Ascii.eqb Bool.eqb startswith String.prefix].
  repeat match goal with
         | |- context [ascii_dec ?a ?b] =>
           destruct (ascii_dec a b) as [?|?]; try congruence
         end.
  rewrite ?prefix_empty.
  destruct (int16 tok); reflexivity.
Qed.

Variables (gap2 tok2 : string).
Hypothesis Hgap2 : gap2 <> "" /\ all_chars strip_space gap2 = true.
Hypothesis Htok2 : word tok2.

Lemma write_line_request :
  Console.request_of (strip (lead ++ "write " ++ gap ++ tok ++ gap2 ++ tok2 ++ tail))
  = match int16 tok, int16 tok2 with
    | Some addr, Some val => Console.Send (Gui.write_cmd addr val)
    | Some _, None => Console.Refuse (Exn ValueError (int_error_text tok2))
    | None, _ => Console.Refuse (Exn ValueError (int_error_text tok))
    end.
Proof.
  assert (E : (lead ++ "write " ++ gap ++ tok ++ gap2 ++ tok2 ++ tail)%string
              = (lead ++ string_of_list_ascii
                           (line_of "write" [((" " ++ gap)%string, tok); (gap2, tok2)] tail))%string).
  { cbn [line_of]. rewrite !string_of_app, !string_of_list_ascii_of_string. reflexivity. }
  rewrite E, strip_line_of; auto using keyword_word.
  unfold Console.request_of.
  assert (Hs : split (string_of_list_ascii
                        (line_of "write" [((" " ++ gap)%string, tok); (gap2, tok2)] ""))
               = ["write"; tok; tok2]).
  { unfold split. rewrite list_ascii_of_string_of_list_ascii.
    apply (split_line_of "write" [((" " ++ gap)%string, tok); (gap2, tok2)] "");
      auto using keyword_word.
    constructor; [|constructor; [|constructor]]; cbn [fst snd].
    - split; [discriminate|]. split; [exact blank_gap | exact Htok].
    - destruct Hgap2. auto. }
  rewrite Hs. cbn [append list_ascii_of_string line_of string_of_list_ascii app].
  cbn [String.eqb Ascii.eqb Bool.eqb startswith String.prefix].
  repeat match goal with
         | |- context [ascii_dec ?a ?b] =>
           destruct (ascii_dec a b) as [?|?]; try congruence
         end.
  rewrite ?prefix_empty.
  destruct (int16 tok); [destruct (int16 tok2)|]; reflexivity.
Qed.

End ConsoleLines.

(** X7.  What a typed line does in the console client.  A line that, in
    any white space, holds the word read, a blank, and one more word sends
    the read command of the value [int] gives that word, and prints the
    response or the error the exchange raised; when the word has no value
    the error is printed and nothing is sent.  The same holds for write
    with two words, the address and the value.  The GUI gives the same word
    the same value, so both clients send the same command for the same
    text.  And a line that asks for no command to be sent, because it asks
    to leave, is no command, has too few or too many words, or holds a word
    without a value, leaves the port, the device and the wire alone and
    prints one line. *)
Theorem X7_console_line {D : Type} {P : Platform D} (w : World D)
        (lead gap tok tail : string) :
  all_chars strip_space lead = true -> all_chars strip_space gap = true ->
  all_chars strip_space tail = true -> word tok ->
  Cli.main_turn (Cli.Line (lead ++ "read " ++ gap ++ tok ++ tail)) w
  = match int16 tok with
    | Some addr => Console.report (Cli.read_register addr w)
    | None => Console.complain (Exn ValueError (int_error_text tok)) w
    end
  /\ (forall gap2 tok2,
        gap2 <> "" /\ all_chars strip_space gap2 = true -> word tok2 ->
        Cli.main_turn
          (Cli.Line (lead ++ "write " ++ gap ++ tok ++ gap2 ++ tok2 ++ tail)) w
        = match int16 tok, int16 tok2 with
          | Some addr, Some val => Console.report (Cli.write_register addr val w)
          | Some _, None => Console.complain (Exn ValueError (int_error_text tok2)) w
          | None, _ => Console.complain (Exn ValueError (int_error_text tok)) w
          end)
  /\ Gui.field_value tok = int16 tok
  /\ (forall text,
        Console.is_send (Console.request_of (strip text)) = false ->
        port_untouched w (snd (Cli.main_turn (Cli.Line text) w))
        /\ exists line, ui (snd (Cli.main_turn (Cli.Line text) w))
                        = (ui w ++ [Printed line])%list).
Proof.
  intros Hlead Hgap Htail Htok. split; [|split; [|split]].
  - rewrite main_turn_answer, (read_line_request lead gap tok tail) by assumption.
    destruct (int16 tok); reflexivity.
  - intros gap2 tok2 Hgap2 Htok2.
    rewrite main_turn_answer, (write_line_request lead gap tok tail) by assumption.
    destruct (int16 tok); [destruct (int16 tok2)|]; reflexivity.
  - unfold Gui.field_value. now rewrite strip_word.
  - intros text Hq. rewrite main_turn_answer.
    destruct (Console.request_of (strip text)); [|discriminate| |];
      (split; [repeat split | eexists; reflexivity]).
Qed.

Lemma X7_console_line_witness :
  Cli.main_turn (Cli.Line "  read  0x_ff ") (Double.opened Double.silent)
  = Console.report (Cli.read_register 255 (Double.opened Double.silent))
  /\ wire (snd (Cli.main_turn (Cli.Line "read 0x10 0x20") (Double.opened Double.silent)))
     = [].
Proof.
  destruct (X7_console_line (Double.opened Double.silent) "  " " " "0x_ff" " ")
    as (H1 & _ & _ & H4);
    [reflexivity | reflexivity | reflexivity | split; [discriminate | reflexivity] |].
  split; [exact H1|].
  destruct (H4 "read 0x10 0x20") as ((_ & _ & Hw) & _); [reflexivity | exact Hw].
Defined.

(** ** What reaches the port *)

Lemma exchanges_app (pause l1 l2 : list wire_event) :
  exchanges pause l1 -> exchanges pause l2 -> exchanges pause (l1 ++ l2).
Proof.
  intros H1 H2. induction H1 as [|data l Hd _ IH|data l Hd _ IH|l _ IH]; cbn [app].
  - exact H2.
  - now apply exchanges_write.
  - rewrite <- app_assoc. cbn [app]. now apply exchanges_read.
  - now apply exchanges_close.
Qed.

Section Discipline.
Context {D : Type} {P : Platform D}.

(** From [w] to [w'] the wire has grown by whole exchanges and closes. *)
Let adds (pause : list wire_event) (w w' : World D) : Prop :=
  exists calls, wire w' = (wire w ++ calls)%list /\ exchanges pause calls.

Lemma adds_same (pause : list wire_event) (w w' : World D) :
  wire w' = wire w -> adds pause w w'.
Proof. intros H. exists []. rewrite H, app_nil_r. split; [reflexivity | constructor]. Qed.

Lemma adds_trans (pause : list wire_event) (w w1 w2 : World D) :
  adds pause w w1 -> adds pause w1 w2 -> adds pause w w2.
Proof.
  intros (c1 & H1 & E1) (c2 & H2 & E2). exists (c1 ++ c2)%list.
  split; [now rewrite H2, H1, app_assoc | now apply exchanges_app].
Qed.

Lemma send_command_adds (cmd : string) (w : World D) :
  is_command (encode cmd) -> adds [ClockSleep 50] w (snd (Gui.send_command cmd w)).
Proof.
  intros Hc. unfold adds. rewrite send_command_wire.
  destruct (Gui.port_is_open w).
  - destruct (snd (serial_write (dev w) (encode cmd))); eexists; (split; [reflexivity|]).
    + apply exchanges_write; [exact Hc | constructor].
    + apply (exchanges_read [ClockSleep 50]); [exact Hc | constructor].
  - exists []. rewrite app_nil_r. split; [reflexivity | constructor].
Qed.

Lemma read_cmd_command (address : Z) : is_command (encode (Gui.read_cmd address)).
Proof. left. now exists address. Qed.

Lemma write_cmd_command (address value : Z) :
  is_command (encode (Gui.write_cmd address value)).
Proof. right. now exists address, value. Qed.

Lemma press_adds (a : Widgets.action) (w : World D) :
  adds [ClockSleep 50] w (snd (Widgets.press a w)).
Proof.
  unfold Widgets.press. destruct a as [port_text baud| |i|text|addr_text val_text].
  - destruct (Widgets.connect_enabled _); [|now apply adds_same].
    apply adds_same. rewrite connect_serial_cases.
    destruct (String.eqb (strip port_text) ""); [now rewrite show_error_run|].
    destruct (serial_open (dev w) (strip port_text) baud) as [d [e|]]; [|reflexivity].
    destruct (is_SerialException e); [now rewrite show_error_run | reflexivity].
  - destruct (Widgets.disconnect_enabled _); [|now apply adds_same].
    rewrite disconnect_serial_run. destruct (Gui.port_is_open w); [|now apply adds_same].
    exists [PortClose]. split; [reflexivity | repeat constructor].
  - unfold Gui.scb_buttons. rewrite nth_error_map.
    destruct (nth_error Gui.SCB_REGISTERS i) as [[name address]|]; [|now apply adds_same].
    cbn [option_map].
    destruct (nth_error (Widgets.scb_enabled _) i) as [[]|]; try now apply adds_same.
    unfold adds. rewrite read_scb_register_wire.
    apply send_command_adds, read_cmd_command.
  - destruct (Widgets.read_enabled _); [|now apply adds_same].
    unfold adds. rewrite read_custom_register_wire.
    destruct (Gui.field_value text) as [address|]; [|now apply adds_same].
    apply send_command_adds, read_cmd_command.
  - destruct (Widgets.write_enabled _); [|now apply adds_same].
    unfold adds. rewrite write_custom_register_wire.
    destruct (Gui.field_value addr_text) as [address|]; [|now apply adds_same].
    destruct (Gui.field_value val_text) as [value|]; [|now apply adds_same].
    apply send_command_adds, write_cmd_command.
Qed.

Lemma session_adds (l : list Widgets.action) (w : World D) :
  adds [ClockSleep 50] w (snd (Widgets.session l w)).
Proof.
  revert w. induction l as [|a l IH]; intros w; [now apply adds_same|].
  cbn [Widgets.session]. unfold bind.
  pose proof (press_adds a w) as Ha.
  destruct (Widgets.press a w) as [[[]|e] w']; [|exact Ha].
  exact (adds_trans _ _ _ _ Ha (IH w')).
Qed.

Lemma exchange_adds (cmd : string) (w : World D) :
  is_command (encode cmd) -> adds [] w (snd (Console.exchange cmd w)).
Proof.
  intros Hc. unfold Console.exchange, bind, ser_write, ser_readline, decode.
  destruct (ser w) as [[[]]|] eqn:Hs; cbn [is_open]; try now apply adds_same.
  destruct (serial_write (dev w) (encode cmd)) as [d1 [e|]].
  - exists [PortWrite (encode cmd)]. split; [reflexivity|].
    apply exchanges_write; [exact Hc | constructor].
  - cbn [set_dev on_wire ser dev wire ui]. rewrite Hs. cbn [is_open].
    exists [PortWrite (encode cmd); PortReadLine].
    split; [|apply (exchanges_read []); [exact Hc | constructor]].
    destruct (serial_readline d1) as [d2 [e|bs]]; [|destruct (decode_strict bs)];
      cbn; now rewrite <- app_assoc.
Qed.

Lemma request_command (user_input cmd : string) :
  Console.request_of user_input = Console.Send cmd -> is_command (encode cmd).
Proof.
  unfold Console.request_of.
  destruct (String.eqb user_input "exit"); [discriminate|].
  destruct (startswith user_input "read ").
  - destruct (split user_input) as [|a [|b [|c l]]]; try discriminate.
    destruct (int16 b); [|discriminate]. intros [= <-]. apply read_cmd_command.
  - destruct (startswith user_input "write "); [|discriminate].
    destruct (split user_input) as [|a [|b [|c [|c' l]]]]; try discriminate.
    destruct (int16 b); [destruct (int16 c)|]; try discriminate.
    intros [= <-]. apply write_cmd_command.
Qed.

Lemma main_turn_adds (i : Cli.console_input) (w : World D) :
  adds [] w (snd (Cli.main_turn i w)).
Proof.
  destruct i as [text|]; [|now apply adds_same].
  rewrite main_turn_answer.
  destruct (Console.request_of (strip text)) as [|cmd| |e] eqn:Hq;
    try now apply adds_same.
  cbn [Console.answer]. pose proof (exchange_adds cmd w (request_command _ _ Hq)) as H.
  unfold Console.report, Console.complain.
  destruct (Console.exchange cmd w) as [[r|e] w']; exact H.
Qed.

Lemma main_loop_adds (inputs : list Cli.console_input) (w : World D) :
  adds [] w (snd (Cli.main_loop inputs w)).
Proof.
  revert w. induction inputs as [|i rest IH]; intros w; [now apply adds_same|].
  rewrite main_loop_cons.
  pose proof (main_turn_adds i (on_ui (Prompted ">> ") w)) as Hi.
  destruct (Cli.main_turn i (on_ui (Prompted ">> ") w)) as [[[]|e] w']; try exact Hi.
  exact (adds_trans _ _ _ _ Hi (IH w')).
Qed.

Lemma main_adds (inputs : list Cli.console_input) (w : World D) :
  adds [] w (snd (Cli.main inputs w)).
Proof.
  unfold Cli.main, Cli.open_serial, bind at 1, try_except.
  destruct (serial_open (dev w) Cli.SERIAL_PORT Cli.BAUD_RATE) as [d [e|]].
  - destruct (is_SerialException e); now apply adds_same.
  - unfold Cli.print, modify, bind, get. cbn [on_ui set_ser set_dev ser dev wire ui].
    match goal with |- context [Cli.main_loop inputs ?w0] =>
      pose proof (main_loop_adds inputs w0) as Hl;
      destruct (main_loop_grows inputs w0) as (c & s & _ & (Hs & _) & _);
      destruct (Cli.main_loop inputs w0) as [[[]|e] w'] end;
      cbn [snd ser wire] in *; try exact Hl.
    apply (adds_trans _ _ w' _ Hl). unfold ser_close. rewrite Hs.
    exists [PortClose]. split; [reflexivity | repeat constructor].
Qed.

End Discipline.

(** X8.  Only whole commands reach the device, in whole exchanges.  In
    the GUI, from a window made by [__init__], after any presses of any
    buttons with any texts in the fields, and in the console client, for
    any inputs and from any state, whatever the port and the device answer:
    every write to the port carries the bytes of a read command or of a
    write command of some integers, every [readline] comes right after the
    write of its command (and, in the GUI, the pause of 50 ms), and nothing
    else is done to the port but closing it. *)
Theorem X8_wire_discipline {D : Type} {P : Platform D} :
  (forall (l : list Widgets.action) (d : D),
     exchanges [ClockSleep 50] (wire (snd (Widgets.session l (Gui.init d)))))
  /\ (forall (inputs : list Cli.console_input) (w : World D),
        exists calls,
          wire (snd (Cli.main inputs w)) = (wire w ++ calls)%list
          /\ exchanges [] calls).
Proof.
  split.
  - intros l d. destruct (session_adds l (Gui.init d)) as (calls & Hw & He).
    rewrite Hw. exact He.
  - intros inputs w. exact (main_adds inputs w).
Qed.

(** ** The line the device answers *)

Lemma byte_of_ascii_to_N (c : ascii) : Byte.to_N (byte_of_ascii c) = N_of_ascii c.
Proof.
  destruct c as [[] [] [] [] [] [] [] []]; vm_compute; reflexivity.
Qed.

(** Bytes below 128 decode to themselves. *)
Lemma decode_strict_ascii (line : string) :
  all_chars (fun c => (N_of_ascii c <? 128)%N) line = true ->
  decode_strict (list_byte_of_string line) = Some (codes line).
Proof.
  intros H. unfold decode_strict, list_byte_of_string, codes.
  rewrite all_chars_forallb in H.
  rewrite <- (app_nil_r (map byte_of_ascii (list_ascii_of_string line))).
  rewrite utf8_scan_ascii, app_nil_r.
  - clear H. induction (list_ascii_of_string line) as [|c l IH]; [reflexivity|].
    cbn [map fold_right]. rewrite IH. now rewrite byte_of_ascii_to_N.
  - rewrite <- H. clear H.
    induction (list_ascii_of_string line) as [|c l IH]; [reflexivity|].
    cbn [map forallb]. now rewrite IH, byte_of_ascii_to_N.
Qed.

Lemma strip_line_end (resp : string) : strip (resp ++ CRLF) = strip resp.
Proof.
  unfold strip. rewrite list_of_append. now rewrite strip_list_before.
Qed.

(** X9.  The response is the line the device sent, without the white
    space at its ends.  On an open port, when the write goes through and
    the device answers a line of ASCII bytes, the GUI's [send_command] and
    the console client's [read_register] and [write_register] of the same
    command all return that line stripped, and leave the device in the same
    state; when the line is a text with no white space at its ends followed
    by the line end CR LF, the response is that text. *)
Theorem X9_ascii_answer {D : Type} {P : Platform D} (w : World D)
        (cmd line : string) (d1 d2 : D) :
  Gui.port_is_open w = true ->
  all_chars (fun c => (N_of_ascii c <? 128)%N) line = true ->
  serial_write (dev w) (encode cmd) = (d1, None) ->
  serial_readline d1 = (d2, inr (list_byte_of_string line)) ->
  fst (Gui.send_command cmd w) = Returned (codes (strip line))
  /\ dev (snd (Gui.send_command cmd w)) = d2
  /\ (forall address,
        cmd = Gui.read_cmd address ->
        fst (Cli.read_register address w) = Returned (codes (strip line))
        /\ dev (snd (Cli.read_register address w)) = d2)
  /\ (forall address value,
        cmd = Gui.write_cmd address value ->
        fst (Cli.write_register address value w) = Returned (codes (strip line))
        /\ dev (snd (Cli.write_register address value w)) = d2)
  /\ (forall resp, strip resp = resp -> line = (resp ++ CRLF)%string -> strip line = resp).
Proof.
  intros Ho Hl Hw Hr.
  pose proof (decode_strict_ascii line Hl) as Hd.
  assert (Hc : cli_exchange cmd w
               = (Returned (codes (strip line)),
                  {| ser := ser w; dev := d2;
                     wire := (wire w ++ [PortWrite (encode cmd); PortReadLine])%list;
                     ui := ui w |})).
  { unfold cli_exchange. now rewrite Hw, Hr, Hd, ustrip_codes. }
  split; [|split; [|split; [|split]]].
  - rewrite (send_command_open cmd w Ho), Hw, Hr, (decode_strict_ignore _ _ Hd).
    cbn [fst]. now rewrite ustrip_codes.
  - now rewrite (send_command_open cmd w Ho), Hw, Hr.
  - intros address ->. rewrite (cli_read_register_open address w Ho), Hc. split; reflexivity.
  - intros address value ->.
    rewrite (cli_write_register_open address value w Ho), Hc. split; reflexivity.
  - intros resp Hs ->. now rewrite strip_line_end.
Qed.

Lemma X9_ascii_answer_witness :
  fst (Gui.send_command (Gui.read_cmd 0xE000ED00)
         (Double.opened (Double.answering [inr (list_byte_of_string ("0x410CC200" ++ CRLF))])))
  = Returned (codes "0x410CC200")
  /\ fst (Cli.read_register 0xE000ED00
            (Double.opened (Double.answering [inr (list_byte_of_string ("0x410CC200" ++ CRLF))])))
     = Returned (codes "0x410CC200").
Proof.
  destruct (X9_ascii_answer
              (Double.opened (Double.answering [inr (list_byte_of_string ("0x410CC200" ++ CRLF))]))
              (Gui.read_cmd 0xE000ED00) ("0x410CC200" ++ CRLF)
              (Double.answering [inr (list_byte_of_string ("0x410CC200" ++ CRLF))])
              Double.silent)
    as (H1 & _ & H3 & _ & H5); [reflexivity | reflexivity | reflexivity | reflexivity |].
  rewrite (H5 "0x410CC200" eq_refl eq_refl) in H1, H3.
  split; [exact H1 | exact (proj1 (H3 0xE000ED00 eq_refl))].
Defined.
